(** * li_extract: certificate metadata extraction

    A shallow embedding of [li_extract.py] and the properties of its
    text normaliser, per-provider record builder, filename deriver and
    statistics aggregator.

    Text is a list of characters.  A character is a code point below 256
    (Latin-1); the classes [\d], [\w], [\s], [str.lower] and [str.strip]
    are Python's Unicode ones restricted to that range. *)

From Stdlib Require Import List Ascii String NArith Arith Bool Lia.
From stdpp Require Import base option gmap strings.
Import ListNotations.

Local Open Scope list_scope.
Local Open Scope bool_scope.

Abbreviation str := (list ascii).

(** A literal of the source, as a list of characters. *)
Definition txt (s : string) : str := list_ascii_of_string s.

(** ** Characters *)

Module Char.

Definition code (c : ascii) : N := N_of_ascii c.

Definition between (lo hi : N) (c : ascii) : bool :=
  (lo <=? code c)%N && (code c <=? hi)%N.

Definition is_c (a : ascii) (c : ascii) : bool := Ascii.eqb a c.

Definition newline : ascii := ascii_of_N 10.

(** [0-9]: the only decimal digits below 256. *)
Definition is_digit (c : ascii) : bool := between 48 57 c.

Definition is_upper_az (c : ascii) : bool := between 65 90 c.
Definition is_lower_az (c : ascii) : bool := between 97 122 c.
Definition is_alpha_az (c : ascii) : bool := is_upper_az c || is_lower_az c.

(** [str.isspace] and [\s]: TAB LF VT FF CR, FS GS RS US, SPACE, NEL, NBSP. *)
Definition is_space (c : ascii) : bool :=
  between 9 13 c || between 28 32 c || between 133 133 c || between 160 160 c.

(** [str.isalnum] below 256. *)
Definition is_alnum (c : ascii) : bool :=
  is_digit c || is_alpha_az c
  || between 170 170 c || between 178 179 c || between 181 181 c
  || between 185 186 c || between 188 190 c
  || between 192 214 c || between 216 246 c || between 248 255 c.

(** [\w]: alphanumeric or underscore. *)
Definition is_word (c : ascii) : bool := is_alnum c || between 95 95 c.

(** [str.lower] on one character. *)
Definition lower (c : ascii) : ascii :=
  if is_upper_az c || between 192 214 c || between 216 222 c
  then ascii_of_N (code c + 32) else c.

(** A pattern letter under [re.IGNORECASE]. *)
Definition is_nocase (a : ascii) (c : ascii) : bool :=
  Ascii.eqb (lower a) (lower c).

Definition any (_ : ascii) : bool := true.

(** [.] without [re.DOTALL]. *)
Definition dot (c : ascii) : bool := negb (is_c newline c).

End Char.

Arguments Char.between : simpl never.
Arguments Char.is_c : simpl never.
Arguments Char.is_digit : simpl never.
Arguments Char.is_upper_az : simpl never.
Arguments Char.is_lower_az : simpl never.
Arguments Char.is_alpha_az : simpl never.
Arguments Char.is_space : simpl never.
Arguments Char.is_alnum : simpl never.
Arguments Char.is_word : simpl never.
Arguments Char.lower : simpl never.
Arguments Char.is_nocase : simpl never.
Arguments Char.dot : simpl never.

(** ** String methods *)

Definition str_eqb (a b : str) : bool :=
  bool_decide (a = b).

Definition str_lower (s : str) : str := map Char.lower s.

Fixpoint lstrip_by (p : ascii -> bool) (s : str) : str :=
  match s with
  | [] => []
  | c :: t => if p c then lstrip_by p t else s
  end.

Definition rstrip_by (p : ascii -> bool) (s : str) : str :=
  rev (lstrip_by p (rev s)).

Definition strip_by (p : ascii -> bool) (s : str) : str :=
  rstrip_by p (lstrip_by p s).

(** [s.strip()] *)
Definition str_strip (s : str) : str := strip_by Char.is_space s.

(** [s.strip(ch)] for a one-character argument. *)
Definition str_strip_char (a : ascii) (s : str) : str := strip_by (Char.is_c a) s.

(** [s.rstrip(ch)] *)
Definition str_rstrip_char (a : ascii) (s : str) : str := rstrip_by (Char.is_c a) s.

(** [s.replace(a, b)] for one-character [a] and [b]. *)
Definition str_replace_char (a b : ascii) (s : str) : str :=
  map (fun c => if Char.is_c a c then b else c) s.

(** [s.zfill(2)] for an unsigned digit string. *)
Definition str_zfill2 (s : str) : str :=
  repeat "0"%char (2 - length s) ++ s.

(** [s.split(', ')] *)
Fixpoint split_comma_space_aux (acc : str) (s : str) : list str :=
  match s with
  | [] => [rev acc]
  | c :: t =>
      match t with
      | d :: t' =>
          if Char.is_c ","%char c && Char.is_c " "%char d
          then rev acc :: split_comma_space_aux [] t'
          else split_comma_space_aux (c :: acc) t
      | [] => split_comma_space_aux (c :: acc) t
      end
  end.

Definition str_split_comma_space (s : str) : list str :=
  split_comma_space_aux [] s.

(** [sep.join(parts)] *)
Fixpoint str_join (sep : str) (parts : list str) : str :=
  match parts with
  | [] => []
  | [p] => p
  | p :: ps => p ++ sep ++ str_join sep ps
  end.

(** ** Paths ([posixpath]) *)

Definition slash : ascii := "/"%char.

(** The text after the last [/], and the text up to and including it. *)
Fixpoint rsplit_slash (s : str) : str * str :=
  match s with
  | [] => ([], [])
  | c :: t =>
      let '(h, b) := rsplit_slash t in
      if existsb (Char.is_c slash) t then (c :: h, b)
      else if Char.is_c slash c then ([c], t)
      else ([], s)
  end.

Definition os_path_basename (p : str) : str := snd (rsplit_slash p).

Definition os_path_dirname (p : str) : str :=
  let head := fst (rsplit_slash p) in
  if forallb (Char.is_c slash) head then head
  else str_rstrip_char slash head.

Definition starts_with_slash (b : str) : bool :=
  match b with c :: _ => Char.is_c slash c | [] => false end.

Definition ends_with_slash (a : str) : bool :=
  match rev a with c :: _ => Char.is_c slash c | [] => false end.

Definition is_empty (s : str) : bool :=
  match s with [] => true | _ => false end.

(** [os.path.join(a, b)] *)
Definition os_path_join (a b : str) : str :=
  if starts_with_slash b then b
  else if is_empty a || ends_with_slash a then a ++ b
  else a ++ slash :: b.

(** ** Regular expressions ([re])

    A pattern is its syntax tree with the flags of its call already applied
    to its characters.  [matches r st] lists the states in which a match of
    [r] started in [st] can end, in the order Python's backtracking matcher
    tries them: the head of the list is the match Python reports. *)

Inductive regex : Type :=
| Eps
| Chr (p : ascii -> bool)          (* one character of a class *)
| Seq (r1 r2 : regex)
| Alt (r1 r2 : regex)              (* r1|r2 *)
| Star (greedy : bool) (r : regex) (* r* and r*? *)
| Group (i : nat) (r : regex)      (* capturing group number i *)
| Backref (i : nat)                (* \i *)
| Ahead (r : regex)                (* (?=r) *)
| BolM                             (* ^ under re.MULTILINE *)
| EolM                             (* $ under re.MULTILINE *)
| Eol.                             (* $ *)

(** The text still to read, the character just before it, and the groups
    captured so far (latest first). *)
Record mstate : Type := MState {
  rest : str;
  prev : option ascii;
  caps : list (nat * str)
}.

Definition cap_lookup (i : nat) (cs : list (nat * str)) : option str :=
  match List.find (fun p => Nat.eqb (fst p) i) cs with
  | Some p => Some (snd p)
  | None => None
  end.

Fixpoint strip_prefix (w s : str) : option str :=
  match w with
  | [] => Some s
  | a :: w' =>
      match s with
      | c :: s' => if Ascii.eqb a c then strip_prefix w' s' else None
      | [] => None
      end
  end.

Definition consumed (st st' : mstate) : str :=
  firstn (length (rest st) - length (rest st')) (rest st).

(** The iterations of a starred pattern whose body is matched by [step]:
    an iteration counts only if it reads something, so [n], the length of
    the text left, bounds their number.  A greedy star tries one more
    iteration before it tries to stop, a lazy one the other way round. *)
Fixpoint star_loop (step : mstate -> list mstate) (greedy : bool) (n : nat)
         (st : mstate) : list mstate :=
  match n with
  | O => [st]
  | S n' =>
      let more :=
        flat_map
          (fun st' =>
             if length (rest st') <? length (rest st)
             then star_loop step greedy n' st' else [])
          (step st) in
      if greedy then more ++ [st] else st :: more
  end.

Fixpoint matches (r : regex) (st : mstate) : list mstate :=
  match r with
  | Eps => [st]
  | Chr p =>
      match rest st with
      | c :: t => if p c then [MState t (Some c) (caps st)] else []
      | [] => []
      end
  | Seq r1 r2 => flat_map (matches r2) (matches r1 st)
  | Alt r1 r2 => matches r1 st ++ matches r2 st
  | Star greedy r1 => star_loop (matches r1) greedy (length (rest st)) st
  | Group i r1 =>
      map (fun st' => MState (rest st') (prev st')
                             ((i, consumed st st') :: caps st'))
          (matches r1 st)
  | Backref i =>
      match cap_lookup i (caps st) with
      | Some w =>
          match strip_prefix w (rest st) with
          | Some t => [MState t (match rev w with c :: _ => Some c
                                                | [] => prev st end) (caps st)]
          | None => []
          end
      | None => []
      end
  | Ahead r1 =>
      match matches r1 st with
      | st' :: _ => [MState (rest st) (prev st) (caps st')]
      | [] => []
      end
  | BolM =>
      match prev st with
      | None => [st]
      | Some c => if Char.is_c Char.newline c then [st] else []
      end
  | EolM =>
      match rest st with
      | [] => [st]
      | c :: _ => if Char.is_c Char.newline c then [st] else []
      end
  | Eol =>
      match rest st with
      | [] => [st]
      | [c] => if Char.is_c Char.newline c then [st] else []
      | _ => []
      end
  end.

(** Derived forms. *)
Definition Plus (greedy : bool) (r : regex) : regex := Seq r (Star greedy r).
Definition Opt (r : regex) : regex := Alt r Eps.                (* r? *)

Fixpoint Rep (n : nat) (r : regex) : regex :=                  (* r{n} *)
  match n with
  | O => Eps
  | S n' => Seq r (Rep n' r)
  end.

Definition Rep12 (r : regex) : regex := Seq r (Opt r).          (* r{1,2} *)

Fixpoint seqs (rs : list regex) : regex :=
  match rs with
  | [] => Eps
  | [r] => r
  | r :: rs' => Seq r (seqs rs')
  end.

Fixpoint alts (rs : list regex) : regex :=
  match rs with
  | [] => Eps
  | [r] => r
  | r :: rs' => Alt r (alts rs')
  end.

(** A literal, and a literal under [re.IGNORECASE]. *)
Definition lit (s : string) : regex := seqs (map (fun a => Chr (Char.is_c a)) (txt s)).
Definition liti (s : string) : regex := seqs (map (fun a => Chr (Char.is_nocase a)) (txt s)).

(** The first match of [r] that starts exactly here. *)
Definition match_here (r : regex) (p : option ascii) (s : str) : option mstate :=
  head (matches r (MState s p [])).

(** A match object: the text before the match, and the final state. *)
Record rmatch : Type := RMatch {
  m_before : str;
  m_state : mstate
}.

Definition group (i : nat) (m : rmatch) : option str :=
  cap_lookup i (caps (m_state m)).

(** [re.match(r, s)] *)
Definition re_match (r : regex) (s : str) : option rmatch :=
  match match_here r None s with
  | Some st => Some (RMatch [] st)
  | None => None
  end.

Fixpoint search_from (r : regex) (before : str) (p : option ascii) (s : str)
  : option rmatch :=
  match match_here r p s with
  | Some st => Some (RMatch (rev before) st)
  | None =>
      match s with
      | [] => None
      | c :: t => search_from r (c :: before) (Some c) t
      end
  end.

(** [re.search(r, s)] *)
Definition re_search (r : regex) (s : str) : option rmatch :=
  search_from r [] None s.

(** Left-to-right scan for non-overlapping matches; [skip] characters of
    the match found last are still to be passed over. *)
Fixpoint sub_scan (r : regex) (repl : mstate -> str) (skip : nat)
         (p : option ascii) (s : str) : str :=
  match s with
  | [] =>
      match skip with
      | O => match match_here r p [] with
             | Some st => repl st
             | None => []
             end
      | S _ => []
      end
  | c :: t =>
      match skip with
      | S k => sub_scan r repl k (Some c) t
      | O =>
          match match_here r p s with
          | Some st =>
              repl st ++
              match length s - length (rest st) with
              | O => c :: sub_scan r repl 0 (Some c) t
              | S k => sub_scan r repl k (Some c) t
              end
          | None => c :: sub_scan r repl 0 (Some c) t
          end
      end
  end.

(** [re.sub(r, repl, s)] *)
Definition re_sub (r : regex) (repl : mstate -> str) (s : str) : str :=
  sub_scan r repl 0 None s.

(** Replacement templates: a constant text and [\1]. *)
Definition repl_const (w : str) : mstate -> str := fun _ => w.
Definition repl_group1 : mstate -> str :=
  fun st => match cap_lookup 1 (caps st) with Some w => w | None => [] end.

Fixpoint findall_scan (r : regex) (skip : nat) (p : option ascii) (s : str)
  : list str :=
  match s with
  | [] =>
      match skip with
      | O => match match_here r p [] with
             | Some st => [repl_group1 st]
             | None => []
             end
      | S _ => []
      end
  | c :: t =>
      match skip with
      | S k => findall_scan r k (Some c) t
      | O =>
          match match_here r p s with
          | Some st =>
              repl_group1 st ::
              match length s - length (rest st) with
              | O => findall_scan r 0 (Some c) t
              | S k => findall_scan r k (Some c) t
              end
          | None => findall_scan r 0 (Some c) t
          end
      end
  end.

(** [re.findall(r, s)] for a pattern with one group. *)
Definition re_findall (r : regex) (s : str) : list str :=
  findall_scan r 0 None s.

(** ** The text normaliser *)

(** [(.)\1+] *)
Definition re_repeated : regex :=
  Seq (Group 1 (Chr Char.dot)) (Plus true (Backref 1)).

(** [\s+] *)
Definition re_spaces : regex := Plus true (Chr Char.is_space).

Definition clean_text (text : str) : str :=
  let cleaned := re_sub re_repeated repl_group1 text in
  str_strip (re_sub re_spaces (repl_const (txt " ")) cleaned).

(** ** Course URLs *)

(** [[^\w\s-]] *)
Definition re_not_word_space_hyphen : regex :=
  Chr (fun c => negb (Char.is_word c || Char.is_space c || Char.is_c "-" c)).

(** The local [slug] of [generate_course_url]. *)
Definition slug (title : str) : str :=
  str_strip_char "-"
    (str_replace_char " " "-"
       (re_sub re_not_word_space_hyphen (repl_const []) (str_lower title))).

Definition generate_course_url (title provider_id : str) : str :=
  let slug := slug title in
  if str_eqb provider_id (txt "linkedinlearning")
  then txt "https://www.linkedin.com/learning/" ++ slug
  else if str_eqb provider_id (txt "udemy")
  then txt "https://www.udemy.com/course/" ++ slug ++ txt "/"
  else if str_eqb provider_id (txt "cybrary")
  then txt "https://www.cybrary.it/course/" ++ slug ++ txt "/"
  else if str_eqb provider_id (txt "deeplearningai")
  then txt "https://www.deeplearning.ai/short-courses/" ++ slug ++ txt "/"
  else [].

(** ** The file system

    Regular files with their content, and the directories that exist. *)

Record filesystem : Type := FS {
  files : gmap str str;
  dirs : gset str
}.

Definition os_path_exists (fs : filesystem) (p : str) : bool :=
  bool_decide (is_Some (files fs !! p)) || bool_decide (p ∈ dirs fs).

(** The directory part of a path names an existing directory; the empty
    one is the current directory. *)
Definition dir_exists (fs : filesystem) (d : str) : bool :=
  is_empty d || bool_decide (d ∈ dirs fs).

(** [os.rename(src, dst)] of a regular file; [None] when it raises. *)
Definition os_rename (fs : filesystem) (src dst : str) : option filesystem :=
  match files fs !! src with
  | Some content =>
      if dir_exists fs (os_path_dirname dst) && negb (bool_decide (dst ∈ dirs fs))
      then Some (FS (<[dst := content]> (delete src (files fs))) (dirs fs))
      else None
  | None => None
  end.

(** ** The filename deriver *)

(** [[^\w\-]] *)
Definition re_not_word_hyphen : regex :=
  Chr (fun c => negb (Char.is_word c || Char.is_c "-" c)).

(** [(\d{4})-(\d{2})-(\d{2})] *)
Definition re_iso_date : regex :=
  seqs [Group 1 (Rep 4 (Chr Char.is_digit)); lit "-";
        Group 2 (Rep 2 (Chr Char.is_digit)); lit "-";
        Group 3 (Rep 2 (Chr Char.is_digit))].

(** [(\w+)\s+(\d{1,2}),\s+(\d{4})] *)
Definition re_month_date : regex :=
  seqs [Group 1 (Plus true (Chr Char.is_word)); Plus true (Chr Char.is_space);
        Group 2 (Rep12 (Chr Char.is_digit)); lit ",";
        Plus true (Chr Char.is_space); Group 3 (Rep 4 (Chr Char.is_digit))].

Definition month_table : list (str * str) :=
  [(txt "jan", txt "01"); (txt "feb", txt "02"); (txt "mar", txt "03");
   (txt "apr", txt "04"); (txt "may", txt "05"); (txt "jun", txt "06");
   (txt "jul", txt "07"); (txt "aug", txt "08"); (txt "sep", txt "09");
   (txt "oct", txt "10"); (txt "nov", txt "11"); (txt "dec", txt "12")].

(** [table.get(key, default)] *)
Fixpoint dict_get (table : list (str * str)) (key default : str) : str :=
  match table with
  | [] => default
  | (k, v) :: table' => if str_eqb k key then v else dict_get table' key default
  end.

(** The local [clean_title] of [rename_file]. *)
Definition clean_title (title : str) : str :=
  str_replace_char " " "-"
    (str_lower (re_sub re_not_word_hyphen (repl_const []) title)).

(** The local [date] of [rename_file] when [new_name] is built. *)
Definition normalized_date (date : str) : option str :=
  match re_match re_iso_date date with
  | Some _ => Some date
  | None =>
      match re_match re_month_date date with
      | Some date_parts =>
          g1 ← group 1 date_parts;
          g2 ← group 2 date_parts;
          g3 ← group 3 date_parts;
          let month := dict_get month_table (str_lower (firstn 3 g1)) (txt "01") in
          let day := str_zfill2 g2 in
          let year := g3 in
          Some (year ++ txt "-" ++ month ++ txt "-" ++ day)
      | None => Some date
      end
  end.

(** The local [new_name] of [rename_file]. *)
Definition new_name (date title : str) : option str :=
  date' ← normalized_date date;
  Some (date' ++ txt "-" ++ clean_title title ++ txt ".pdf").

(** [rename_file]: the file system after the call and the path returned;
    [None] when the call raises. *)
Definition rename_file (fs : filesystem) (file_path date title : str)
  : option (filesystem * str) :=
  if negb (is_empty date) && negb (is_empty title) then
    let base_dir := os_path_dirname file_path in
    new_name ← new_name date title;
    let new_path := os_path_join base_dir new_name in
    if negb (str_eqb file_path new_path) && negb (os_path_exists fs new_path)
    then fs' ← os_rename fs file_path new_path; Some (fs', new_path)
    else Some (fs, new_path)
  else Some (fs, file_path).

(** ** The record builder *)

Definition any_plus_lazy : regex := Plus false (Chr Char.any).   (* .+? with DOTALL *)
Definition dot_plus_lazy : regex := Plus false (Chr Char.dot).   (* .+? *)
Definition digit : regex := Chr Char.is_digit.
Definition spaces : regex := Plus true (Chr Char.is_space).      (* \s+ *)
Definition nl : regex := Chr (Char.is_c Char.newline).

(** [[A-Z0-9]], [[a-f0-9]], [[AP]], [[A-Z]], [[a-zA-Z\s]] *)
Definition upper_or_digit (c : ascii) : bool := Char.is_upper_az c || Char.is_digit c.
Definition hex_lower (c : ascii) : bool := Char.between 97 102 c || Char.is_digit c.
Definition a_or_p (c : ascii) : bool := Char.is_c "A" c || Char.is_c "P" c.
Definition alpha_or_space (c : ascii) : bool := Char.is_alpha_az c || Char.is_space c.

(** udemy *)
Definition re_udemy_title : regex :=    (* completed the (.+?)(?:online course)? on *)
  seqs [liti "completed the "; Group 1 any_plus_lazy;
        Opt (liti "online course"); liti " on"].
Definition re_udemy_date : regex :=     (* on (.+?)(?:Instructor|Certificate|UC-) *)
  seqs [liti "on "; Group 1 any_plus_lazy;
        alts [liti "Instructor"; liti "Certificate"; liti "UC-"]].
Definition re_udemy_cert_no : regex :=  (* Certificate no\. (UC-[A-Z0-9]+) *)
  seqs [lit "Certificate no. ";
        Group 1 (Seq (lit "UC-") (Plus true (Chr upper_or_digit)))].
Definition re_udemy_cert_url : regex := (* Certificate url ude\.my/(UC-[A-Z0-9]+) *)
  seqs [lit "Certificate url ude.my/";
        Group 1 (Seq (lit "UC-") (Plus true (Chr upper_or_digit)))].
Definition re_udemy_instructor : regex := (* Instructor: (.+?)(?:\n|$) *)
  seqs [liti "Instructor: "; Group 1 dot_plus_lazy; Alt nl Eol].

(** cybrary *)
Definition re_cybrary_title : regex :=  (* provided by Cybrary in\s+(.+?)(?:\n|Date) *)
  seqs [liti "provided by Cybrary in"; spaces; Group 1 any_plus_lazy;
        Alt nl (liti "Date")].
Definition re_cybrary_date : regex :=
  (* (May \d{1,2}, \d{4} \d{1,2}:\d{2}[AP]M UTC|\d{2}/\d{2}/\d{4}) *)
  Group 1
    (Alt (seqs [lit "May "; Rep12 digit; lit ", "; Rep 4 digit; lit " ";
                Rep12 digit; lit ":"; Rep 2 digit; Chr a_or_p; lit "M UTC"])
         (seqs [Rep 2 digit; lit "/"; Rep 2 digit; lit "/"; Rep 4 digit])).
Definition re_cybrary_cert : regex :=   (* C-([a-f0-9]{8}-[a-f0-9]{6}) *)
  seqs [lit "C-";
        Group 1 (seqs [Rep 8 (Chr hex_lower); lit "-"; Rep 6 (Chr hex_lower)])].

(** deeplearningai *)
Definition re_dl_title : regex :=  (* congratulations on completing (.+?)(?=\.|!|\n) *)
  seqs [liti "congratulations on completing "; Group 1 dot_plus_lazy;
        Ahead (alts [lit "."; lit "!"; nl])].
Definition re_dl_filename_date : regex :=  (* (\d{4}-\d{2}-\d{2}) *)
  Group 1 (seqs [Rep 4 digit; lit "-"; Rep 2 digit; lit "-"; Rep 2 digit]).
Definition re_dl_skills : regex :=  (* ^([A-Z][a-zA-Z\s]+)$ with MULTILINE *)
  seqs [BolM;
        Group 1 (Seq (Chr Char.is_upper_az) (Plus true (Chr alpha_or_space)));
        EolM].

(** linkedinlearning *)
Definition re_li_title : regex :=  (* CertificateOfCompletion_(.*?)(?:_|\.pdf) *)
  seqs [liti "CertificateOfCompletion_"; Group 1 (Star false (Chr Char.dot));
        Alt (lit "_") (liti ".pdf")].
Definition re_li_date : regex :=   (* completed by (\w+\s+\d{1,2},\s+\d{4}) *)
  seqs [lit "completed by ";
        Group 1 (seqs [Plus true (Chr Char.is_word); spaces; Rep12 digit;
                       lit ","; spaces; Rep 4 digit])].
Definition re_li_skills : regex :=
  (* Top skills covered\s+(.+?)(?:Certificate ID|\n|$) with DOTALL *)
  seqs [lit "Top skills covered"; spaces; Group 1 any_plus_lazy;
        alts [lit "Certificate ID"; nl; Eol]].
Definition re_li_cert : regex :=   (* Certificate ID:\s*(\w+) *)
  seqs [lit "Certificate ID:"; Star true (Chr Char.is_space);
        Group 1 (Plus true (Chr Char.is_word))].

(** [(\d{4})] *)
Definition re_year : regex := Group 1 (Rep 4 digit).

(** [urllib.parse.quote]: unreserved characters and [/] are kept, any other
    one becomes the [%XX] of its UTF-8 bytes. *)
Definition hex_digit (n : N) : ascii :=
  if (n <? 10)%N then ascii_of_N (48 + n) else ascii_of_N (55 + n).

Definition percent (byte : N) : str :=
  ["%"%char; hex_digit (byte / 16); hex_digit (byte mod 16)].

Definition quote_char (c : ascii) : str :=
  if Char.is_digit c || Char.is_alpha_az c
     || existsb (fun a => Char.is_c a c) (txt "_.-~/")
  then [c]
  else if (Char.code c <? 128)%N then percent (Char.code c)
  else percent (192 + Char.code c / 64) ++ percent (128 + Char.code c mod 64).

Definition quote (s : str) : str := flat_map quote_char s.

(** One entry of the output: the dictionary built at the end of
    [extract_metadata]. *)
Record metadata : Type := Metadata {
  title : str;
  completion : str;
  skills : str;
  year : option str;
  cert_id : str;
  instructors : list str;
  cert_url : str;
  course_url : str;
  pdf_url : str;
  provider : str
}.

(** What a provider's branch binds before the filters run. *)
Record extracted : Type := Extracted {
  x_title : str;
  x_completion : str;
  x_instructors : list str;
  x_cert_id : str;
  x_skills : str;
  x_year : option str;
  x_pdf_path : str
}.

(** The outcome of a provider's branch. *)
Inductive branch : Type :=
| Bound (fs : filesystem) (x : extracted)
| ReturnNone                       (* the branch returns None *)
| Raised.                          (* an exception, caught at the end *)

Definition is_some {A : Type} (o : option A) : bool :=
  match o with Some _ => true | None => false end.

Section RecordBuilder.

(** [pdfplumber]: the text of all pages of the document at a path, joined;
    [None] when the document cannot be read. *)
Variable pdf_text : str -> option str.

(** [hashlib.sha256(content).hexdigest()] *)
Variable sha256_hexdigest : str -> str.

(** The global [repo], bound only when the configuration file exists. *)
Variable repo : option str.

Definition generate_cert_id (fs : filesystem) (pdf_path : str) : option str :=
  content ← files fs !! pdf_path;
  Some (sha256_hexdigest content).

(** [re.search(r'(\d{4})', completion).group(1) if ... else None] *)
Definition year_of (completion : str) : option (option str) :=
  match re_search re_year completion with
  | Some m => y ← group 1 m; Some (Some y)
  | None => Some None
  end.

Definition branch_of (o : option (filesystem * extracted)) : branch :=
  match o with
  | Some (fs, x) => Bound fs x
  | None => Raised
  end.

Definition extract_udemy (fs : filesystem) (pdf_path text : str) : branch :=
  let title_match := re_search re_udemy_title text in
  let date_match := re_search re_udemy_date text in
  let cert_id_match :=
    match re_search re_udemy_cert_no text with
    | Some m => Some m
    | None => re_search re_udemy_cert_url text
    end in
  let instructor_match := re_search re_udemy_instructor text in
  match title_match, date_match with
  | Some tm, Some dm =>
      branch_of (
        title ← str_strip <$> group 1 tm;
        completion ← str_strip <$> group 1 dm;
        instructors ←
          match instructor_match with
          | Some im => i ← group 1 im; Some [str_strip i]
          | None => Some []
          end;
        cert_id ←
          match cert_id_match with
          | Some cm => group 1 cm
          | None => firstn 8 <$> generate_cert_id fs pdf_path
          end;
        year ← year_of completion;
        '(fs', pdf_path') ← rename_file fs pdf_path completion title;
        Some (fs', Extracted title completion instructors cert_id [] year pdf_path'))
  | _, _ => ReturnNone
  end.

Definition extract_cybrary (fs : filesystem) (pdf_path text : str) : branch :=
  let title_match := re_search re_cybrary_title text in
  let date_match := re_search re_cybrary_date text in
  let cert_id_match := re_search re_cybrary_cert text in
  match title_match, date_match, cert_id_match with
  | Some tm, Some dm, Some cm =>
      branch_of (
        title ← str_strip <$> group 1 tm;
        completion ← str_strip <$> group 1 dm;
        cert_id ← group 1 cm;
        year ← year_of completion;
        Some (fs, Extracted title completion [] cert_id [] year pdf_path))
  | _, _, _ => ReturnNone
  end.

Definition extract_deeplearningai (fs : filesystem) (pdf_path text : str) : branch :=
  let title_match := re_search re_dl_title text in
  let filename_date_match :=
    re_search re_dl_filename_date (os_path_basename pdf_path) in
  let skills_match := re_findall re_dl_skills text in
  match title_match, filename_date_match with
  | Some tm, Some fm =>
      branch_of (
        title ← str_strip <$> group 1 tm;
        completion ← group 1 fm;
        cert_id ← firstn 8 <$> generate_cert_id fs pdf_path;
        let skills :=
          str_join (txt ", ")
            (map str_strip
               (List.filter (fun s => negb (is_empty (str_strip s))
                                 && (2 <? length (str_strip s)))
                       skills_match)) in
        Some (fs, Extracted title completion [txt "DeepLearning.AI"] cert_id
                            skills (Some (firstn 4 completion)) pdf_path))
  | _, _ => ReturnNone
  end.

Definition extract_linkedinlearning (fs : filesystem) (pdf_path text : str) : branch :=
  let title_match := re_search re_li_title (os_path_basename pdf_path) in
  let date_match := re_search re_li_date text in
  let skills_match := re_search re_li_skills text in
  match title_match, date_match with
  | Some tm, Some dm =>
      branch_of (
        title ← (fun t => str_replace_char "_" " " (str_strip t)) <$> group 1 tm;
        completion ← str_strip <$> group 1 dm;
        cert_id ←
          match re_search re_li_cert text with
          | Some cm => group 1 cm
          | None => firstn 8 <$> generate_cert_id fs pdf_path
          end;
        let skills :=
          match skills_match with
          | Some sm =>
              match group 1 sm with
              | Some g => if is_empty g then [] else str_strip g
              | None => []
              end
          | None => []
          end in
        year ← year_of completion;
        Some (fs, Extracted title completion [] cert_id skills year pdf_path))
  | _, _ => ReturnNone
  end.

(** A filter that is absent or empty is [None]; a pattern filter is given
    as its pattern under [re.IGNORECASE]. *)
Record filters : Type := Filters {
  filter_skill : option regex;
  filter_year : option str;
  filter_title : option regex
}.

Definition filtered_out (f : filters) (x : extracted) : bool :=
  match filter_skill f with
  | Some r => negb (is_some (re_search r (x_skills x)))
  | None => false
  end
  || match filter_year f with
     | Some y => negb (bool_decide (x_year x = Some y))
     | None => false
     end
  || match filter_title f with
     | Some r => negb (is_some (re_search r (x_title x)))
     | None => false
     end.

(** [extract_metadata]: the file system after the call and the entry
    returned, [None] for Python's [None].  The dump of the text under
    [debug_dir] and the log lines are left out. *)
Definition extract_metadata (fs : filesystem) (pdf_path release_tag : str)
           (test_mode : bool) (github_page_url : str) (f : filters)
           (fetch_urls : bool) (provider_id : str)
  : filesystem * option metadata :=
  match pdf_text pdf_path with
  | None => (fs, None)
  | Some raw =>
      let text := clean_text raw in
      let b :=
        if str_eqb provider_id (txt "udemy") then extract_udemy fs pdf_path text
        else if str_eqb provider_id (txt "cybrary") then extract_cybrary fs pdf_path text
        else if str_eqb provider_id (txt "deeplearningai")
        then extract_deeplearningai fs pdf_path text
        else if str_eqb provider_id (txt "linkedinlearning")
        then extract_linkedinlearning fs pdf_path text
        else ReturnNone in
      match b with
      | ReturnNone | Raised => (fs, None)
      | Bound fs' x =>
          if filtered_out f x then (fs', None)
          else
            let course_url :=
              if fetch_urls then generate_course_url (x_title x) provider_id
              else [] in
            let pdf_filename := quote (os_path_basename (x_pdf_path x)) in
            let pdf_url :=
              if test_mode
              then Some (github_page_url ++ txt "/assets/pdfs/" ++ pdf_filename)
              else r ← repo;
                   Some (txt "https://github.com/" ++ r ++ txt "/releases/download/"
                         ++ release_tag ++ txt "/" ++ pdf_filename) in
            match pdf_url with
            | Some url =>
                (fs', Some (Metadata (x_title x) (x_completion x) (x_skills x)
                                     (x_year x) (x_cert_id x) (x_instructors x)
                                     [] course_url url provider_id))
            | None => (fs', None)
            end
      end
  end.

End RecordBuilder.

(** ** The aggregator *)

Section Counter.

Context {K : Type} `{EqDecision K}.

(** [c[k] += 1] on a dictionary that keeps its keys in insertion order. *)
Fixpoint counter_add (k : K) (c : list (K * nat)) : list (K * nat) :=
  match c with
  | [] => [(k, 1)]
  | (k', n) :: c' =>
      if bool_decide (k' = k) then (k', S n) :: c'
      else (k', n) :: counter_add k c'
  end.

(** [Counter(iterable)] *)
Definition Counter (items : list K) : list (K * nat) :=
  fold_left (fun c k => counter_add k c) items [].

(** [d[k] = v] *)
Fixpoint dict_set (k : K) (v : nat) (d : list (K * nat)) : list (K * nat) :=
  match d with
  | [] => [(k, v)]
  | (k', n) :: d' =>
      if bool_decide (k' = k) then (k', v) :: d'
      else (k', n) :: dict_set k v d'
  end.

(** [max(entries, key=itemgetter(1))]: the first entry of greatest count. *)
Fixpoint max_by_count (best : K * nat) (entries : list (K * nat)) : K * nat :=
  match entries with
  | [] => best
  | e :: entries' =>
      if snd best <? snd e then max_by_count e entries'
      else max_by_count best entries'
  end.

(** [c.most_common(1)] *)
Definition most_common_1 (c : list (K * nat)) : list (K * nat) :=
  match c with
  | [] => []
  | e :: c' => [max_by_count e c']
  end.

End Counter.

Inductive stat_value : Type :=
| VInt (n : nat)
| VRatio (num den : nat)                     (* the float num / den *)
| VStr (s : str)
| VByYear (d : list (option str * nat))
| VByProvider (d : list (str * nat)).

(** The skills of all entries, in order:
    [skill for m in metadata_list for skill in m['skills'].split(', ') if m['skills']] *)
Definition all_skills (metadata_list : list metadata) : list str :=
  flat_map (fun m => if is_empty (skills m) then []
                     else str_split_comma_space (skills m))
           metadata_list.

Definition has_skills (m : metadata) : bool := negb (is_empty (skills m)).

(** [generate_statistics]: the dictionary returned, its keys in insertion
    order; [None] when the call raises. *)
Definition generate_statistics (metadata_list : list metadata)
  : option (list (string * stat_value)) :=
  match metadata_list with
  | [] => Some []
  | _ =>
      let by_provider := Counter (map provider metadata_list) in
      let with_skills := length (List.filter has_skills metadata_list) in
      let unique_skills := length (Counter (all_skills metadata_list)) in
      most_common_skill ←
        (if existsb has_skills metadata_list
         then fst <$> head (most_common_1 (Counter (all_skills metadata_list)))
         else Some (txt "N/A"));
      let completion_trend :=
        fold_left
          (fun d m =>
             dict_set (year m)
                      (length (List.filter (fun x => bool_decide (year x = year m))
                                      metadata_list)) d)
          metadata_list [] in
      let by_year :=
        fold_left (fun d m => counter_add (year m) d) metadata_list [] in
      Some [("total_courses", VInt (length metadata_list));
            ("by_year", VByYear by_year);
            ("by_provider", VByProvider by_provider);
            ("avg_skills_per_course", VRatio with_skills (length metadata_list));
            ("unique_skills", VInt unique_skills);
            ("most_common_skill", VStr most_common_skill);
            ("completion_trend", VByYear completion_trend)]%string
  end.

(** [stats[key]] *)
Fixpoint stat_get (key : string) (stats : list (string * stat_value))
  : option stat_value :=
  match stats with
  | [] => None
  | (k, v) :: stats' => if String.eqb k key then Some v else stat_get key stats'
  end.

(** * Definitions for the statements

    Sample file systems and documents, the wording of the specification
    where it is compared with the code, and the direct forms of the
    scans that the proofs relate to the pattern matcher. *)

Definition sample_fs : filesystem :=
  FS {[ txt "certs/a.pdf" := txt "pdf-a" ]} {[ txt "certs" ]}.

Definition conflict_fs : filesystem :=
  FS {[ txt "certs/a.pdf" := txt "pdf-a";
        txt "certs/2024-03-05-t.pdf" := txt "pdf-b" ]} {[ txt "certs" ]}.

Definition two_files_fs : filesystem :=
  FS {[ txt "certs/a.pdf" := txt "pdf-a"; txt "certs/b.pdf" := txt "pdf-b" ]}
     {[ txt "certs" ]}.

Definition dl_fs : filesystem :=
  FS {[ txt "certs/2024-01-02-nets.pdf" := txt "pdf-nets" ]} {[ txt "certs" ]}.

Definition cybrary_january : str :=
  txt "provided by Cybrary in Intro Date January 3, 2024 10:05AM UTC C-abcdef01-abcdef".

Definition cybrary_may : str :=
  txt "provided by Cybrary in Intro Date May 3, 2024 10:05AM UTC C-abcdef01-abcdef".

Definition cybrary_may_entry : metadata :=
  Metadata (txt "Intro") (txt "May 3, 2024 10:05AM UTC") [] (Some (txt "2024"))
           (txt "abcdef01-abcdef") [] [] []
           (txt "https://lspironello.github.io/assets/pdfs/a.pdf") (txt "cybrary").

Definition dl_text : str :=
  txt "Congratulations on completing Neural Nets! Machine Learning".

Definition dl_entry : metadata :=
  Metadata (txt "Neural Nets") (txt "2024-01-02") [] (Some (txt "2024"))
           (txt "01234567") [txt "DeepLearning.AI"] [] []
           (txt "https://lspironello.github.io/assets/pdfs/2024-01-02-nets.pdf")
           (txt "deeplearningai").

Definition entry_with_skills (s : string) : metadata :=
  Metadata (txt "Course") (txt "2024-03-05") (txt s) (Some (txt "2024"))
           (txt "0a1b2c3d") [] [] [] [] (txt "deeplearningai").

(** [field] is group 1 of the first match of [r] in [source], after [post]. *)
Definition extracted_by (r : regex) (source : str) (post : str -> str)
           (field : str) : Prop :=
  exists m g, re_search r source = Some m /\ group 1 m = Some g /\ field = post g.

(** The required fields of a provider, as found in the normalised text and
    the file name. *)
Definition required_fields_extracted (provider_id text name : str)
           (r : metadata) : Prop :=
  (provider_id = txt "udemy"
   /\ extracted_by re_udemy_title text str_strip (title r)
   /\ extracted_by re_udemy_date text str_strip (completion r))
  \/ (provider_id = txt "cybrary"
      /\ extracted_by re_cybrary_title text str_strip (title r)
      /\ extracted_by re_cybrary_date text str_strip (completion r)
      /\ extracted_by re_cybrary_cert text (fun g => g) (cert_id r))
  \/ (provider_id = txt "deeplearningai"
      /\ extracted_by re_dl_title text str_strip (title r)
      /\ extracted_by re_dl_filename_date name (fun g => g) (completion r))
  \/ (provider_id = txt "linkedinlearning"
      /\ extracted_by re_li_title name
                      (fun g => str_replace_char "_" " " (str_strip g)) (title r)
      /\ extracted_by re_li_date text str_strip (completion r)).

(** The slug as the specification words it: lowercase; alphanumerics,
    hyphens and spaces only; spaces to hyphens; hyphens trimmed. *)
Definition spec_slug (title : str) : str :=
  str_strip_char "-"
    (str_replace_char " " "-"
       (List.filter (fun c => Char.is_alnum c || Char.is_c "-" c || Char.is_c " " c)
                    (str_lower title))).

(** Group [i] has a value in [st]. *)
Definition bound (i : nat) (st : mstate) : Prop :=
  exists w, cap_lookup i (caps st) = Some w.

Section Frequencies.

Context {K : Type} `{EqDecision K}.

(** How often [k] occurs in [items]. *)
Definition freq (k : K) (items : list K) : nat :=
  length (List.filter (fun t => bool_decide (t = k)) items).

Definition others (x : K) (items : list K) : list K :=
  List.filter (fun t => negb (bool_decide (t = x))) items.

End Frequencies.

(** The states a greedy star over the class [p] offers, longest run first. *)
Fixpoint greedy_states (p : ascii -> bool) (s : str) (prv : option ascii)
         (cs : list (nat * str)) : list mstate :=
  match s with
  | c :: t =>
      if p c then greedy_states p t (Some c) cs ++ [MState s prv cs]
      else [MState s prv cs]
  | [] => [MState [] prv cs]
  end.

(** [re.sub(r'(.)\1+', r'\1', s)]: a character other than the newline
    swallows its repetitions; [last] is the character being repeated. *)
Fixpoint squeeze_aux (last : option ascii) (s : str) : str :=
  match s with
  | [] => []
  | c :: t =>
      if match last with Some r => Ascii.eqb r c | None => false end
      then squeeze_aux last t
      else c :: squeeze_aux (if Char.dot c then Some c else None) t
  end.

(** [re.sub(r'\s+', ' ', s)]: a run of whitespace becomes one space;
    [in_ws] says that the run has already begun. *)
Fixpoint wsnorm_aux (in_ws : bool) (s : str) : str :=
  match s with
  | [] => []
  | c :: t =>
      if Char.is_space c
      then if in_ws then wsnorm_aux true t else " "%char :: wsnorm_aux true t
      else c :: wsnorm_aux false t
  end.

(** Every two neighbours of [s] are related by [R]. *)
Fixpoint adj (R : ascii -> ascii -> Prop) (s : str) : Prop :=
  match s with
  | c :: t => match t with d :: _ => R c d | [] => True end /\ adj R t
  | [] => True
  end.

Definition head_not (p : ascii -> bool) (s : str) : Prop :=
  match s with c :: _ => p c = false | [] => True end.

(** Equal neighbours can only be newlines. *)
Definition rep_free (c d : ascii) : Prop := c = d -> Char.dot c = false.

Definition only_space (c : ascii) : Prop := Char.is_space c = true -> c = " "%char.

(** A text as the normaliser leaves it, up to the final strip. *)
Definition tidy (s : str) : Prop :=
  adj (fun c d => c <> d) s /\ Forall only_space s.

(** The lines of a text: [text.split('\n')]. *)
Fixpoint lines_aux (acc : str) (s : str) : list str :=
  match s with
  | [] => [rev acc]
  | c :: t =>
      if Char.is_c Char.newline c then rev acc :: lines_aux [] t
      else lines_aux (c :: acc) t
  end.

Definition spec_lines (text : str) : list str := lines_aux [] text.

(** A line of capitalised words: letters and white space only, with an
    upper-case letter at the start of every word. *)
Fixpoint capitalized_words (at_start : bool) (s : str) : bool :=
  match s with
  | [] => true
  | c :: t =>
      if Char.is_space c then capitalized_words true t
      else if at_start then Char.is_upper_az c && capitalized_words false t
      else Char.is_alpha_az c && capitalized_words false t
  end.

(** The skills as the specification words them: the lines made only of
    capitalised words that are longer than 2 once trimmed, joined. *)
Definition spec_skill_line (line : str) : bool :=
  capitalized_words true line && (2 <? length (str_strip line)).

Definition spec_skills (text : str) : str :=
  str_join (txt ", ") (map str_strip (List.filter spec_skill_line (spec_lines text))).

Definition is_stop (c : ascii) : Prop :=
  c = "."%char \/ c = "!"%char \/ c = Char.newline.

(** A pattern without groups and look-aheads. *)
Fixpoint plain (r : regex) : bool :=
  match r with
  | Seq r1 r2 | Alt r1 r2 => plain r1 && plain r2
  | Star _ r1 => plain r1
  | Group _ _ | Ahead _ => false
  | _ => true
  end.

(** [st'] is [st] after reading [pre], which is all in the class [p]. *)
Definition reads (p : ascii -> bool) (st st' : mstate) (pre : str) : Prop :=
  rest st = pre ++ rest st' /\ Forall (fun c => p c = true) pre
  /\ caps st' = caps st.
(** A date of the form dddd-dd-dd. *)
Definition iso_shaped (d : str) : Prop :=
  exists y mo dd,
    d = y ++ txt "-" ++ mo ++ txt "-" ++ dd
    /\ Forall (fun c => Char.is_digit c = true) y /\ length y = 4
    /\ Forall (fun c => Char.is_digit c = true) mo /\ length mo = 2
    /\ Forall (fun c => Char.is_digit c = true) dd /\ length dd = 2.

(** A directory part as [os.path.dirname] returns it: all slashes (the
    empty one included), or without a slash at its end. *)
Definition dir_like (d : str) : Prop :=
  forallb (Char.is_c slash) d = true \/ ends_with_slash d = false.

(** The branch of [extract_metadata] that a provider selects. *)
Definition provider_branch (sha256_hexdigest : str -> str) (fs : filesystem)
           (pdf_path text provider_id : str) : branch :=
  if str_eqb provider_id (txt "udemy")
  then extract_udemy sha256_hexdigest fs pdf_path text
  else if str_eqb provider_id (txt "cybrary")
  then extract_cybrary fs pdf_path text
  else if str_eqb provider_id (txt "deeplearningai")
  then extract_deeplearningai sha256_hexdigest fs pdf_path text
  else if str_eqb provider_id (txt "linkedinlearning")
  then extract_linkedinlearning sha256_hexdigest fs pdf_path text
  else ReturnNone.

(** [d] counts [items]: one entry for every item that occurs, in it the
    number of its occurrences. *)
Definition counts_of {K : Type} `{EqDecision K} (d : list (K * nat))
           (items : list K) : Prop :=
  NoDup (map fst d)
  /\ (forall k n, In (k, n) d <-> In k items /\ n = freq k items)
  /\ list_sum (map snd d) = length items.

(** ** Renaming udemy files before processing ([rename_udemy_file]) *)

(** [completed the (.*?)(?: online course)? on] under [re.IGNORECASE] *)
Definition re_rename_udemy_title : regex :=
  seqs [liti "completed the "; Group 1 (Star false (Chr Char.dot));
        Opt (liti " online course"); liti " on"].

(** [on (\w+\s+\d{1,2},\s+\d{4})] *)
Definition re_rename_udemy_date : regex :=
  seqs [lit "on ";
        Group 1 (seqs [Plus true (Chr Char.is_word); spaces; Rep12 digit;
                       lit ","; spaces; Rep 4 digit])].

(** [s.replace(ch, '')] for a one-character [ch]. *)
Definition str_remove_char (a : ascii) (s : str) : str :=
  List.filter (fun c => negb (Char.is_c a c)) s.

(** [os.path.isfile(p)] *)
Definition os_path_isfile (fs : filesystem) (p : str) : bool :=
  bool_decide (is_Some (files fs !! p)).

(** The local [new_name] of [rename_udemy_file], from the two groups. *)
Definition udemy_new_name (title_group date_group : str) : str :=
  let title := str_lower (str_replace_char " " "-" (str_strip title_group)) in
  let date := str_replace_char " " "-" (str_remove_char "," date_group) in
  date ++ txt "-" ++ title ++ txt ".pdf".

(** [rename_udemy_file]: the file system after the call and the boolean
    returned.  [first_page_text] is the text of the first page of the
    document at a path ([None] when it cannot be read); the log lines are
    left out. *)
Definition rename_udemy_file (first_page_text : str -> option str)
           (fs : filesystem) (pdf_path : str) (test_mode : bool)
  : filesystem * bool :=
  match first_page_text pdf_path with
  | None => (fs, false)
  | Some text =>
      match re_search re_rename_udemy_title text,
            re_search re_rename_udemy_date text with
      | Some title_match, Some date_match =>
          match group 1 title_match, group 1 date_match with
          | Some t, Some d =>
              let new_name := udemy_new_name t d in
              let new_path := os_path_join (os_path_dirname pdf_path) new_name in
              if test_mode then (fs, true)
              else if negb (os_path_isfile fs new_path)
              then match os_rename fs pdf_path new_path with
                   | Some fs' => (fs', true)
                   | None => (fs, false)
                   end
              else (fs, true)
          | _, _ => (fs, false)
          end
      | _, _ => (fs, false)
      end
  end.

Definition udemy_page : str :=
  txt "This is to certify that Ada completed the Python Basics online course on March 5, 2024".

(** The states a lazy star over the class [p] offers, shortest run first. *)
Fixpoint lazy_states (p : ascii -> bool) (s : str) (prv : option ascii)
         (cs : list (nat * str)) : list mstate :=
  MState s prv cs ::
  match s with
  | c :: t => if p c then lazy_states p t (Some c) cs else []
  | [] => []
  end.

Definition li_fs : filesystem :=
  FS {[ txt "certs/CertificateOfCompletion_Learning_Python.pdf" := txt "pdf" ]}
     {[ txt "certs" ]}.

Definition li_entry : metadata :=
  Metadata (txt "Learning") (txt "Jan 05, 2024") [] (Some (txt "2024"))
           (txt "01234567") [] [] []
           (txt "https://lspironello.github.io/assets/pdfs/CertificateOfCompletion_Learning_Python.pdf")
           (txt "linkedinlearning").

(** * Properties *)

(** ** Sample evaluations of the library models *)

Example dirname_nested : os_path_dirname (txt "/a/b/c.pdf") = txt "/a/b".
Proof. reflexivity. Qed.

Example dirname_bare : os_path_dirname (txt "c.pdf") = txt "".
Proof. reflexivity. Qed.

Example dirname_root : os_path_dirname (txt "/c.pdf") = txt "/".
Proof. reflexivity. Qed.

Example basename_nested : os_path_basename (txt "a//c.pdf") = txt "c.pdf".
Proof. reflexivity. Qed.

Example join_plain : os_path_join (txt "a") (txt "c.pdf") = txt "a/c.pdf".
Proof. reflexivity. Qed.

Example split_sample :
  str_split_comma_space (txt "A, B, , C,D") = [txt "A"; txt "B"; txt ""; txt "C,D"].
Proof. reflexivity. Qed.

Example sub_empty_matches :
  re_sub (Star true (Chr (Char.is_c "x"))) (repl_const (txt "-")) (txt "abxd")
  = txt "-a-b--d-".
Proof. vm_compute. reflexivity. Qed.

Example clean_text_sample :
  clean_text (txt "aaabbb   c  d  ee ") = txt "ab c d e".
Proof. vm_compute. reflexivity. Qed.

(** ** Lists *)

Lemma length_cons_sub {A : Type} (c : A) (t : list A) :
  length (c :: t) - length t = 1.
Proof. simpl. lia. Qed.

(** ** Matching runs of one character class *)

Lemma star_loop_chars step p cs :
  (forall s prv, step (MState s prv cs) = matches (Chr p) (MState s prv cs)) ->
  forall n s prv,
    length s <= n ->
    star_loop step true n (MState s prv cs) = greedy_states p s prv cs.
Proof.
  intros Hstep. induction n as [|n IH]; intros s prv Hlen.
  - destruct s; [reflexivity | simpl in Hlen; lia].
  - cbn [star_loop]. rewrite Hstep. cbn [matches rest caps].
    destruct s as [|c t]; [reflexivity|]. cbn [greedy_states].
    destruct (p c); [|reflexivity].
    cbn [flat_map rest]. rewrite app_nil_r.
    replace (length t <? length (c :: t)) with true
      by (symmetry; apply Nat.ltb_lt; simpl; lia).
    rewrite IH by (simpl in Hlen; lia). reflexivity.
Qed.

Lemma head_greedy_states p cs : forall s prv,
  exists prv', head (greedy_states p s prv cs)
               = Some (MState (lstrip_by p s) prv' cs).
Proof.
  induction s as [|c t IH]; intros prv; [eexists; reflexivity|].
  cbn [greedy_states lstrip_by]. destruct (p c); [|eexists; reflexivity].
  destruct (IH (Some c)) as [prv' H]. exists prv'.
  destruct (greedy_states p t (Some c) cs); [discriminate|exact H].
Qed.

Lemma backref_one_char c cs :
  cap_lookup 1 cs = Some [c] ->
  forall s prv,
    matches (Backref 1) (MState s prv cs)
    = matches (Chr (Ascii.eqb c)) (MState s prv cs).
Proof.
  intros Hc s prv. cbn [matches caps rest prev]. rewrite Hc.
  destruct s as [|d t]; [reflexivity|]. cbn [strip_prefix].
  destruct (Ascii.eqb c d) eqn:E; [|reflexivity].
  apply Ascii.eqb_eq in E. subst d. reflexivity.
Qed.

(** The first match of [p+] at a text that starts in [p]. *)
Lemma match_here_plus_class p prv c t :
  p c = true ->
  exists prv', match_here (Plus true (Chr p)) prv (c :: t)
               = Some (MState (lstrip_by p t) prv' []).
Proof.
  intros Hp. unfold match_here, Plus. cbn [matches rest caps]. rewrite Hp.
  cbn [flat_map]. rewrite app_nil_r. cbn [rest].
  rewrite (star_loop_chars _ p []) by (intros; reflexivity || lia).
  apply head_greedy_states.
Qed.

Lemma match_here_plus_class_none p prv s :
  match s with c :: _ => p c = false | [] => True end ->
  match_here (Plus true (Chr p)) prv s = None.
Proof.
  intros H. unfold match_here, Plus. cbn [matches rest caps].
  destruct s as [|c t]; [reflexivity|]. rewrite H. reflexivity.
Qed.

(** The equations of [matches]. *)

Lemma matches_chr p st :
  matches (Chr p) st
  = match rest st with
    | c :: t => if p c then [MState t (Some c) (caps st)] else []
    | [] => []
    end.
Proof. reflexivity. Qed.

Lemma matches_seq r1 r2 st :
  matches (Seq r1 r2) st = flat_map (matches r2) (matches r1 st).
Proof. reflexivity. Qed.

Lemma matches_alt r1 r2 st :
  matches (Alt r1 r2) st = matches r1 st ++ matches r2 st.
Proof. reflexivity. Qed.

Lemma matches_star g r st :
  matches (Star g r) st = star_loop (matches r) g (length (rest st)) st.
Proof. reflexivity. Qed.

Lemma matches_group i r st :
  matches (Group i r) st
  = map (fun st' => MState (rest st') (prev st') ((i, consumed st st') :: caps st'))
        (matches r st).
Proof. reflexivity. Qed.

Lemma flat_map_one {A B : Type} (f : A -> list B) (x : A) :
  flat_map f [x] = f x.
Proof. simpl. apply app_nil_r. Qed.

(** The first match of [(.)\1+]. *)
Lemma match_here_repeated prv c t :
  Char.dot c = true ->
  exists prv', match_here re_repeated prv (c :: c :: t)
               = Some (MState (lstrip_by (Ascii.eqb c) t) prv' [(1, [c])]).
Proof.
  intros Hdot. unfold match_here, re_repeated, Plus.
  rewrite !matches_seq, matches_group, matches_chr. cbn [rest caps prev].
  rewrite Hdot. cbn [map]. unfold consumed. cbn [rest caps prev].
  rewrite length_cons_sub. cbn [firstn].
  rewrite flat_map_one, matches_seq.
  rewrite (backref_one_char c) by reflexivity.
  rewrite matches_chr. cbn [rest caps]. rewrite Ascii.eqb_refl.
  rewrite flat_map_one, matches_star. cbn [rest].
  rewrite (star_loop_chars _ (Ascii.eqb c) [(1, [c])]);
    [apply head_greedy_states | apply backref_one_char; reflexivity | lia].
Qed.

Lemma match_here_repeated_none prv s :
  match s with
  | c :: d :: _ => Char.dot c = false \/ c <> d
  | _ => True
  end ->
  match_here re_repeated prv s = None.
Proof.
  intros H. unfold match_here, re_repeated, Plus.
  rewrite !matches_seq, matches_group, matches_chr. cbn [rest caps prev].
  destruct s as [|c t]; [reflexivity|].
  destruct (Char.dot c) eqn:Hdot; [|reflexivity].
  cbn [map]. unfold consumed. cbn [rest caps prev].
  rewrite length_cons_sub. cbn [firstn].
  rewrite flat_map_one, matches_seq.
  rewrite (backref_one_char c) by reflexivity.
  rewrite matches_chr. cbn [rest caps]. destruct t as [|d t]; [reflexivity|].
  destruct H as [H|H]; [congruence|].
  apply Ascii.eqb_neq in H. rewrite H. reflexivity.
Qed.

(** ** What a match reads *)

Lemma strip_prefix_app w : forall s t, strip_prefix w s = Some t -> s = w ++ t.
Proof.
  induction w as [|a w IH]; intros s t H.
  - injection H as ->. reflexivity.
  - destruct s as [|c s]; [discriminate|]. cbn [strip_prefix] in H.
    destruct (Ascii.eqb a c) eqn:E; [|discriminate].
    apply Ascii.eqb_eq in E. subst c. simpl. f_equal. apply IH. exact H.
Qed.

Lemma star_loop_suffix step g :
  (forall st st', In st' (step st) -> exists pre, rest st = pre ++ rest st') ->
  forall n st st',
    In st' (star_loop step g n st) -> exists pre, rest st = pre ++ rest st'.
Proof.
  intros Hstep. induction n as [|n IH]; intros st st' Hin.
  - destruct Hin as [<-|[]]. exists []. reflexivity.
  - cbn [star_loop] in Hin.
    assert (Hmore : forall x,
               In x (flat_map (fun st1 => if length (rest st1) <? length (rest st)
                                          then star_loop step g n st1 else [])
                              (step st)) ->
               exists pre, rest st = pre ++ rest x).
    { intros x Hx. apply in_flat_map in Hx as (st1 & H1 & Hx).
      destruct (length (rest st1) <? length (rest st)); [|destruct Hx].
      apply Hstep in H1 as [pre1 H1]. apply IH in Hx as [pre2 Hx].
      exists (pre1 ++ pre2). rewrite H1, Hx, app_assoc. reflexivity. }
    destruct g.
    + apply in_app_iff in Hin as [Hin|[<-|[]]]; [auto | exists []; reflexivity].
    + destruct Hin as [<-|Hin]; [exists []; reflexivity | auto].
Qed.

(** A match ends at a suffix of the text it started at. *)
Lemma matches_suffix r : forall st st',
  In st' (matches r st) -> exists pre, rest st = pre ++ rest st'.
Proof.
  induction r as [|p|r1 IH1 r2 IH2|r1 IH1 r2 IH2|g r1 IH1|i r1 IH1|i|r1 IH1| | |];
    intros st st' Hin.
  - destruct Hin as [<-|[]]. exists []. reflexivity.
  - rewrite matches_chr in Hin. destruct (rest st) as [|c t] eqn:Hr; [destruct Hin|].
    destruct (p c); [|destruct Hin]. destruct Hin as [<-|[]].
    exists [c]. reflexivity.
  - rewrite matches_seq in Hin. apply in_flat_map in Hin as (st1 & H1 & H2).
    apply IH1 in H1 as [pre1 H1]. apply IH2 in H2 as [pre2 H2].
    exists (pre1 ++ pre2). rewrite H1, H2, app_assoc. reflexivity.
  - rewrite matches_alt in Hin. apply in_app_iff in Hin as [Hin|Hin]; auto.
  - rewrite matches_star in Hin. eapply star_loop_suffix; eauto.
  - rewrite matches_group in Hin. apply in_map_iff in Hin as (st1 & <- & H1).
    apply IH1 in H1. exact H1.
  - cbn [matches] in Hin. destruct (cap_lookup i (caps st)) as [w|]; [|destruct Hin].
    destruct (strip_prefix w (rest st)) as [t|] eqn:Hs; [|destruct Hin].
    destruct Hin as [<-|[]]. exists w. apply strip_prefix_app. exact Hs.
  - cbn [matches] in Hin. destruct (matches r1 st) as [|st1 l]; [destruct Hin|].
    destruct Hin as [<-|[]]. exists []. reflexivity.
  - cbn [matches] in Hin. destruct (prev st) as [c|].
    + destruct (Char.is_c Char.newline c); [|destruct Hin].
      destruct Hin as [<-|[]]. exists []. reflexivity.
    + destruct Hin as [<-|[]]. exists []. reflexivity.
  - cbn [matches] in Hin. destruct (rest st) as [|c t] eqn:Hr.
    + destruct Hin as [<-|[]]. exists []. rewrite Hr. reflexivity.
    + destruct (Char.is_c Char.newline c); [|destruct Hin].
      destruct Hin as [<-|[]]. exists []. rewrite Hr. reflexivity.
  - cbn [matches] in Hin. destruct (rest st) as [|c [|d t]] eqn:Hr.
    + destruct Hin as [<-|[]]. exists []. rewrite Hr. reflexivity.
    + destruct (Char.is_c Char.newline c); [|destruct Hin].
      destruct Hin as [<-|[]]. exists []. rewrite Hr. reflexivity.
    + destruct Hin.
Qed.

Lemma head_In {A : Type} (l : list A) (x : A) : head l = Some x -> In x l.
Proof. destruct l; [discriminate|]. intros H. injection H as ->. left. reflexivity. Qed.

(** A search finds its match at a suffix of the text. *)
Lemma search_from_suffix r : forall s before p m,
  search_from r before p s = Some m ->
  exists pre s' p', s = pre ++ s' /\ match_here r p' s' = Some (m_state m).
Proof.
  induction s as [|c t IH]; intros before p m H; cbn [search_from] in H.
  - destruct (match_here r p []) as [st|] eqn:Hm; [|discriminate].
    injection H as <-. exists [], [], p. split; [reflexivity | exact Hm].
  - destruct (match_here r p (c :: t)) as [st|] eqn:Hm.
    + injection H as <-. exists [], (c :: t), p. split; [reflexivity | exact Hm].
    + apply IH in H as (pre & s' & p' & -> & H).
      exists (c :: pre), s', p'. split; [reflexivity | exact H].
Qed.

(** ** Groups stay bound *)

Lemma star_loop_bound step g i :
  (forall st st', In st' (step st) -> bound i st -> bound i st') ->
  forall n st st', In st' (star_loop step g n st) -> bound i st -> bound i st'.
Proof.
  intros Hstep. induction n as [|n IH]; intros st st' Hin Hb.
  - destruct Hin as [<-|[]]. exact Hb.
  - cbn [star_loop] in Hin.
    assert (Hmore : forall x,
               In x (flat_map (fun st1 => if length (rest st1) <? length (rest st)
                                          then star_loop step g n st1 else [])
                              (step st)) ->
               bound i x).
    { intros x Hx. apply in_flat_map in Hx as (st1 & H1 & Hx).
      destruct (length (rest st1) <? length (rest st)); [|destruct Hx].
      eapply IH; eauto. }
    destruct g.
    + apply in_app_iff in Hin as [Hin|[<-|[]]]; auto.
    + destruct Hin as [<-|Hin]; auto.
Qed.

(** A group that is bound before a match is bound after it. *)
Lemma matches_bound r i : forall st st',
  In st' (matches r st) -> bound i st -> bound i st'.
Proof.
  induction r as [|p|r1 IH1 r2 IH2|r1 IH1 r2 IH2|g r1 IH1|j r1 IH1|j|r1 IH1| | |];
    intros st st' Hin Hb.
  - destruct Hin as [<-|[]]. exact Hb.
  - rewrite matches_chr in Hin. destruct (rest st) as [|c t]; [destruct Hin|].
    destruct (p c); [|destruct Hin]. destruct Hin as [<-|[]]. exact Hb.
  - rewrite matches_seq in Hin. apply in_flat_map in Hin as (st1 & H1 & H2). eauto.
  - rewrite matches_alt in Hin. apply in_app_iff in Hin as [Hin|Hin]; eauto.
  - rewrite matches_star in Hin. eapply star_loop_bound; eauto.
  - rewrite matches_group in Hin. apply in_map_iff in Hin as (st1 & <- & H1).
    destruct (IH1 _ _ H1 Hb) as [w Hw]. unfold bound, cap_lookup. cbn [caps List.find fst snd].
    destruct (Nat.eqb j i); [eexists; reflexivity|]. exists w. exact Hw.
  - cbn [matches] in Hin. destruct (cap_lookup j (caps st)) as [w|]; [|destruct Hin].
    destruct (strip_prefix w (rest st)) as [t|]; [|destruct Hin].
    destruct Hin as [<-|[]]. exact Hb.
  - cbn [matches] in Hin. destruct (matches r1 st) as [|st1 l] eqn:Hm; [destruct Hin|].
    destruct Hin as [<-|[]]. apply (IH1 st st1); [rewrite Hm; left; reflexivity | exact Hb].
  - cbn [matches] in Hin. destruct (prev st) as [c|].
    + destruct (Char.is_c Char.newline c); [|destruct Hin].
      destruct Hin as [<-|[]]. exact Hb.
    + destruct Hin as [<-|[]]. exact Hb.
  - cbn [matches] in Hin. destruct (rest st) as [|c t].
    + destruct Hin as [<-|[]]. exact Hb.
    + destruct (Char.is_c Char.newline c); [|destruct Hin].
      destruct Hin as [<-|[]]. exact Hb.
  - cbn [matches] in Hin. destruct (rest st) as [|c [|d t]].
    + destruct Hin as [<-|[]]. exact Hb.
    + destruct (Char.is_c Char.newline c); [|destruct Hin].
      destruct Hin as [<-|[]]. exact Hb.
    + destruct Hin.
Qed.

(** A group is bound by its own match. *)
Lemma matches_group_bound i r st st' :
  In st' (matches (Group i r) st) -> bound i st'.
Proof.
  rewrite matches_group. intros Hin. apply in_map_iff in Hin as (st1 & <- & _).
  unfold bound, cap_lookup. cbn [caps List.find fst snd].
  rewrite Nat.eqb_refl. eexists. reflexivity.
Qed.

(** A match of the month-day-year pattern binds its three groups. *)
Lemma month_date_groups date m :
  re_match re_month_date date = Some m ->
  exists g1 g2 g3, group 1 m = Some g1 /\ group 2 m = Some g2 /\ group 3 m = Some g3.
Proof.
  unfold re_match. destruct (match_here re_month_date None date) as [st|] eqn:Hm;
    [|discriminate].
  intros H. injection H as <-. unfold group. cbn [m_state].
  unfold match_here in Hm. apply head_In in Hm.
  unfold re_month_date in Hm. cbn [seqs] in Hm.
  rewrite matches_seq in Hm. apply in_flat_map in Hm as (s1 & H1 & Hm).
  rewrite matches_seq in Hm. apply in_flat_map in Hm as (s2 & H2 & Hm).
  rewrite matches_seq in Hm. apply in_flat_map in Hm as (s3 & H3 & Hm).
  rewrite matches_seq in Hm. apply in_flat_map in Hm as (s4 & H4 & Hm).
  rewrite matches_seq in Hm. apply in_flat_map in Hm as (s5 & H5 & Hm).
  apply matches_group_bound in H1.
  pose proof (matches_bound _ 1 _ _ H2 H1) as B1.
  pose proof (matches_bound _ 1 _ _ H3 B1) as B1'.
  apply matches_group_bound in H3 as B2.
  pose proof (matches_bound _ 1 _ _ H4 B1') as B14.
  pose proof (matches_bound _ 2 _ _ H4 B2) as B24.
  pose proof (matches_bound _ 1 _ _ H5 B14) as B15.
  pose proof (matches_bound _ 2 _ _ H5 B24) as B25.
  pose proof (matches_bound _ 1 _ _ Hm B15) as [g1 G1].
  pose proof (matches_bound _ 2 _ _ Hm B25) as [g2 G2].
  apply matches_group_bound in Hm as [g3 G3].
  exists g1, g2, g3. auto.
Qed.

(** ** Scanning with [re.sub] *)

Lemma sub_scan_skip r repl : forall k s prv,
  k <= length s ->
  exists prv', sub_scan r repl k prv s = sub_scan r repl 0 prv' (skipn k s).
Proof.
  induction k as [|k IH]; intros s prv Hk; [exists prv; reflexivity|].
  destruct s as [|c t]; [simpl in Hk; lia|].
  cbn [sub_scan skipn]. apply IH. simpl in Hk. lia.
Qed.

Lemma sub_scan_match r repl prv c t st pre :
  match_here r prv (c :: t) = Some st ->
  t = pre ++ rest st ->
  exists prv', sub_scan r repl 0 prv (c :: t)
               = repl st ++ sub_scan r repl 0 prv' (rest st).
Proof.
  intros Hm Ht. cbn [sub_scan]. rewrite Hm.
  replace (length (c :: t) - length (rest st)) with (S (length pre))
    by (rewrite Ht at 1; simpl; rewrite length_app; lia).
  destruct (sub_scan_skip r repl (length pre) t (Some c)) as [prv' Hs].
  { rewrite Ht, length_app. lia. }
  exists prv'. rewrite Hs. rewrite Ht at 1. rewrite drop_app_length. reflexivity.
Qed.

Lemma sub_scan_no_match r repl prv c t :
  match_here r prv (c :: t) = None ->
  sub_scan r repl 0 prv (c :: t) = c :: sub_scan r repl 0 (Some c) t.
Proof. intros Hm. cbn [sub_scan]. rewrite Hm. reflexivity. Qed.

Lemma lstrip_by_split p s : exists pre, s = pre ++ lstrip_by p s.
Proof.
  induction s as [|c t [pre IH]]; [exists []; reflexivity|].
  cbn [lstrip_by]. destruct (p c); [|exists []; reflexivity].
  exists (c :: pre). simpl. f_equal. exact IH.
Qed.

Lemma length_lstrip_by p s : length (lstrip_by p s) <= length s.
Proof.
  destruct (lstrip_by_split p s) as [pre H]. rewrite H at 2.
  rewrite length_app. lia.
Qed.

(** Substituting the empty text for every character of a class removes
    them. *)
Lemma sub_scan_chr_remove p prv s :
  sub_scan (Chr p) (repl_const []) 0 prv s = List.filter (fun c => negb (p c)) s.
Proof.
  revert prv. induction s as [|c t IH]; intros prv; [reflexivity|].
  cbn [sub_scan]. unfold match_here. cbn [matches rest caps head].
  destruct (p c) eqn:Hp; cbn [head List.filter negb]; rewrite Hp; cbn [negb].
  - cbn [rest]. rewrite length_cons_sub. unfold repl_const. cbn [app].
    apply IH.
  - f_equal. apply IH.
Qed.

Lemma re_sub_chr_remove p s :
  re_sub (Chr p) (repl_const []) s = List.filter (fun c => negb (p c)) s.
Proof. apply sub_scan_chr_remove. Qed.

(** ** The normaliser's substitutions as direct scans *)

Lemma squeeze_aux_lstrip c s :
  squeeze_aux (Some c) s = squeeze_aux None (lstrip_by (Ascii.eqb c) s).
Proof.
  induction s as [|d t IH]; [reflexivity|].
  cbn [squeeze_aux lstrip_by]. destruct (Ascii.eqb c d); [exact IH | reflexivity].
Qed.

Lemma sub_scan_repeated : forall n s prv,
  length s <= n ->
  sub_scan re_repeated repl_group1 0 prv s = squeeze_aux None s.
Proof.
  induction n as [|n IH]; intros s prv Hlen.
  - destruct s; [|simpl in Hlen; lia].
    cbn [sub_scan]. rewrite match_here_repeated_none by exact I. reflexivity.
  - destruct s as [|c t].
    { cbn [sub_scan]. rewrite match_here_repeated_none by exact I. reflexivity. }
    simpl in Hlen.
    destruct (Char.dot c) eqn:Hdot.
    + destruct t as [|d t'].
      { rewrite sub_scan_no_match by (apply match_here_repeated_none; exact I).
        rewrite IH by (simpl; lia). cbn [squeeze_aux]. reflexivity. }
      destruct (ascii_dec c d) as [<-|Hne].
      * destruct (match_here_repeated prv c t' Hdot) as [p1 Hm].
        destruct (lstrip_by_split (Ascii.eqb c) t') as [pre Hpre].
        destruct (sub_scan_match re_repeated repl_group1 prv c (c :: t') _
                    (c :: pre) Hm) as [p2 Hs].
        { cbn [rest app]. f_equal. exact Hpre. }
        rewrite Hs. cbn [rest]. rewrite IH.
        2:{ pose proof (length_lstrip_by (Ascii.eqb c) t'). simpl in Hlen. lia. }
        cbn [squeeze_aux]. rewrite Hdot, Ascii.eqb_refl.
        rewrite squeeze_aux_lstrip. reflexivity.
      * rewrite sub_scan_no_match
          by (apply match_here_repeated_none; right; exact Hne).
        rewrite IH by lia. cbn [squeeze_aux]. rewrite Hdot.
        apply Ascii.eqb_neq in Hne. rewrite Hne. reflexivity.
    + rewrite sub_scan_no_match.
      2:{ apply match_here_repeated_none. destruct t; [exact I | left; exact Hdot]. }
      rewrite IH by lia. cbn [squeeze_aux]. rewrite Hdot. reflexivity.
Qed.

Lemma re_sub_repeated s :
  re_sub re_repeated repl_group1 s = squeeze_aux None s.
Proof. apply (sub_scan_repeated (length s)). lia. Qed.

Lemma wsnorm_aux_lstrip s :
  wsnorm_aux true s = wsnorm_aux false (lstrip_by Char.is_space s).
Proof.
  induction s as [|c t IH]; [reflexivity|].
  cbn [wsnorm_aux lstrip_by]. destruct (Char.is_space c) eqn:Hc; [exact IH|].
  cbn [wsnorm_aux]. rewrite Hc. reflexivity.
Qed.

Lemma sub_scan_spaces : forall n s prv,
  length s <= n ->
  sub_scan re_spaces (repl_const (txt " ")) 0 prv s = wsnorm_aux false s.
Proof.
  induction n as [|n IH]; intros s prv Hlen.
  - destruct s; [|simpl in Hlen; lia].
    cbn [sub_scan]. unfold re_spaces.
    rewrite match_here_plus_class_none by exact I. reflexivity.
  - destruct s as [|c t].
    { cbn [sub_scan]. unfold re_spaces.
      rewrite match_here_plus_class_none by exact I. reflexivity. }
    simpl in Hlen. destruct (Char.is_space c) eqn:Hc.
    + destruct (match_here_plus_class Char.is_space prv c t Hc) as [p1 Hm].
      destruct (lstrip_by_split Char.is_space t) as [pre Hpre].
      destruct (sub_scan_match re_spaces (repl_const (txt " ")) prv c t _ pre Hm)
        as [p2 Hs]; [exact Hpre|].
      rewrite Hs. cbn [rest]. rewrite IH.
      2:{ pose proof (length_lstrip_by Char.is_space t). lia. }
      cbn [wsnorm_aux]. rewrite Hc, wsnorm_aux_lstrip. reflexivity.
    + rewrite sub_scan_no_match
        by (apply match_here_plus_class_none; exact Hc).
      rewrite IH by lia. cbn [wsnorm_aux]. rewrite Hc. reflexivity.
Qed.

Lemma re_sub_spaces s :
  re_sub re_spaces (repl_const (txt " ")) s = wsnorm_aux false s.
Proof. apply (sub_scan_spaces (length s)). lia. Qed.

Lemma clean_text_scans text :
  clean_text text = str_strip (wsnorm_aux false (squeeze_aux None text)).
Proof. unfold clean_text. rewrite re_sub_repeated, re_sub_spaces. reflexivity. Qed.

(** ** Normal texts *)

Lemma adj_app_l R a b : adj R (a ++ b) -> adj R a.
Proof.
  induction a as [|c t IH]; [intros; exact I|].
  cbn [app adj]. intros [Hh Ht]. split; [|exact (IH Ht)].
  destruct t; [exact I | exact Hh].
Qed.

Lemma adj_app_r R a b : adj R (a ++ b) -> adj R b.
Proof.
  induction a as [|c t IH]; [intros H; exact H|].
  cbn [app adj]. intros [_ Ht]. exact (IH Ht).
Qed.

Lemma rstrip_by_split p s : exists suf, s = rstrip_by p s ++ suf.
Proof.
  unfold rstrip_by. destruct (lstrip_by_split p (rev s)) as [pre H].
  exists (rev pre). rewrite <- rev_app_distr, <- H, rev_involutive. reflexivity.
Qed.

Lemma lstrip_by_head_not p s : head_not p (lstrip_by p s).
Proof.
  induction s as [|c t IH]; [exact I|].
  cbn [lstrip_by]. destruct (p c) eqn:Hc; [exact IH | exact Hc].
Qed.

Lemma lstrip_by_fixed p s : head_not p s -> lstrip_by p s = s.
Proof. destruct s as [|c t]; [reflexivity|]. simpl. intros ->. reflexivity. Qed.

Lemma strip_by_idempotent p s : strip_by p (strip_by p s) = strip_by p s.
Proof.
  unfold strip_by.
  assert (Hl : lstrip_by p (rstrip_by p (lstrip_by p s)) = rstrip_by p (lstrip_by p s)).
  { apply lstrip_by_fixed.
    pose proof (lstrip_by_head_not p s) as Hh.
    destruct (rstrip_by_split p (lstrip_by p s)) as [suf Hs].
    destruct (rstrip_by p (lstrip_by p s)) as [|c t]; [exact I|].
    rewrite Hs in Hh. exact Hh. }
  rewrite Hl. unfold rstrip_by. rewrite rev_involutive.
  rewrite (lstrip_by_fixed p (lstrip_by p _)) by apply lstrip_by_head_not.
  reflexivity.
Qed.

Lemma tidy_strip_by p s : tidy s -> tidy (strip_by p s).
Proof.
  intros [Ha Hf]. unfold strip_by.
  destruct (lstrip_by_split p s) as [pre Hpre].
  destruct (rstrip_by_split p (lstrip_by p s)) as [suf Hsuf].
  rewrite Hpre in Ha, Hf. apply adj_app_r in Ha. apply Forall_app in Hf as [_ Hf].
  rewrite Hsuf in Ha, Hf. apply adj_app_l in Ha. apply Forall_app in Hf as [Hf _].
  split; assumption.
Qed.

(** What [squeeze_aux] returns has no repetition left. *)
Lemma squeeze_aux_rep_free : forall s last,
  adj rep_free (squeeze_aux last s)
  /\ forall r, last = Some r -> head (squeeze_aux last s) <> Some r.
Proof.
  induction s as [|c t IH]; intros last.
  - split; [exact I | intros r _; discriminate].
  - cbn [squeeze_aux].
    destruct (match last with Some r => Ascii.eqb r c | None => false end) eqn:Hskip.
    + apply IH.
    + destruct (IH (if Char.dot c then Some c else None)) as [Ha Hh].
      split.
      * cbn [adj]. split; [|exact Ha].
        destruct (squeeze_aux _ t) as [|d t'] eqn:Hsq; [exact I|].
        intros <- . destruct (Char.dot c); [|reflexivity].
        exfalso. apply (Hh c); reflexivity.
      * intros r ->. cbn [head]. intros Heq. injection Heq as ->.
        rewrite Ascii.eqb_refl in Hskip. discriminate.
Qed.

Lemma space_is_space : Char.is_space " " = true.
Proof. reflexivity. Qed.

Lemma newline_is_space c : Char.dot c = false -> Char.is_space c = true.
Proof.
  unfold Char.dot, Char.is_c. rewrite negb_false_iff. intros H.
  apply Ascii.eqb_eq in H. subst c. reflexivity.
Qed.

(** What [wsnorm_aux] returns from a repetition-free text is tidy. *)
Lemma wsnorm_aux_tidy : forall s b,
  adj rep_free s ->
  tidy (wsnorm_aux b s)
  /\ (b = true -> head_not Char.is_space (wsnorm_aux b s))
  /\ (b = false ->
      head (wsnorm_aux b s)
      = match s with
        | c :: _ => Some (if Char.is_space c then " "%char else c)
        | [] => None
        end).
Proof.
  induction s as [|c t IH]; intros b Hadj.
  - repeat split; try constructor; intros; exact I.
  - cbn [adj] in Hadj. destruct Hadj as [Hcd Hadj].
    cbn [wsnorm_aux]. destruct (Char.is_space c) eqn:Hc.
    + destruct (IH true Hadj) as [[Ha Hf] [Hh _]]. specialize (Hh eq_refl).
      destruct b.
      * repeat split; try assumption; [intros _; exact Hh | discriminate].
      * split; [|split; [discriminate | reflexivity]].
        split.
        -- cbn [adj]. split; [|exact Ha].
           destruct (wsnorm_aux true t) as [|d t']; [exact I|].
           simpl in Hh. intros <-. rewrite space_is_space in Hh. discriminate.
        -- constructor; [intros _; reflexivity | exact Hf].
    + destruct (IH false Hadj) as [[Ha Hf] [_ Hh]]. specialize (Hh eq_refl).
      split; [|split; [intros _; exact Hc | intros _; reflexivity]].
      split.
      * cbn [adj]. split; [|exact Ha].
        destruct (wsnorm_aux false t) as [|d t'] eqn:Hw; [exact I|].
        destruct t as [|d0 t0]; [discriminate|].
        simpl in Hh. injection Hh as ->.
        destruct (Char.is_space d0) eqn:Hd0.
        -- intros ->. rewrite space_is_space in Hc. discriminate.
        -- intros ->. pose proof (Hcd eq_refl) as Hdot.
           apply newline_is_space in Hdot. congruence.
      * constructor; [intros H; congruence | exact Hf].
Qed.

(** A tidy text is left alone by both substitutions. *)
Lemma squeeze_aux_tidy : forall s last,
  adj (fun c d => c <> d) s ->
  (forall c, head s = Some c -> last <> Some c) ->
  squeeze_aux last s = s.
Proof.
  induction s as [|c t IH]; intros last Hadj Hlast; [reflexivity|].
  cbn [squeeze_aux]. cbn [adj] in Hadj. destruct Hadj as [Hcd Hadj].
  assert (Hskip : match last with Some r => Ascii.eqb r c | None => false end = false).
  { destruct last as [r|]; [|reflexivity]. apply Ascii.eqb_neq.
    intros ->. apply (Hlast c); reflexivity. }
  rewrite Hskip. f_equal. apply IH; [exact Hadj|].
  intros d Hd. destruct t as [|d0 t0]; [discriminate|].
  injection Hd as ->. destruct (Char.dot c); [congruence | discriminate].
Qed.

Lemma wsnorm_aux_tidy_fixed : forall s b,
  tidy s -> (b = true -> head_not Char.is_space s) ->
  wsnorm_aux b s = s.
Proof.
  induction s as [|c t IH]; intros b [Hadj Hf] Hb; [reflexivity|].
  cbn [wsnorm_aux]. cbn [adj] in Hadj. destruct Hadj as [Hcd Hadj].
  apply Forall_cons_iff in Hf as [Hc Hf].
  destruct (Char.is_space c) eqn:Hsp.
  - destruct b; [specialize (Hb eq_refl); simpl in Hb; congruence|].
    rewrite (Hc Hsp). f_equal. apply IH; [split; assumption|].
    intros _. destruct t as [|d t0]; [exact I|]. simpl.
    destruct (Char.is_space d) eqn:Hd; [|reflexivity].
    apply Forall_cons_iff in Hf as [Hd' _].
    exfalso. apply Hcd. rewrite (Hc Hsp), (Hd' Hd). reflexivity.
  - f_equal. apply IH; [split; assumption | discriminate].
Qed.

Lemma strip_by_head_not p s : head_not p (strip_by p s).
Proof.
  unfold strip_by.
  pose proof (lstrip_by_head_not p s) as Hh.
  destruct (rstrip_by_split p (lstrip_by p s)) as [suf Hs].
  destruct (rstrip_by p (lstrip_by p s)) as [|c t]; [exact I|].
  rewrite Hs in Hh. exact Hh.
Qed.

(** A normalised text is tidy and starts with no whitespace. *)
Lemma clean_text_tidy text :
  tidy (clean_text text) /\ head_not Char.is_space (clean_text text).
Proof.
  rewrite clean_text_scans. split; [|apply strip_by_head_not].
  apply tidy_strip_by.
  apply (wsnorm_aux_tidy _ false), (squeeze_aux_rep_free text None).
Qed.

Lemma clean_text_fixed s :
  tidy s -> str_strip s = s -> clean_text s = s.
Proof.
  intros Ht Hs. rewrite clean_text_scans.
  rewrite squeeze_aux_tidy; [| apply Ht | intros; discriminate].
  rewrite wsnorm_aux_tidy_fixed; [exact Hs | exact Ht | discriminate].
Qed.

(** C6: normalising a normalised text changes nothing. *)
Theorem clean_text_idempotent text :
  clean_text (clean_text text) = clean_text text.
Proof.
  apply clean_text_fixed; [apply clean_text_tidy|].
  rewrite clean_text_scans. apply strip_by_idempotent.
Qed.

(** ** The aggregator on no entries *)

(** C9: applied to the empty list, [generate_statistics] returns the empty
    dictionary: no key is bound in it, and it is not the record of zero
    counts with the "N/A" most common skill. *)
Theorem generate_statistics_empty_list :
  generate_statistics [] = Some []
  /\ (forall stats key, generate_statistics [] = Some stats ->
                        stat_get key stats = None)
  /\ generate_statistics []
     <> Some [("total_courses", VInt 0); ("by_year", VByYear []);
              ("by_provider", VByProvider []);
              ("avg_skills_per_course", VInt 0); ("unique_skills", VInt 0);
              ("most_common_skill", VStr (txt "N/A"));
              ("completion_trend", VByYear [])]%string.
Proof.
  split; [reflexivity | split].
  - intros stats key H. simpl in H. injection H as <-. reflexivity.
  - simpl. discriminate.
Qed.

(** ** The most common skill *)

Section CounterFacts.

Context {K : Type} `{EqDecision K}.

Lemma freq_cons (k x : K) (items : list K) :
  freq k (x :: items) = (if bool_decide (x = k) then 1 else 0) + freq k items.
Proof. unfold freq. simpl. destruct (bool_decide (x = k)); reflexivity. Qed.

Lemma freq_absent (k : K) (items : list K) : ~ In k items -> freq k items = 0.
Proof.
  induction items as [|x xs IH]; intros Hn; [reflexivity|].
  rewrite freq_cons. rewrite bool_decide_eq_false_2.
  - apply IH. intros Hin. apply Hn. right. exact Hin.
  - intros ->. apply Hn. left. reflexivity.
Qed.

Lemma freq_others (k x : K) (items : list K) : k <> x -> freq k (others x items) = freq k items.
Proof.
  intros Hne. induction items as [|y ys IH]; [reflexivity|].
  unfold others in *. simpl. destruct (bool_decide (y = x)) eqn:Hy; simpl.
  - apply bool_decide_eq_true in Hy. subst y. rewrite freq_cons.
    rewrite bool_decide_eq_false_2 by congruence. exact IH.
  - rewrite !freq_cons. rewrite IH. reflexivity.
Qed.

Lemma In_others (k x : K) (items : list K) : In k (others x items) <-> In k items /\ k <> x.
Proof.
  unfold others. rewrite filter_In, negb_true_iff, bool_decide_eq_false.
  reflexivity.
Qed.

Lemma length_others (x : K) (items : list K) : length (others x items) <= length items.
Proof.
  unfold others. induction items as [|y ys IH]; simpl; [lia|].
  destruct (negb _); simpl; lia.
Qed.

(** Counting into a dictionary whose first key is [x]. *)
Lemma fold_counter_head (items : list K) (x : K) n (c : list (K * nat)) :
  fold_left (fun c k => counter_add k c) items ((x, n) :: c)
  = (x, n + freq x items)
      :: fold_left (fun c k => counter_add k c) (others x items) c.
Proof.
  revert n c. induction items as [|y ys IH]; intros n c.
  - simpl. rewrite Nat.add_0_r. reflexivity.
  - cbn [fold_left counter_add]. rewrite freq_cons. unfold others. simpl.
    destruct (bool_decide (y = x)) eqn:Hy.
    + apply bool_decide_eq_true in Hy. subst y.
      rewrite bool_decide_eq_true_2 by reflexivity. simpl.
      rewrite IH. f_equal. f_equal. lia.
    + apply bool_decide_eq_false in Hy.
      rewrite bool_decide_eq_false_2 by congruence. simpl.
      rewrite IH. reflexivity.
Qed.

Lemma Counter_cons (x : K) (items : list K) :
  Counter (x :: items) = (x, S (freq x items)) :: Counter (others x items).
Proof. unfold Counter. simpl. apply fold_counter_head. Qed.

(** Every entry of a counter holds the frequency of its key. *)
Lemma Counter_entry (items : list K) : forall k n,
  In (k, n) (Counter items) -> In k items /\ n = freq k items.
Proof.
  remember (length items) as len eqn:Hlen.
  revert items Hlen. induction len as [len IH] using lt_wf_ind.
  intros [|x xs] Hlen k n Hin; [destruct Hin|].
  rewrite Counter_cons in Hin. destruct Hin as [Heq | Hin].
  - injection Heq as <- <-. split; [left; reflexivity|].
    rewrite freq_cons, bool_decide_eq_true_2 by reflexivity. reflexivity.
  - apply (IH (length (others x xs))) in Hin;
      [| subst len; simpl; pose proof (length_others x xs); lia | reflexivity].
    destruct Hin as [Hk Hn]. apply In_others in Hk as [Hk Hne].
    split; [right; exact Hk|].
    rewrite freq_cons, bool_decide_eq_false_2 by congruence.
    rewrite Hn. apply freq_others. exact Hne.
Qed.

(** Every item has an entry. *)
Lemma Counter_has (items : list K) : forall k,
  In k items -> In (k, freq k items) (Counter items).
Proof.
  remember (length items) as len eqn:Hlen.
  revert items Hlen. induction len as [len IH] using lt_wf_ind.
  intros [|x xs] Hlen k Hin; [destruct Hin|].
  rewrite Counter_cons. destruct (decide (k = x)) as [->|Hne].
  - left. rewrite freq_cons, bool_decide_eq_true_2 by reflexivity. reflexivity.
  - right. destruct Hin as [Heq|Hin]; [congruence|].
    rewrite freq_cons, bool_decide_eq_false_2 by congruence. simpl.
    rewrite <- (freq_others k x xs Hne).
    apply (IH (length (others x xs)));
      [subst len; simpl; pose proof (length_others x xs); lia | reflexivity |].
    apply In_others. split; assumption.
Qed.

Lemma others_split (x : K) (items a : list K) (s : K) (b : list K) :
  others x items = a ++ s :: b ->
  exists a' b', items = a' ++ s :: b' /\ others x a' = a /\ s <> x.
Proof.
  revert a. induction items as [|y ys IH]; intros a Hf.
  - destruct a; discriminate.
  - unfold others in Hf. simpl in Hf.
    destruct (bool_decide (y = x)) eqn:Hy; simpl in Hf.
    + apply IH in Hf as (a' & b' & -> & Ha & Hs).
      exists (y :: a'), b'. split; [reflexivity|]. split; [|exact Hs].
      unfold others. simpl. rewrite Hy. exact Ha.
    + apply bool_decide_eq_false in Hy. destruct a as [|a0 a].
      * injection Hf as -> Hb. exists [], ys. repeat split; auto.
      * injection Hf as -> Hf. apply IH in Hf as (a' & b' & -> & Ha & Hs).
        exists (a0 :: a'), b'. split; [reflexivity|]. split; [|exact Hs].
        unfold others. simpl. rewrite bool_decide_eq_false_2 by assumption.
        simpl. f_equal. exact Ha.
Qed.

(** The entries of a counter are in the order in which their keys first
    occur: whatever occurs before the first [s] has its entry before
    that of [s]. *)
Lemma Counter_order (items : list K) : forall c1 s n c2,
  Counter items = c1 ++ (s, n) :: c2 ->
  exists pre post,
    items = pre ++ s :: post /\ ~ In s pre
    /\ forall t, In t pre -> In t (map fst c1).
Proof.
  remember (length items) as len eqn:Hlen.
  revert items Hlen. induction len as [len IH] using lt_wf_ind.
  intros [|x xs] Hlen c1 s n c2 Hc.
  - destruct c1; discriminate.
  - rewrite Counter_cons in Hc. destruct c1 as [|e c1].
    + injection Hc as <- _ _. exists [], xs. repeat split; auto.
    + injection Hc as <- Hc.
      apply (IH (length (others x xs))) in Hc;
        [| subst len; simpl; pose proof (length_others x xs); lia
         | reflexivity].
      destruct Hc as (pre & post & Hsplit & Hnot & Hpre).
      apply others_split in Hsplit as (a' & b' & -> & Ha & Hs).
      exists (x :: a'), b'. split; [reflexivity|]. split.
      * intros [Heq|Hin]; [congruence|].
        apply Hnot. rewrite <- Ha. apply In_others. split; assumption.
      * intros t [<-|Hin]; [left; reflexivity|].
        destruct (decide (t = x)) as [->|Hne]; [left; reflexivity|].
        right. apply Hpre. rewrite <- Ha. apply In_others. split; assumption.
Qed.

(** [max_by_count] returns the first entry of greatest count. *)
Lemma max_by_count_first (entries : list (K * nat)) : forall best,
  exists c1 c2,
    best :: entries = c1 ++ max_by_count best entries :: c2
    /\ Forall (fun e => snd e < snd (max_by_count best entries)) c1
    /\ Forall (fun e => snd e <= snd (max_by_count best entries)) c2.
Proof.
  induction entries as [|e es IH]; intros best.
  - exists [], []. simpl. repeat split; constructor.
  - simpl. destruct (snd best <? snd e) eqn:Hlt.
    + apply Nat.ltb_lt in Hlt.
      destruct (IH e) as (c1 & c2 & Heq & H1 & H2).
      exists (best :: c1), c2. rewrite Heq. split; [reflexivity|].
      split; [|exact H2]. constructor; [|exact H1].
      assert (snd e <= snd (max_by_count e es)).
      { destruct c1 as [|d c1].
        - injection Heq as Heq _. rewrite <- Heq. lia.
        - injection Heq as <- _. inversion H1; subst. lia. }
      lia.
    + apply Nat.ltb_ge in Hlt.
      destruct (IH best) as (c1 & c2 & Heq & H1 & H2).
      destruct c1 as [|d c1].
      * injection Heq as Hb Hes. subst c2. exists [], (e :: es).
        split; [simpl; rewrite <- Hb; reflexivity|]. split; [constructor|].
        constructor; [rewrite <- Hb; exact Hlt | exact H2].
      * injection Heq as Hb Hes. subst d. exists (best :: e :: c1), c2.
        split; [simpl; do 2 f_equal; exact Hes|]. split; [|exact H2].
        apply Forall_cons_iff in H1 as [Hbest Hrest].
        constructor; [exact Hbest|]. constructor; [lia | exact Hrest].
Qed.

(** The key of [most_common(1)]: of greatest frequency, and more frequent
    than anything met before it. *)
Lemma most_common_1_spec (items : list K) :
  items <> [] ->
  exists s pre post,
    fst <$> head (most_common_1 (Counter items)) = Some s
    /\ items = pre ++ s :: post /\ ~ In s pre
    /\ (forall t, In t pre -> freq t items < freq s items)
    /\ (forall t, freq t items <= freq s items).
Proof.
  intros Hne. destruct items as [|x xs]; [congruence|].
  destruct (Counter (x :: xs)) as [|e c] eqn:Hc;
    [rewrite Counter_cons in Hc; discriminate|].
  destruct (max_by_count_first c e) as (c1 & c2 & Heq & H1 & H2).
  destruct (max_by_count e c) as [s n] eqn:Hmax.
  rewrite <- Hc in Heq.
  destruct (Counter_order _ _ _ _ _ Heq) as (pre & post & Hsplit & Hnot & Hpre).
  assert (Hn : n = freq s (x :: xs)).
  { apply (Counter_entry (x :: xs) s n). rewrite Heq.
    apply in_app_iff. right. left. reflexivity. }
  exists s, pre, post. simpl. rewrite Hmax. simpl.
  split; [reflexivity|]. split; [exact Hsplit|]. split; [exact Hnot|].
  simpl in H1, H2. split.
  - intros t Ht. apply Hpre in Ht. apply in_map_iff in Ht as ([t' m] & <- & Hin).
    simpl. rewrite List.Forall_forall in H1. pose proof (H1 _ Hin) as Hlt.
    assert (In (t', m) (Counter (x :: xs))).
    { rewrite Heq. apply in_app_iff. left. exact Hin. }
    apply Counter_entry in H as [_ ->]. simpl in Hlt. lia.
  - intros t. destruct (in_dec (fun a b => decide (a = b)) t (x :: xs)) as [Hin|Hout].
    + apply Counter_has in Hin. rewrite Heq in Hin.
      apply in_app_iff in Hin as [Hin|[Hin|Hin]].
      * rewrite List.Forall_forall in H1. apply H1 in Hin. simpl in Hin. lia.
      * injection Hin as _ <-. lia.
      * rewrite List.Forall_forall in H2. apply H2 in Hin. simpl in Hin. lia.
    + rewrite (freq_absent _ _ Hout). lia.
Qed.

End CounterFacts.

Lemma split_comma_space_aux_nonempty acc s : split_comma_space_aux acc s <> [].
Proof.
  revert acc. induction s as [|c t IH]; intros acc; [simpl; discriminate|].
  simpl. destruct t as [|d t']; [apply IH|].
  destruct (Char.is_c "," c && Char.is_c " " d); [simpl; discriminate | apply IH].
Qed.

Lemma has_skills_true m : has_skills m = true <-> skills m <> [].
Proof.
  unfold has_skills. destruct (skills m); simpl; split; congruence.
Qed.

Lemma all_skills_nonempty l :
  existsb has_skills l = true -> all_skills l <> [].
Proof.
  induction l as [|m l IH]; [discriminate|].
  unfold all_skills. simpl. intros H Hnil.
  apply app_eq_nil in Hnil as [Hm Hl].
  destruct (is_empty (skills m)) eqn:He.
  - unfold has_skills in H. rewrite He in H. simpl in H. exact (IH H Hl).
  - exact (split_comma_space_aux_nonempty _ _ Hm).
Qed.

Lemma existsb_has_skills_false l :
  Forall (fun m => skills m = []) l -> existsb has_skills l = false.
Proof.
  induction 1 as [|m l Hm _ IH]; [reflexivity|].
  simpl. rewrite IH. unfold has_skills. rewrite Hm. reflexivity.
Qed.

Lemma existsb_has_skills_true l :
  Exists (fun m => skills m <> []) l -> existsb has_skills l = true.
Proof.
  induction 1 as [m l Hm | m l _ IH]; simpl.
  - apply has_skills_true in Hm. rewrite Hm. reflexivity.
  - rewrite IH. apply orb_true_r.
Qed.

(** C7 (as the code has it): for every list of entries that is not empty,
    most_common_skill is "N/A" when no entry has skills, and otherwise a
    skill of greatest frequency among the skills of all entries (each
    skills text split on ", "), more frequent than every skill met before
    its first occurrence; over the skills "A", "B", "A" it is "A". *)
Theorem most_common_skill_of_entries :
  (forall l : list metadata,
      l <> [] ->
      exists stats,
        generate_statistics l = Some stats
        /\ (Forall (fun m => skills m = []) l ->
            stat_get "most_common_skill" stats = Some (VStr (txt "N/A")))
        /\ (Exists (fun m => skills m <> []) l ->
            exists s pre post,
              stat_get "most_common_skill" stats = Some (VStr s)
              /\ all_skills l = pre ++ s :: post
              /\ ~ In s pre
              /\ (forall t, In t pre ->
                            freq t (all_skills l) < freq s (all_skills l))
              /\ (forall t, freq t (all_skills l) <= freq s (all_skills l))))
  /\ (generate_statistics
        [entry_with_skills "A"; entry_with_skills "B"; entry_with_skills "A"]
        ≫= stat_get "most_common_skill")
     = Some (VStr (txt "A")).
Proof.
  split; [|vm_compute; reflexivity].
  intros l Hne. destruct l as [|m0 l0]; [congruence|].
  unfold generate_statistics. set (l := m0 :: l0) in *.
  destruct (existsb has_skills l) eqn:Hany.
  - destruct (most_common_1_spec (all_skills l) (all_skills_nonempty l Hany))
      as (s & pre & post & Hmc & Hsplit & Hnot & Hlt & Hle).
    rewrite Hmc. cbn [mbind option_bind].
    eexists. split; [reflexivity|]. split.
    + intros Hall. rewrite (existsb_has_skills_false l Hall) in Hany. discriminate.
    + intros _. exists s, pre, post. split; [reflexivity|]. auto.
  - cbn [mbind option_bind].
    eexists. split; [reflexivity|]. split.
    + intros _. reflexivity.
    + intros Hex. rewrite (existsb_has_skills_true l Hex) in Hany. discriminate.
Qed.

Lemma most_common_skill_of_entries_witness :
  exists stats,
    generate_statistics [entry_with_skills "B"; entry_with_skills "A, B"]
    = Some stats
    /\ stat_get "most_common_skill" stats = Some (VStr (txt "B")).
Proof.
  destruct (proj1 most_common_skill_of_entries
                  [entry_with_skills "B"; entry_with_skills "A, B"])
    as (stats & Hs & _ & _); [discriminate|].
  exists stats. split; [exact Hs|].
  vm_compute in Hs. injection Hs as <-. vm_compute. reflexivity.
Defined.

(** C7, as the specification states it, fails on the empty list: no entry
    has skills, and there is no most_common_skill at all; and "N/A" is
    also the result when it is itself the most frequent skill. *)
Lemma most_common_skill_absent_on_empty_list :
  Forall (fun m => skills m = []) []
  /\ (generate_statistics [] ≫= stat_get "most_common_skill") = None
  /\ (generate_statistics [] ≫= stat_get "most_common_skill")
     <> Some (VStr (txt "N/A"))
  /\ (generate_statistics [entry_with_skills "N/A"]
        ≫= stat_get "most_common_skill") = Some (VStr (txt "N/A")).
Proof.
  split; [constructor|]. split; [reflexivity|].
  split; [discriminate | vm_compute; reflexivity].
Qed.

(** ** The filename deriver *)

(** C2: on the date text "March 5, 2024" and the title
    "Intro to Networking!" the date becomes 2024-03-05, but the new name is
    "2024-03-05-introtonetworking.pdf": the title's spaces are removed
    with the punctuation before they can become hyphens, as they do in the
    slug of [generate_course_url]. *)
Theorem rename_file_intro_to_networking :
  normalized_date (txt "March 5, 2024") = Some (txt "2024-03-05")
  /\ clean_title (txt "Intro to Networking!") = txt "introtonetworking"
  /\ new_name (txt "March 5, 2024") (txt "Intro to Networking!")
     = Some (txt "2024-03-05-introtonetworking.pdf")
  /\ new_name (txt "March 5, 2024") (txt "Intro to Networking!")
     <> Some (txt "2024-03-05-intro-to-networking.pdf")
  /\ snd <$> rename_file sample_fs (txt "certs/a.pdf") (txt "March 5, 2024")
                          (txt "Intro to Networking!")
     = Some (txt "certs/2024-03-05-introtonetworking.pdf")
  /\ slug (txt "Intro to Networking!") = txt "intro-to-networking".
Proof.
  repeat split; try (vm_compute; reflexivity).
  vm_compute. discriminate.
Qed.

Lemma str_eqb_true (a b : str) : str_eqb a b = true <-> a = b.
Proof. unfold str_eqb. apply bool_decide_eq_true. Qed.

Lemma str_eqb_false (a b : str) : str_eqb a b = false <-> a <> b.
Proof. unfold str_eqb. apply bool_decide_eq_false. Qed.

Lemma is_empty_false (s : str) : s <> [] -> is_empty s = false.
Proof. destruct s; [congruence | reflexivity]. Qed.

(** What [rename_file] does once both texts are present and the new name
    is known. *)
Lemma rename_file_unfold fs file_path date title n :
  date <> [] -> title <> [] -> new_name date title = Some n ->
  rename_file fs file_path date title =
  let new_path := os_path_join (os_path_dirname file_path) n in
  if negb (str_eqb file_path new_path) && negb (os_path_exists fs new_path)
  then fs' ← os_rename fs file_path new_path; Some (fs', new_path)
  else Some (fs, new_path).
Proof.
  intros Hd Ht Hn. unfold rename_file.
  rewrite (is_empty_false _ Hd), (is_empty_false _ Ht), Hn. reflexivity.
Qed.

(** [rename_file] always has a new name to offer. *)
Lemma new_name_total date title : exists n, new_name date title = Some n.
Proof.
  unfold new_name, normalized_date.
  destruct (re_match re_iso_date date); [eexists; reflexivity|].
  destruct (re_match re_month_date date) as [m|] eqn:Hm; [|eexists; reflexivity].
  destruct (month_date_groups _ _ Hm) as (g1 & g2 & g3 & -> & -> & ->).
  eexists. reflexivity.
Qed.

(** A rename leaves every other file as it was. *)
Lemma os_rename_other fs src dst fs' q :
  os_rename fs src dst = Some fs' ->
  os_path_exists fs dst = false ->
  q <> src -> is_Some (files fs !! q) ->
  files fs' !! q = files fs !! q.
Proof.
  unfold os_rename, os_path_exists. intros H Hex Hq [c Hc].
  destruct (files fs !! src) as [content|] eqn:Hsrc; [|discriminate].
  destruct (_ && _); [|discriminate]. injection H as <-. simpl.
  apply orb_false_iff in Hex as [Hex _]. apply bool_decide_eq_false in Hex.
  assert (dst <> q) by (intros ->; apply Hex; eauto).
  rewrite lookup_insert_ne by assumption.
  rewrite lookup_delete_ne by congruence. reflexivity.
Qed.

(** C3 (as the code has it): when the derived target path already exists,
    [rename_file] leaves the file system as it is and returns the derived
    target path; and whatever it does, every file other than the source
    keeps its content. *)
Theorem rename_file_target_exists fs file_path date title :
  (date <> [] -> title <> [] ->
   exists n,
     new_name date title = Some n
     /\ (os_path_exists fs (os_path_join (os_path_dirname file_path) n) = true ->
         rename_file fs file_path date title
         = Some (fs, os_path_join (os_path_dirname file_path) n)))
  /\ (forall fs' p q,
         rename_file fs file_path date title = Some (fs', p) ->
         q <> file_path -> is_Some (files fs !! q) ->
         files fs' !! q = files fs !! q).
Proof.
  split.
  - intros Hd Ht. destruct (new_name_total date title) as [n Hn].
    exists n. split; [exact Hn|]. intros Hex.
    rewrite (rename_file_unfold _ _ _ _ _ Hd Ht Hn). cbv zeta.
    rewrite Hex, andb_false_r. reflexivity.
  - intros fs' p q H Hq Hsome. unfold rename_file in H.
    destruct (negb (is_empty date) && negb (is_empty title));
      [|injection H as <- _; reflexivity].
    destruct (new_name date title) as [n|]; [|discriminate]. simpl in H.
    destruct (negb (str_eqb _ _) && negb (os_path_exists _ _)) eqn:Hc;
      [|injection H as <- _; reflexivity].
    apply andb_true_iff in Hc as [_ Hex]. apply negb_true_iff in Hex.
    destruct (os_rename fs file_path _) as [fs1|] eqn:Hr; [|discriminate].
    simpl in H. injection H as <- _.
    eapply os_rename_other; eauto.
Qed.

Lemma rename_file_target_exists_witness :
  rename_file conflict_fs (txt "certs/a.pdf") (txt "2024-03-05") (txt "T")
  = Some (conflict_fs, txt "certs/2024-03-05-t.pdf")
  /\ files (FS {[ txt "certs/2024-03-05-t.pdf" := txt "pdf-a";
                  txt "certs/b.pdf" := txt "pdf-b" ]} {[ txt "certs" ]})
       !! txt "certs/b.pdf"
     = files two_files_fs !! txt "certs/b.pdf".
Proof.
  split.
  - destruct (proj1 (rename_file_target_exists conflict_fs (txt "certs/a.pdf")
                       (txt "2024-03-05") (txt "T")))
      as (n & Hn & Hr); [discriminate | discriminate |].
    vm_compute in Hn. injection Hn as <-. apply Hr. vm_compute. reflexivity.
  - apply (proj2 (rename_file_target_exists two_files_fs (txt "certs/a.pdf")
                    (txt "2024-03-05") (txt "T")) _
                 (txt "certs/2024-03-05-t.pdf") (txt "certs/b.pdf")).
    + vm_compute. reflexivity.
    + discriminate.
    + exists (txt "pdf-b"). vm_compute. reflexivity.
Defined.

(** C3, as the specification states it, fails: the target exists, nothing
    is renamed, and the path returned is the target, not the source. *)
Lemma rename_file_returns_target_not_source :
  os_path_exists conflict_fs (txt "certs/2024-03-05-t.pdf") = true
  /\ new_name (txt "2024-03-05") (txt "T") = Some (txt "2024-03-05-t.pdf")
  /\ rename_file conflict_fs (txt "certs/a.pdf") (txt "2024-03-05") (txt "T")
     <> Some (conflict_fs, txt "certs/a.pdf").
Proof.
  split; [vm_compute; reflexivity | split; [vm_compute; reflexivity |]].
  intros H. apply (f_equal (fmap snd)) in H. vm_compute in H. discriminate H.
Qed.

(** C10: a date text that is neither YYYY-MM-DD-prefixed nor of the form
    "Month day, year" goes into the new name as it is, and the file is
    renamed to that name under the same conditions as for any other name:
    the target differs from the source and does not exist (then
    [os.rename] runs, and succeeds when the source is a file and the
    target's directory exists). *)
Theorem rename_file_unrecognized_date fs file_path date title :
  date <> [] -> title <> [] ->
  re_match re_iso_date date = None ->
  re_match re_month_date date = None ->
  let name := date ++ txt "-" ++ clean_title title ++ txt ".pdf" in
  let new_path := os_path_join (os_path_dirname file_path) name in
  new_name date title = Some name
  /\ (file_path = new_path \/ os_path_exists fs new_path = true ->
      rename_file fs file_path date title = Some (fs, new_path))
  /\ (forall content,
         file_path <> new_path -> os_path_exists fs new_path = false ->
         files fs !! file_path = Some content ->
         dir_exists fs (os_path_dirname new_path) = true ->
         rename_file fs file_path date title
         = Some (FS (<[new_path := content]> (delete file_path (files fs)))
                    (dirs fs), new_path)).
Proof.
  intros Hd Ht Hiso Hmonth name new_path.
  assert (Hn : new_name date title = Some name).
  { unfold new_name, normalized_date. rewrite Hiso, Hmonth. reflexivity. }
  split; [exact Hn | split].
  - intros Hc. rewrite (rename_file_unfold _ _ _ _ _ Hd Ht Hn). cbv zeta.
    fold new_path. destruct Hc as [Heq | Hex].
    + apply str_eqb_true in Heq. rewrite Heq. reflexivity.
    + rewrite Hex, andb_false_r. reflexivity.
  - intros content Hne Hex Hsrc Hdir.
    rewrite (rename_file_unfold _ _ _ _ _ Hd Ht Hn). cbv zeta. fold new_path.
    apply str_eqb_false in Hne. rewrite Hne, Hex. simpl.
    unfold os_rename. rewrite Hsrc, Hdir. simpl.
    unfold os_path_exists in Hex. apply orb_false_iff in Hex as [_ Hex].
    rewrite Hex. reflexivity.
Qed.

Lemma rename_file_unrecognized_date_witness :
  new_name (txt "5 March 2024") (txt "T") = Some (txt "5 March 2024-t.pdf")
  /\ rename_file sample_fs (txt "certs/a.pdf") (txt "5 March 2024") (txt "T")
     = Some (FS {[ txt "certs/5 March 2024-t.pdf" := txt "pdf-a" ]}
                {[ txt "certs" ]},
             txt "certs/5 March 2024-t.pdf").
Proof.
  pose proof (rename_file_unrecognized_date sample_fs (txt "certs/a.pdf")
                (txt "5 March 2024") (txt "T")) as H.
  destruct H as [Hn [_ Hr]];
    [discriminate | discriminate | vm_compute; reflexivity
     | vm_compute; reflexivity |].
  split; [exact Hn |].
  rewrite (Hr (txt "pdf-a")); [vm_compute; reflexivity | | | |];
    try discriminate; vm_compute; reflexivity.
Defined.

(** ** The cybrary completion date *)

(** C4: the month of the long date form is the literal "May".  A document
    dated "January 3, 2024 10:05AM UTC" has no completion date extracted
    and gives no entry, where the same document dated in May gives one. *)
Theorem cybrary_date_only_may :
  re_search re_cybrary_date (clean_text cybrary_january) = None
  /\ (forall sha repo fs pdf_path release_tag test_mode url f fetch_urls,
         extract_metadata (fun _ => Some cybrary_january) sha repo fs pdf_path
                          release_tag test_mode url f fetch_urls (txt "cybrary")
         = (fs, None))
  /\ (m ← re_search re_cybrary_date (clean_text cybrary_may); group 1 m)
     = Some (txt "May 3, 2024 10:05AM UTC")
  /\ (completion <$>
        snd (extract_metadata (fun _ => Some cybrary_may) (fun _ => [])
               None sample_fs (txt "certs/a.pdf") (txt "certs") true
               (txt "https://lspironello.github.io") (Filters None None None)
               false (txt "cybrary")))
     = Some (txt "May 3, 2024 10:05AM UTC").
Proof.
  split; [vm_compute; reflexivity | split; [| split; vm_compute; reflexivity]].
  intros. vm_compute. reflexivity.
Qed.

(** ** The record builder: all required fields or no entry *)

Section BranchLemmas.

Variable sha256_hexdigest : str -> str.

Lemma branch_of_bound o fs x :
  branch_of o = Bound fs x -> o = Some (fs, x).
Proof. destruct o as [[? ?]|]; simpl; congruence. Qed.

Lemma extract_udemy_bound fs pdf_path text fs' x :
  extract_udemy sha256_hexdigest fs pdf_path text = Bound fs' x ->
  extracted_by re_udemy_title text str_strip (x_title x)
  /\ extracted_by re_udemy_date text str_strip (x_completion x).
Proof.
  unfold extract_udemy. intros H.
  destruct (re_search re_udemy_title text) as [tm|] eqn:Ht; [|discriminate].
  destruct (re_search re_udemy_date text) as [dm|] eqn:Hd; [|discriminate].
  apply branch_of_bound in H.
  destruct (group 1 tm) as [gt|] eqn:Egt; [|discriminate]. simpl in H.
  destruct (group 1 dm) as [gd|] eqn:Egd; [|discriminate]. simpl in H.
  destruct (match re_search re_udemy_instructor text with
            | Some im => _ | None => _ end); [|discriminate]. simpl in H.
  destruct (match match re_search re_udemy_cert_no text with
                  | Some m => _ | None => _ end with
            | Some cm => _ | None => _ end); [|discriminate]. simpl in H.
  destruct (year_of _); [|discriminate]. simpl in H.
  destruct (rename_file _ _ _ _) as [[? ?]|]; [|discriminate]. simpl in H.
  injection H as _ <-. simpl.
  split; do 2 eexists; eauto.
Qed.

Lemma extract_cybrary_bound fs pdf_path text fs' x :
  extract_cybrary fs pdf_path text = Bound fs' x ->
  extracted_by re_cybrary_title text str_strip (x_title x)
  /\ extracted_by re_cybrary_date text str_strip (x_completion x)
  /\ extracted_by re_cybrary_cert text (fun g => g) (x_cert_id x).
Proof.
  unfold extract_cybrary. intros H.
  destruct (re_search re_cybrary_title text) as [tm|] eqn:Ht; [|discriminate].
  destruct (re_search re_cybrary_date text) as [dm|] eqn:Hd; [|discriminate].
  destruct (re_search re_cybrary_cert text) as [cm|] eqn:Hc; [|discriminate].
  apply branch_of_bound in H.
  destruct (group 1 tm) as [gt|] eqn:Egt; [|discriminate]. simpl in H.
  destruct (group 1 dm) as [gd|] eqn:Egd; [|discriminate]. simpl in H.
  destruct (group 1 cm) as [gc|] eqn:Egc; [|discriminate]. simpl in H.
  destruct (year_of _); [|discriminate]. simpl in H.
  injection H as _ <-. simpl.
  repeat split; do 2 eexists; eauto.
Qed.

Lemma extract_deeplearningai_bound fs pdf_path text fs' x :
  extract_deeplearningai sha256_hexdigest fs pdf_path text = Bound fs' x ->
  extracted_by re_dl_title text str_strip (x_title x)
  /\ extracted_by re_dl_filename_date (os_path_basename pdf_path)
                  (fun g => g) (x_completion x).
Proof.
  unfold extract_deeplearningai. intros H.
  destruct (re_search re_dl_title text) as [tm|] eqn:Ht; [|discriminate].
  destruct (re_search re_dl_filename_date _) as [fm|] eqn:Hd; [|discriminate].
  apply branch_of_bound in H.
  destruct (group 1 tm) as [gt|] eqn:Egt; [|discriminate]. simpl in H.
  destruct (group 1 fm) as [gd|] eqn:Egd; [|discriminate]. simpl in H.
  destruct (generate_cert_id _ _ _); [|discriminate]. simpl in H.
  injection H as _ <-. simpl.
  split; do 2 eexists; eauto.
Qed.

Lemma extract_linkedinlearning_bound fs pdf_path text fs' x :
  extract_linkedinlearning sha256_hexdigest fs pdf_path text = Bound fs' x ->
  extracted_by re_li_title (os_path_basename pdf_path)
               (fun g => str_replace_char "_" " " (str_strip g)) (x_title x)
  /\ extracted_by re_li_date text str_strip (x_completion x).
Proof.
  unfold extract_linkedinlearning. intros H.
  destruct (re_search re_li_title _) as [tm|] eqn:Ht; [|discriminate].
  destruct (re_search re_li_date text) as [dm|] eqn:Hd; [|discriminate].
  apply branch_of_bound in H.
  destruct (group 1 tm) as [gt|] eqn:Egt; [|discriminate]. simpl in H.
  destruct (group 1 dm) as [gd|] eqn:Egd; [|discriminate]. simpl in H.
  destruct (match re_search re_li_cert text with
            | Some cm => _ | None => _ end); [|discriminate]. simpl in H.
  destruct (year_of _); [|discriminate]. simpl in H.
  injection H as _ <-. simpl.
  split; do 2 eexists; eauto.
Qed.

End BranchLemmas.

(** C1: whenever [extract_metadata] returns an entry, the provider is one
    of the four, and the entry's title and completion date (and for cybrary
    its certificate id) are what the provider's patterns matched; in every
    other case it returns no entry. *)
Theorem extract_metadata_complete_or_none
        pdf_text sha256_hexdigest repo fs pdf_path release_tag test_mode
        github_page_url f fetch_urls provider_id fs' r :
  extract_metadata pdf_text sha256_hexdigest repo fs pdf_path release_tag
                   test_mode github_page_url f fetch_urls provider_id
  = (fs', Some r) ->
  exists raw,
    pdf_text pdf_path = Some raw
    /\ provider r = provider_id
    /\ required_fields_extracted provider_id (clean_text raw)
                                 (os_path_basename pdf_path) r.
Proof.
  unfold extract_metadata. intros H.
  destruct (pdf_text pdf_path) as [raw|]; [|discriminate].
  exists raw. split; [reflexivity|].
  match type of H with
  | match ?b with _ => _ end = _ => destruct b as [fs1 x| |] eqn:Hb
  end; try discriminate.
  destruct (filtered_out f x); [discriminate|].
  match type of H with
  | match ?u with _ => _ end = _ => destruct u as [url|]
  end; [|discriminate].
  injection H as _ <-. simpl. split; [reflexivity|].
  unfold required_fields_extracted. simpl.
  destruct (str_eqb provider_id (txt "udemy")) eqn:E1.
  { apply str_eqb_true in E1. left. split; [exact E1|].
    eapply extract_udemy_bound; eauto. }
  destruct (str_eqb provider_id (txt "cybrary")) eqn:E2.
  { apply str_eqb_true in E2. right; left. split; [exact E2|].
    eapply extract_cybrary_bound; eauto. }
  destruct (str_eqb provider_id (txt "deeplearningai")) eqn:E3.
  { apply str_eqb_true in E3. right; right; left. split; [exact E3|].
    eapply extract_deeplearningai_bound; eauto. }
  destruct (str_eqb provider_id (txt "linkedinlearning")) eqn:E4.
  { apply str_eqb_true in E4. right; right; right. split; [exact E4|].
    eapply extract_linkedinlearning_bound; eauto. }
  discriminate.
Qed.

Lemma extract_metadata_complete_or_none_witness :
  exists raw,
    Some cybrary_may = Some raw
    /\ provider cybrary_may_entry = txt "cybrary"
    /\ required_fields_extracted (txt "cybrary") (clean_text raw)
                                 (os_path_basename (txt "certs/a.pdf"))
                                 cybrary_may_entry.
Proof.
  apply (extract_metadata_complete_or_none
           (fun _ => Some cybrary_may) (fun _ => []) None sample_fs
           (txt "certs/a.pdf") (txt "certs") true
           (txt "https://lspironello.github.io") (Filters None None None)
           false (txt "cybrary") sample_fs cybrary_may_entry).
  vm_compute. reflexivity.
Defined.

(** ** The deeplearningai skills *)

Lemma is_c_true a c : Char.is_c a c = true -> c = a.
Proof. unfold Char.is_c. intros H. apply Ascii.eqb_eq in H. congruence. Qed.

Lemma ahead_stop st st' :
  In st' (matches (alts [lit "."; lit "!"; nl]) st) ->
  exists c t, rest st = c :: t /\ is_stop c.
Proof.
  cbn [alts]. unfold lit, nl. cbn [txt list_ascii_of_string map seqs].
  rewrite !matches_alt, !matches_chr. intros Hin.
  destruct (rest st) as [|c t]; [repeat (apply in_app_iff in Hin as [Hin|Hin]);
                                 destruct Hin|].
  exists c, t. split; [reflexivity|]. unfold is_stop.
  apply in_app_iff in Hin as [Hin|Hin]; [|apply in_app_iff in Hin as [Hin|Hin]].
  - destruct (Char.is_c "." c) eqn:E; [|destruct Hin]. left. exact (is_c_true _ _ E).
  - destruct (Char.is_c "!" c) eqn:E; [|destruct Hin].
    right; left. exact (is_c_true _ _ E).
  - destruct (Char.is_c Char.newline c) eqn:E; [|destruct Hin].
    right; right. exact (is_c_true _ _ E).
Qed.

(** A title is found only in a text with a full stop, an exclamation mark
    or a line break. *)
Lemma dl_title_needs_stop text m :
  re_search re_dl_title text = Some m -> exists c, In c text /\ is_stop c.
Proof.
  intros H. apply search_from_suffix in H as (pre & s' & p' & -> & H).
  unfold match_here in H. apply head_In in H.
  unfold re_dl_title in H. cbn [seqs] in H.
  rewrite matches_seq in H. apply in_flat_map in H as (st1 & H1 & H).
  rewrite matches_seq in H. apply in_flat_map in H as (st2 & H2 & H).
  apply matches_suffix in H1 as [pre1 H1]. apply matches_suffix in H2 as [pre2 H2].
  cbn [rest] in H1. cbn [matches] in H.
  destruct (matches (alts [lit "."; lit "!"; nl]) st2) as [|stx l] eqn:Hx;
    [destruct H|].
  assert (Hin : In stx (matches (alts [lit "."; lit "!"; nl]) st2))
    by (rewrite Hx; left; reflexivity).
  apply ahead_stop in Hin as (c & t & Hr & Hc).
  exists c. split; [|exact Hc].
  rewrite H1, H2, Hr. rewrite !in_app_iff. right. right. right. left. reflexivity.
Qed.

Lemma clean_text_no_newline text : ~ In Char.newline (clean_text text).
Proof.
  intros Hin. destruct (clean_text_tidy text) as [[_ Hf] _].
  rewrite List.Forall_forall in Hf. specialize (Hf _ Hin eq_refl). discriminate.
Qed.

Lemma greedy_states_read p cs : forall s prv st',
  In st' (greedy_states p s prv cs) ->
  exists pre, s = pre ++ rest st' /\ Forall (fun c => p c = true) pre.
Proof.
  induction s as [|c t IH]; intros prv st' Hin; cbn [greedy_states] in Hin.
  - destruct Hin as [<-|[]]. exists []. split; [reflexivity | constructor].
  - destruct (p c) eqn:Hp.
    + apply in_app_iff in Hin as [Hin|[<-|[]]].
      * apply IH in Hin as (pre & -> & Hf). exists (c :: pre).
        split; [reflexivity | constructor; assumption].
      * exists []. split; [reflexivity | constructor].
    + destruct Hin as [<-|[]]. exists []. split; [reflexivity | constructor].
Qed.

Lemma upper_is_alpha_or_space c : Char.is_upper_az c = true -> alpha_or_space c = true.
Proof.
  unfold alpha_or_space, Char.is_alpha_az. intros ->. reflexivity.
Qed.

(** Where the skills pattern matches: at the start of the text or after a
    line break, over letters and white space, up to the end of the text or
    a line break. *)
Lemma dl_skills_match p s st :
  match_here re_dl_skills p s = Some st ->
  (p = None \/ p = Some Char.newline)
  /\ exists pre suf,
       s = pre ++ suf
       /\ Forall (fun c => alpha_or_space c = true) pre
       /\ match suf with [] => True | c :: _ => c = Char.newline end.
Proof.
  unfold match_here. intros H. apply head_In in H.
  unfold re_dl_skills in H. cbn [seqs] in H.
  rewrite matches_seq in H. apply in_flat_map in H as (st1 & H1 & H).
  cbn [matches prev] in H1.
  assert (Hp : (p = None \/ p = Some Char.newline)
               /\ st1 = MState s p []).
  { destruct p as [c|].
    - destruct (Char.is_c Char.newline c) eqn:E; [|destruct H1].
      destruct H1 as [<-|[]]. apply is_c_true in E. subst c. auto.
    - destruct H1 as [<-|[]]. auto. }
  destruct Hp as [Hp ->]. split; [exact Hp|].
  rewrite matches_seq in H. apply in_flat_map in H as (st2 & H2 & H).
  rewrite matches_group in H2. apply in_map_iff in H2 as (st3 & <- & H3).
  cbn [rest] in H. unfold Plus in H3.
  rewrite matches_seq in H3. apply in_flat_map in H3 as (st4 & H4 & H3).
  rewrite matches_chr in H4. cbn [rest caps] in H4.
  destruct s as [|c t]; [destruct H4|].
  destruct (Char.is_upper_az c) eqn:Hc; [|destruct H4]. destruct H4 as [<-|[]].
  rewrite matches_seq in H3. apply in_flat_map in H3 as (st5 & H5 & H3).
  rewrite matches_chr in H5. cbn [rest caps] in H5.
  destruct t as [|d t']; [destruct H5|].
  destruct (alpha_or_space d) eqn:Hd; [|destruct H5]. destruct H5 as [<-|[]].
  rewrite matches_star in H3. cbn [rest] in H3.
  rewrite (star_loop_chars _ alpha_or_space []) in H3
    by (intros; reflexivity || lia).
  apply greedy_states_read in H3 as (pre & -> & Hf).
  exists (c :: d :: pre), (rest st3). split; [reflexivity|].
  split.
  - constructor; [apply upper_is_alpha_or_space; exact Hc|].
    constructor; assumption.
  - cbn [matches rest] in H. destruct (rest st3) as [|e u]; [exact I|].
    destruct (Char.is_c Char.newline e) eqn:E; [|destruct H].
    apply is_c_true in E. exact E.
Qed.

Lemma findall_dl_skills_inner : forall s c,
  c <> Char.newline -> ~ In Char.newline s ->
  findall_scan re_dl_skills 0 (Some c) s = [].
Proof.
  induction s as [|d t IH]; intros c Hc Hs; cbn [findall_scan].
  - destruct (match_here re_dl_skills (Some c) []) as [st|] eqn:Hm; [|reflexivity].
    apply dl_skills_match in Hm as [[Hp|Hp] _]; congruence.
  - destruct (match_here re_dl_skills (Some c) (d :: t)) as [st|] eqn:Hm.
    + apply dl_skills_match in Hm as [[Hp|Hp] _]; congruence.
    + apply IH; intros H; apply Hs; [left; exact H | right; exact H].
Qed.

(** In a text of one line that has a character other than a letter or
    white space, the skills pattern matches nowhere. *)
Lemma findall_dl_skills_none text b :
  ~ In Char.newline text -> In b text -> alpha_or_space b = false ->
  re_findall re_dl_skills text = [].
Proof.
  intros Hnl Hb Hcls. unfold re_findall.
  destruct text as [|c t]; [destruct Hb|]. cbn [findall_scan].
  destruct (match_here re_dl_skills None (c :: t)) as [st|] eqn:Hm.
  - exfalso. apply dl_skills_match in Hm as [_ (pre & suf & Heq & Hf & Hsuf)].
    destruct suf as [|e u].
    + rewrite app_nil_r in Heq. subst pre.
      rewrite List.Forall_forall in Hf. specialize (Hf _ Hb). congruence.
    + subst e. apply Hnl. rewrite Heq. apply in_app_iff. right. left. reflexivity.
  - apply findall_dl_skills_inner.
    + intros ->. apply Hnl. left. reflexivity.
    + intros H. apply Hnl. right. exact H.
Qed.

Lemma lines_aux_one_line : forall s acc,
  ~ In Char.newline s -> lines_aux acc s = [rev acc ++ s].
Proof.
  induction s as [|c t IH]; intros acc Hnl; cbn [lines_aux].
  - rewrite app_nil_r. reflexivity.
  - destruct (Char.is_c Char.newline c) eqn:E.
    + apply is_c_true in E. subst c. exfalso. apply Hnl. left. reflexivity.
    + rewrite IH by (intros H; apply Hnl; right; exact H).
      cbn [rev]. rewrite <- app_assoc. reflexivity.
Qed.

Lemma capitalized_words_letters : forall s b c,
  capitalized_words b s = true -> In c s -> alpha_or_space c = true.
Proof.
  induction s as [|d t IH]; intros b c H Hin; [destruct Hin|].
  cbn [capitalized_words] in H. unfold alpha_or_space in *.
  destruct (Char.is_space d) eqn:Hd.
  - destruct Hin as [<-|Hin]; [rewrite Hd; apply orb_true_r | eauto].
  - destruct b; apply andb_true_iff in H as [H1 H2];
      (destruct Hin as [<-|Hin]; [|eauto]).
    + unfold Char.is_alpha_az. rewrite H1. reflexivity.
    + rewrite H1. reflexivity.
Qed.

Lemma stop_not_letter c :
  is_stop c -> c <> Char.newline -> alpha_or_space c = false.
Proof.
  intros [H|[H|H]] Hn; subst c; [reflexivity | reflexivity | congruence].
Qed.

(** In such a text the specification finds no skill line either. *)
Lemma spec_skills_none text b :
  ~ In Char.newline text -> In b text -> alpha_or_space b = false ->
  spec_skills text = [].
Proof.
  intros Hnl Hb Hcls. unfold spec_skills, spec_lines.
  rewrite lines_aux_one_line by exact Hnl. cbn [rev app List.filter].
  unfold spec_skill_line.
  destruct (capitalized_words true text) eqn:Hw; [|reflexivity].
  rewrite (capitalized_words_letters _ _ _ Hw Hb) in Hcls. discriminate.
Qed.

Lemma extract_deeplearningai_skills sha fs pdf_path text fs' x :
  extract_deeplearningai sha fs pdf_path text = Bound fs' x ->
  (exists tm, re_search re_dl_title text = Some tm)
  /\ x_skills x
     = str_join (txt ", ")
         (map str_strip
            (List.filter (fun s => negb (is_empty (str_strip s))
                                   && (2 <? length (str_strip s)))
                         (re_findall re_dl_skills text))).
Proof.
  unfold extract_deeplearningai. intros H.
  destruct (re_search re_dl_title text) as [tm|] eqn:Ht; [|discriminate].
  destruct (re_search re_dl_filename_date _) as [fm|] eqn:Hd; [|discriminate].
  apply branch_of_bound in H.
  destruct (group 1 tm) as [gt|] eqn:Egt; [|discriminate]. simpl in H.
  destruct (group 1 fm) as [gd|] eqn:Egd; [|discriminate]. simpl in H.
  destruct (generate_cert_id _ _ _); [|discriminate]. simpl in H.
  injection H as _ <-. simpl. split; [eauto | reflexivity].
Qed.

(** C5: the skills of a deeplearningai entry are the join of those lines
    of the normalised text that consist only of capitalised words and are
    longer than 2 once trimmed.  The normalised text is a single line, and
    an entry is returned only if that line has a full stop or an
    exclamation mark after the title, so no line qualifies and the skills
    are empty. *)
Theorem deeplearningai_skills
        pdf_text sha256_hexdigest repo fs pdf_path release_tag test_mode
        github_page_url f fetch_urls fs' r :
  extract_metadata pdf_text sha256_hexdigest repo fs pdf_path release_tag
                   test_mode github_page_url f fetch_urls (txt "deeplearningai")
  = (fs', Some r) ->
  exists raw,
    pdf_text pdf_path = Some raw
    /\ skills r = spec_skills (clean_text raw)
    /\ skills r = [].
Proof.
  unfold extract_metadata. intros H.
  destruct (pdf_text pdf_path) as [raw|]; [|discriminate].
  exists raw. split; [reflexivity|].
  replace (str_eqb (txt "deeplearningai") (txt "udemy")) with false in H
    by (vm_compute; reflexivity).
  replace (str_eqb (txt "deeplearningai") (txt "cybrary")) with false in H
    by (vm_compute; reflexivity).
  replace (str_eqb (txt "deeplearningai") (txt "deeplearningai")) with true in H
    by (vm_compute; reflexivity).
  destruct (extract_deeplearningai _ _ _ _) as [fs1 x| |] eqn:Hb; try discriminate.
  destruct (filtered_out f x); [discriminate|].
  match type of H with
  | match ?u with _ => _ end = _ => destruct u as [url|]
  end; [|discriminate].
  injection H as _ <-. cbn [skills].
  apply extract_deeplearningai_skills in Hb as [[tm Htm] Hsk].
  apply dl_title_needs_stop in Htm as (c & Hin & Hstop).
  pose proof (clean_text_no_newline raw) as Hnl.
  assert (Hc : alpha_or_space c = false).
  { apply stop_not_letter; [exact Hstop|]. intros ->. exact (Hnl Hin). }
  rewrite (findall_dl_skills_none _ c Hnl Hin Hc) in Hsk.
  rewrite (spec_skills_none _ c Hnl Hin Hc).
  split; exact Hsk.
Qed.

Lemma deeplearningai_skills_witness :
  exists raw,
    Some dl_text = Some raw
    /\ skills dl_entry = spec_skills (clean_text raw)
    /\ skills dl_entry = [].
Proof.
  apply (deeplearningai_skills
           (fun _ => Some dl_text) (fun _ => txt "0123456789abcdef") None dl_fs
           (txt "certs/2024-01-02-nets.pdf") (txt "certs") true
           (txt "https://lspironello.github.io") (Filters None None None)
           false dl_fs dl_entry).
  vm_compute. reflexivity.
Defined.

(** The skills pattern itself, on texts that the normaliser never gives it:
    only the first letter has to be upper-case, and white space includes
    the line break. *)
Example dl_skills_pattern_samples :
  re_findall re_dl_skills (txt "Deep learning") = [txt "Deep learning"]
  /\ re_findall re_dl_skills (txt "Deep Learning.") = [].
Proof. split; vm_compute; reflexivity. Qed.

(** ** Course URLs *)

(** C8 (as the code has it): the slug is the lowercased title with every
    character other than word characters (alphanumerics and the
    underscore), whitespace and hyphens removed, spaces replaced by
    hyphens, and leading and trailing hyphens trimmed; a known provider's
    URL is its template around the slug and any other provider's is empty;
    "C++ Basics: Pointers" gives "c-basics-pointers". *)
Theorem generate_course_url_slug title provider_id :
  slug title
  = str_strip_char "-"
      (str_replace_char " " "-"
         (List.filter (fun c => Char.is_word c || Char.is_space c || Char.is_c "-" c)
                      (str_lower title)))
  /\ generate_course_url title (txt "linkedinlearning")
     = txt "https://www.linkedin.com/learning/" ++ slug title
  /\ generate_course_url title (txt "udemy")
     = txt "https://www.udemy.com/course/" ++ slug title ++ txt "/"
  /\ generate_course_url title (txt "cybrary")
     = txt "https://www.cybrary.it/course/" ++ slug title ++ txt "/"
  /\ generate_course_url title (txt "deeplearningai")
     = txt "https://www.deeplearning.ai/short-courses/" ++ slug title ++ txt "/"
  /\ (~ In provider_id [txt "linkedinlearning"; txt "udemy"; txt "cybrary";
                        txt "deeplearningai"] ->
      generate_course_url title provider_id = [])
  /\ slug (txt "C++ Basics: Pointers") = txt "c-basics-pointers".
Proof.
  split.
  { unfold slug, re_not_word_space_hyphen. rewrite re_sub_chr_remove.
    do 2 f_equal. apply filter_ext. intros c. apply negb_involutive. }
  repeat split; try reflexivity.
  intros Hno. unfold generate_course_url.
  repeat match goal with
         | |- context [str_eqb provider_id ?p] =>
             let E := fresh "E" in
             destruct (str_eqb provider_id p) eqn:E;
             [apply str_eqb_true in E; exfalso; apply Hno; rewrite E; simpl; tauto|]
         end.
  reflexivity.
Qed.

Lemma generate_course_url_slug_witness :
  generate_course_url (txt "C++ Basics: Pointers") (txt "coursera") = [].
Proof.
  apply (generate_course_url_slug (txt "C++ Basics: Pointers") (txt "coursera")).
  simpl. intros [H|[H|[H|[H|[]]]]]; discriminate H.
Defined.

(** C8, as the specification states it, fails: the underscore is kept, and
    whitespace other than the space is kept and not made a hyphen. *)
Lemma slug_keeps_underscore :
  slug (txt "a_b") = txt "a_b"
  /\ spec_slug (txt "a_b") = txt "ab"
  /\ slug (txt "a_b") <> spec_slug (txt "a_b")
  /\ generate_course_url (txt "a_b") (txt "udemy")
     = txt "https://www.udemy.com/course/a_b/".
Proof.
  repeat split; try (vm_compute; reflexivity).
  vm_compute. discriminate.
Qed.

(** ** More on the text normaliser *)

Lemma rev_rstrip_by p s : rev (rstrip_by p s) = lstrip_by p (rev s).
Proof. unfold rstrip_by. apply rev_involutive. Qed.

Lemma Forall_strip_by (P : ascii -> Prop) p s :
  Forall P s -> Forall P (strip_by p s).
Proof.
  intros Hf. unfold strip_by.
  destruct (lstrip_by_split p s) as [pre Hpre].
  destruct (rstrip_by_split p (lstrip_by p s)) as [suf Hsuf].
  rewrite Hpre in Hf. apply Forall_app in Hf as [_ Hf].
  rewrite Hsuf in Hf. apply Forall_app in Hf as [Hf _]. exact Hf.
Qed.

Lemma In_strip_by p s c : In c (strip_by p s) -> In c s.
Proof.
  intros Hin. unfold strip_by in Hin.
  destruct (lstrip_by_split p s) as [pre Hpre].
  destruct (rstrip_by_split p (lstrip_by p s)) as [suf Hsuf].
  rewrite Hpre, Hsuf. rewrite !in_app_iff. auto.
Qed.

Lemma lstrip_by_keeps p s c : In c s -> p c = false -> In c (lstrip_by p s).
Proof.
  induction s as [|d t IH]; intros Hin Hc; [destruct Hin|].
  cbn [lstrip_by]. destruct (p d) eqn:Hd; [|exact Hin].
  destruct Hin as [->|Hin]; [congruence | auto].
Qed.

Lemma strip_by_keeps p s c : In c s -> p c = false -> In c (strip_by p s).
Proof.
  intros Hin Hc. unfold strip_by, rstrip_by.
  apply (proj1 (List.in_rev _ _)). apply lstrip_by_keeps; [|exact Hc].
  apply (proj1 (List.in_rev _ _)). apply lstrip_by_keeps; assumption.
Qed.

Lemma length_strip_by p s : length (strip_by p s) <= length s.
Proof.
  unfold strip_by, rstrip_by. rewrite length_rev.
  etransitivity; [apply length_lstrip_by|]. rewrite length_rev.
  apply length_lstrip_by.
Qed.

Lemma strip_by_all p s : Forall (fun c => p c = true) s -> strip_by p s = [].
Proof.
  intros Hf. unfold strip_by.
  assert (H : lstrip_by p s = []).
  { induction Hf as [|c t Hc _ IH]; [reflexivity|]. cbn [lstrip_by]. rewrite Hc. exact IH. }
  rewrite H. reflexivity.
Qed.

(** The characters of the two scans. *)
Lemma squeeze_aux_In : forall s last c, In c (squeeze_aux last s) -> In c s.
Proof.
  induction s as [|d t IH]; intros last c Hin; [destruct Hin|].
  cbn [squeeze_aux] in Hin.
  destruct (match last with Some r => Ascii.eqb r d | None => false end).
  - right. eapply IH; eauto.
  - destruct Hin as [->|Hin]; [left; reflexivity | right; eapply IH; eauto].
Qed.

Lemma squeeze_aux_keeps : forall s last c,
  In c s -> In c (squeeze_aux last s) \/ last = Some c.
Proof.
  induction s as [|d t IH]; intros last c Hin; [destruct Hin|].
  cbn [squeeze_aux].
  destruct (match last with Some r => Ascii.eqb r d | None => false end) eqn:Hskip.
  - destruct Hin as [<-|Hin]; [|apply IH; exact Hin].
    right. destruct last as [r|]; [|discriminate].
    apply Ascii.eqb_eq in Hskip. congruence.
  - left. destruct Hin as [<-|Hin]; [left; reflexivity|].
    destruct (IH (if Char.dot d then Some d else None) c Hin) as [H|H].
    + right. exact H.
    + left. destruct (Char.dot d); [congruence | discriminate].
Qed.

Lemma length_squeeze_aux : forall s last, length (squeeze_aux last s) <= length s.
Proof.
  induction s as [|d t IH]; intros last; [reflexivity|].
  cbn [squeeze_aux]. destruct (match last with Some _ => _ | None => _ end).
  - simpl. specialize (IH last). lia.
  - simpl. specialize (IH (if Char.dot d then Some d else None)). lia.
Qed.

Lemma wsnorm_aux_In : forall s b c,
  In c (wsnorm_aux b s) -> (In c s /\ Char.is_space c = false) \/ c = " "%char.
Proof.
  induction s as [|d t IH]; intros b c Hin; [destruct Hin|].
  cbn [wsnorm_aux] in Hin. destruct (Char.is_space d) eqn:Hd.
  - destruct b.
    + apply IH in Hin as [[H1 H2]|H]; [left; split; [right|]; assumption | right; exact H].
    + destruct Hin as [<-|Hin]; [right; reflexivity|].
      apply IH in Hin as [[H1 H2]|H]; [left; split; [right|]; assumption | right; exact H].
  - destruct Hin as [<-|Hin]; [left; split; [left; reflexivity | exact Hd]|].
    apply IH in Hin as [[H1 H2]|H]; [left; split; [right|]; assumption | right; exact H].
Qed.

Lemma wsnorm_aux_keeps : forall s b c,
  In c s -> Char.is_space c = false -> In c (wsnorm_aux b s).
Proof.
  induction s as [|d t IH]; intros b c Hin Hc; [destruct Hin|].
  cbn [wsnorm_aux]. destruct (Char.is_space d) eqn:Hd.
  - destruct Hin as [->|Hin]; [congruence|].
    destruct b; [|right]; apply IH; assumption.
  - destruct Hin as [->|Hin]; [left; reflexivity | right; apply IH; assumption].
Qed.

Lemma length_wsnorm_aux : forall s b, length (wsnorm_aux b s) <= length s.
Proof.
  induction s as [|d t IH]; intros b; [reflexivity|].
  cbn [wsnorm_aux]. destruct (Char.is_space d); [destruct b|]; simpl.
  - specialize (IH true). lia.
  - specialize (IH true). lia.
  - specialize (IH false). lia.
Qed.

(** X1: a normalised text has no white space at either end, its only
    white space is the single space, and no character is followed by
    itself (so no two spaces meet either). *)
Theorem clean_text_normal_form text :
  head_not Char.is_space (clean_text text)
  /\ head_not Char.is_space (rev (clean_text text))
  /\ Forall only_space (clean_text text)
  /\ adj (fun c d => c <> d) (clean_text text).
Proof.
  destruct (clean_text_tidy text) as [[Ha Hf] Hh].
  split; [exact Hh|]. split; [|split; assumption].
  rewrite clean_text_scans. unfold str_strip, strip_by.
  rewrite rev_rstrip_by. apply lstrip_by_head_not.
Qed.

(** X2: the normaliser invents nothing and loses no kind of character: a
    character that is not white space occurs in the normalised text exactly
    if it occurs in the text, and the normalised text is not longer than
    the text. *)
Theorem clean_text_keeps_characters text c :
  Char.is_space c = false ->
  (In c (clean_text text) <-> In c text)
  /\ length (clean_text text) <= length text.
Proof.
  intros Hc. rewrite clean_text_scans. split; [split|].
  - intros Hin. apply In_strip_by in Hin.
    apply wsnorm_aux_In in Hin as [[Hin _]| ->].
    + eapply squeeze_aux_In. exact Hin.
    + discriminate.
  - intros Hin. apply strip_by_keeps; [|exact Hc].
    apply wsnorm_aux_keeps; [|exact Hc].
    destruct (squeeze_aux_keeps text None c Hin) as [H|H]; [exact H | discriminate].
  - etransitivity; [apply length_strip_by|].
    etransitivity; [apply length_wsnorm_aux | apply length_squeeze_aux].
Qed.

Lemma clean_text_keeps_characters_witness :
  (In "b"%char (clean_text (txt "aa  bb")) <-> In "b"%char (txt "aa  bb"))
  /\ length (clean_text (txt "aa  bb")) <= length (txt "aa  bb").
Proof.
  apply (clean_text_keeps_characters (txt "aa  bb") "b"%char). reflexivity.
Defined.

(** X3: the normalised text is empty exactly if the text is white space
    only (the empty text included). *)
Theorem clean_text_empty_iff text :
  clean_text text = [] <-> Forall (fun c => Char.is_space c = true) text.
Proof.
  rewrite clean_text_scans. split.
  - intros He. apply List.Forall_forall. intros c Hin.
    destruct (Char.is_space c) eqn:Hc; [reflexivity|]. exfalso.
    assert (H : In c (str_strip (wsnorm_aux false (squeeze_aux None text)))).
    { apply strip_by_keeps; [|exact Hc]. apply wsnorm_aux_keeps; [|exact Hc].
      destruct (squeeze_aux_keeps text None c Hin) as [H|H]; [exact H | discriminate]. }
    rewrite He in H. destruct H.
  - intros Hf. apply strip_by_all. apply List.Forall_forall. intros c Hin.
    apply wsnorm_aux_In in Hin as [[Hin Hc]| ->]; [|reflexivity].
    apply squeeze_aux_In in Hin. rewrite List.Forall_forall in Hf.
    rewrite (Hf _ Hin) in Hc. discriminate.
Qed.

(** ** The shape of slugs and of the title part of a file name *)

Ltac each_char c := destruct c as [[] [] [] [] [] [] [] []].

Lemma lower_lower c : Char.lower (Char.lower c) = Char.lower c.
Proof. each_char c; reflexivity. Qed.

Lemma lower_keeps_word_or_hyphen c :
  Char.is_word c || Char.is_c "-" c = true ->
  Char.is_word (Char.lower c) || Char.is_c "-" (Char.lower c) = true
  /\ Char.is_c " " (Char.lower c) = false
  /\ Char.is_c "/" (Char.lower c) = false.
Proof. each_char c; vm_compute; intros H; try discriminate H; auto. Qed.

Lemma is_c_false a c : Char.is_c a c = false -> c <> a.
Proof.
  unfold Char.is_c. intros H ->. rewrite Ascii.eqb_refl in H. discriminate.
Qed.

Lemma replace_char_absent a b s :
  Forall (fun c => Char.is_c a c = false) s -> str_replace_char a b s = s.
Proof.
  induction 1 as [|c t Hc _ IH]; [reflexivity|].
  unfold str_replace_char in *. cbn [map]. rewrite Hc, IH. reflexivity.
Qed.

(** X4: a slug is in lower case, has no space, neither starts nor ends
    with a hyphen, and holds only word characters, hyphens and white space
    other than the space. *)
Theorem slug_shape title :
  head_not (Char.is_c "-") (slug title)
  /\ head_not (Char.is_c "-") (rev (slug title))
  /\ str_lower (slug title) = slug title
  /\ Forall (fun c => Char.is_word c || Char.is_space c || Char.is_c "-" c = true
                      /\ c <> " "%char)
            (slug title).
Proof.
  unfold slug, str_strip_char.
  split; [apply strip_by_head_not|].
  split; [unfold strip_by; rewrite rev_rstrip_by; apply lstrip_by_head_not|].
  unfold re_not_word_space_hyphen. rewrite re_sub_chr_remove.
  set (kept := List.filter _ (str_lower title)).
  assert (Hk : Forall (fun c => (Char.is_word c || Char.is_space c || Char.is_c "-" c = true
                                 /\ c <> " "%char) /\ Char.lower c = c)
                      (str_replace_char " " "-" kept)).
  { apply List.Forall_forall. intros c Hin. unfold str_replace_char in Hin.
    apply in_map_iff in Hin as (c0 & <- & Hin0). subst kept.
    apply filter_In in Hin0 as [Hin0 Hkeep]. apply negb_true_iff, negb_false_iff in Hkeep.
    destruct (Char.is_c " " c0) eqn:Hsp.
    - repeat split; discriminate.
    - split; [split; [exact Hkeep | apply is_c_false; exact Hsp]|].
      unfold str_lower in Hin0. apply in_map_iff in Hin0 as (c1 & <- & _).
      apply lower_lower. }
  apply (Forall_strip_by _ (Char.is_c "-")) in Hk.
  split.
  - unfold str_lower. rewrite <- (map_id (strip_by _ _)) at 2.
    apply map_ext_in. intros c Hin. rewrite List.Forall_forall in Hk.
    apply (Hk c Hin).
  - eapply List.Forall_impl; [|exact Hk]. intros c [H _]. exact H.
Qed.

(** The title part of a file name, character by character. *)
Lemma clean_title_chars title :
  clean_title title
  = str_lower (List.filter (fun c => Char.is_word c || Char.is_c "-" c) title)
  /\ Forall (fun c => Char.is_word c || Char.is_c "-" c = true
                      /\ Char.is_c " " c = false
                      /\ Char.is_c "/" c = false)
            (clean_title title).
Proof.
  unfold clean_title, re_not_word_hyphen. rewrite re_sub_chr_remove.
  set (kept := List.filter _ title).
  assert (Hkept : kept = List.filter (fun c => Char.is_word c || Char.is_c "-" c) title).
  { subst kept. apply filter_ext. intros c. apply negb_involutive. }
  assert (Hl : Forall (fun c => Char.is_word c || Char.is_c "-" c = true
                                /\ Char.is_c " " c = false
                                /\ Char.is_c "/" c = false)
                      (str_lower kept)).
  { apply List.Forall_forall. intros c Hin. unfold str_lower in Hin.
    apply in_map_iff in Hin as (c0 & <- & Hin0). rewrite Hkept in Hin0.
    apply filter_In in Hin0 as [_ Hkeep]. apply lower_keeps_word_or_hyphen. exact Hkeep. }
  rewrite replace_char_absent
    by (eapply List.Forall_impl; [|exact Hl]; intros c (_ & H & _); exact H).
  split; [rewrite Hkept; reflexivity | exact Hl].
Qed.

(** X5: the title part of a derived file name is the title's word
    characters and hyphens, in lower case: the replacement of spaces by
    hyphens finds no space to replace, and the part never holds a space or
    a slash. *)
Theorem clean_title_shape title :
  clean_title title
  = str_lower (List.filter (fun c => Char.is_word c || Char.is_c "-" c) title)
  /\ Forall (fun c => Char.is_word c || Char.is_c "-" c = true) (clean_title title)
  /\ ~ In " "%char (clean_title title)
  /\ ~ In "/"%char (clean_title title).
Proof.
  destruct (clean_title_chars title) as [Heq Hl].
  rewrite List.Forall_forall in Hl.
  split; [exact Heq|].
  split; [apply List.Forall_forall; intros c Hin; apply (Hl c Hin)|].
  split; intros Hin; apply Hl in Hin as (_ & H1 & H2); discriminate.
Qed.

(** ** What the date patterns capture *)

Lemma star_loop_caps step g :
  (forall st st', In st' (step st) -> caps st' = caps st) ->
  forall n st st', In st' (star_loop step g n st) -> caps st' = caps st.
Proof.
  intros Hstep. induction n as [|n IH]; intros st st' Hin.
  - destruct Hin as [<-|[]]. reflexivity.
  - cbn [star_loop] in Hin.
    assert (Hmore : forall x,
               In x (flat_map (fun st1 => if length (rest st1) <? length (rest st)
                                          then star_loop step g n st1 else [])
                              (step st)) ->
               caps x = caps st).
    { intros x Hx. apply in_flat_map in Hx as (st1 & H1 & Hx).
      destruct (length (rest st1) <? length (rest st)); [|destruct Hx].
      rewrite (IH _ _ Hx). apply Hstep. exact H1. }
    destruct g.
    + apply in_app_iff in Hin as [Hin|[<-|[]]]; auto.
    + destruct Hin as [<-|Hin]; auto.
Qed.

(** A pattern without groups leaves the captures as they are. *)
Lemma matches_plain_caps r : plain r = true -> forall st st',
  In st' (matches r st) -> caps st' = caps st.
Proof.
  induction r as [|p|r1 IH1 r2 IH2|r1 IH1 r2 IH2|g r1 IH1|j r1 IH1|j|r1 IH1| | |];
    cbn [plain]; intros Hp st st' Hin; try discriminate.
  - destruct Hin as [<-|[]]. reflexivity.
  - rewrite matches_chr in Hin. destruct (rest st) as [|c t]; [destruct Hin|].
    destruct (p c); [|destruct Hin]. destruct Hin as [<-|[]]. reflexivity.
  - apply andb_true_iff in Hp as [Hp1 Hp2].
    rewrite matches_seq in Hin. apply in_flat_map in Hin as (st1 & H1 & H2).
    rewrite (IH2 Hp2 _ _ H2). apply (IH1 Hp1). exact H1.
  - apply andb_true_iff in Hp as [Hp1 Hp2].
    rewrite matches_alt in Hin. apply in_app_iff in Hin as [Hin|Hin]; auto.
  - rewrite matches_star in Hin. eapply star_loop_caps; eauto.
  - cbn [matches] in Hin. destruct (cap_lookup j (caps st)) as [w|]; [|destruct Hin].
    destruct (strip_prefix w (rest st)) as [t|]; [|destruct Hin].
    destruct Hin as [<-|[]]. reflexivity.
  - cbn [matches] in Hin. destruct (prev st) as [c|].
    + destruct (Char.is_c Char.newline c); [|destruct Hin].
      destruct Hin as [<-|[]]. reflexivity.
    + destruct Hin as [<-|[]]. reflexivity.
  - cbn [matches] in Hin. destruct (rest st) as [|c t].
    + destruct Hin as [<-|[]]. reflexivity.
    + destruct (Char.is_c Char.newline c); [|destruct Hin].
      destruct Hin as [<-|[]]. reflexivity.
  - cbn [matches] in Hin. destruct (rest st) as [|c [|d t]].
    + destruct Hin as [<-|[]]. reflexivity.
    + destruct (Char.is_c Char.newline c); [|destruct Hin].
      destruct Hin as [<-|[]]. reflexivity.
    + destruct Hin.
Qed.

Lemma consumed_app st st' pre :
  rest st = pre ++ rest st' -> consumed st st' = pre.
Proof.
  intros H. unfold consumed. rewrite H at 1 2. rewrite length_app.
  replace (length pre + length (rest st') - length (rest st')) with (length pre) by lia.
  apply take_app_length.
Qed.

(** What a group captures is what its pattern reads. *)
Lemma matches_group_reads i r st st' :
  In st' (matches (Group i r) st) ->
  exists st1 pre,
    In st1 (matches r st) /\ rest st = pre ++ rest st1
    /\ st' = MState (rest st1) (prev st1) ((i, pre) :: caps st1).
Proof.
  rewrite matches_group. intros Hin. apply in_map_iff in Hin as (st1 & <- & H1).
  destruct (matches_suffix _ _ _ H1) as [pre Hpre].
  exists st1, pre. split; [exact H1|]. split; [exact Hpre|].
  rewrite (consumed_app _ _ _ Hpre). reflexivity.
Qed.

Lemma reads_chr p st st' :
  In st' (matches (Chr p) st) -> exists c, reads p st st' [c].
Proof.
  rewrite matches_chr. intros Hin. destruct (rest st) as [|c t] eqn:Hr; [destruct Hin|].
  destruct (p c) eqn:Hc; [|destruct Hin]. destruct Hin as [<-|[]].
  exists c. unfold reads. cbn [rest caps]. rewrite Hr.
  repeat split. constructor; [exact Hc | constructor].
Qed.

Lemma reads_trans p st st1 st2 pre1 pre2 :
  reads p st st1 pre1 -> reads p st1 st2 pre2 -> reads p st st2 (pre1 ++ pre2).
Proof.
  intros (H1 & F1 & C1) (H2 & F2 & C2). unfold reads.
  rewrite H1, H2, app_assoc, C2, C1. repeat split. apply Forall_app; auto.
Qed.

(** [p{n}] reads exactly [n] characters of the class. *)
Lemma reads_rep p : forall n st st',
  In st' (matches (Rep n (Chr p)) st) ->
  exists pre, reads p st st' pre /\ length pre = n.
Proof.
  induction n as [|n IH]; intros st st' Hin; cbn [Rep] in Hin.
  - destruct Hin as [<-|[]]. exists []. unfold reads. repeat split. constructor.
  - rewrite matches_seq in Hin. apply in_flat_map in Hin as (st1 & H1 & H2).
    apply reads_chr in H1 as [c H1]. apply IH in H2 as (pre & H2 & Hl).
    exists ([c] ++ pre). split; [eapply reads_trans; eauto | simpl; lia].
Qed.

(** [p{1,2}] reads one or two. *)
Lemma reads_rep12 p st st' :
  In st' (matches (Rep12 (Chr p)) st) ->
  exists pre, reads p st st' pre /\ 1 <= length pre <= 2.
Proof.
  unfold Rep12, Opt. rewrite matches_seq. intros Hin.
  apply in_flat_map in Hin as (st1 & H1 & H2).
  apply reads_chr in H1 as [c H1].
  rewrite matches_alt in H2. apply in_app_iff in H2 as [H2|[<-|[]]].
  - apply reads_chr in H2 as [d H2]. exists ([c] ++ [d]).
    split; [eapply reads_trans; eauto | simpl; lia].
  - exists [c]. split; [exact H1 | simpl; lia].
Qed.

(** [p+] reads one or more. *)
Lemma reads_plus p st st' :
  In st' (matches (Plus true (Chr p)) st) ->
  exists pre, reads p st st' pre /\ pre <> [].
Proof.
  unfold Plus. rewrite matches_seq. intros Hin.
  apply in_flat_map in Hin as (st1 & H1 & H2).
  apply reads_chr in H1 as [c H1].
  assert (Hc : caps st' = caps st1).
  { eapply (matches_plain_caps (Star true (Chr p))); [reflexivity | exact H2]. }
  rewrite matches_star in H2. destruct st1 as [s1 p1 c1]. cbn [rest] in H2.
  rewrite (star_loop_chars _ p c1) in H2 by (intros; reflexivity || lia).
  apply greedy_states_read in H2 as (pre & Hs & Hf).
  exists ([c] ++ pre). split; [|discriminate].
  eapply reads_trans; [exact H1|]. unfold reads. cbn [rest caps] in *.
  repeat split; assumption.
Qed.

Lemma group_class_caps i r p (Q : str -> Prop) st st' :
  (forall a b, In b (matches r a) -> exists pre, reads p a b pre /\ Q pre) ->
  In st' (matches (Group i r) st) ->
  exists pre,
    caps st' = (i, pre) :: caps st /\ Forall (fun c => p c = true) pre /\ Q pre.
Proof.
  intros Hr Hin. apply matches_group_reads in Hin as (st1 & pre & H1 & Hpre & ->).
  apply Hr in H1 as (pre' & (Hpre' & Hf & Hc) & HQ).
  assert (pre' = pre) by (eapply app_inv_tail; rewrite <- Hpre, <- Hpre'; reflexivity).
  subst pre'. exists pre. cbn [caps]. rewrite Hc. auto.
Qed.

(** What a match of the month-day-year pattern captures. *)
Lemma month_date_caps date m :
  re_match re_month_date date = Some m ->
  exists g1 g2 g3,
    caps (m_state m) = [(3, g3); (2, g2); (1, g1)]
    /\ Forall (fun c => Char.is_word c = true) g1 /\ g1 <> []
    /\ Forall (fun c => Char.is_digit c = true) g2 /\ 1 <= length g2 <= 2
    /\ Forall (fun c => Char.is_digit c = true) g3 /\ length g3 = 4.
Proof.
  unfold re_match. destruct (match_here re_month_date None date) as [st|] eqn:Hm;
    [|discriminate].
  intros H. injection H as <-. cbn [m_state].
  unfold match_here in Hm. apply head_In in Hm.
  unfold re_month_date in Hm. cbn [seqs] in Hm.
  rewrite matches_seq in Hm. apply in_flat_map in Hm as (s1 & H1 & Hm).
  rewrite matches_seq in Hm. apply in_flat_map in Hm as (s2 & H2 & Hm).
  rewrite matches_seq in Hm. apply in_flat_map in Hm as (s3 & H3 & Hm).
  rewrite matches_seq in Hm. apply in_flat_map in Hm as (s4 & H4 & Hm).
  rewrite matches_seq in Hm. apply in_flat_map in Hm as (s5 & H5 & Hm).
  apply (group_class_caps _ _ Char.is_word (fun pre => pre <> [])) in H1
    as (g1 & C1 & F1 & N1); [|intros a b; apply reads_plus].
  apply (matches_plain_caps (Plus true (Chr Char.is_space)) eq_refl) in H2.
  apply (group_class_caps _ _ Char.is_digit (fun pre => 1 <= length pre <= 2)) in H3
    as (g2 & C3 & F2 & N2); [|intros a b; apply reads_rep12].
  apply (matches_plain_caps (lit ",") eq_refl) in H4.
  apply (matches_plain_caps (Plus true (Chr Char.is_space)) eq_refl) in H5.
  apply (group_class_caps _ _ Char.is_digit (fun pre => length pre = 4)) in Hm
    as (g3 & C5 & F3 & N3); [|intros a b; apply reads_rep].
  exists g1, g2, g3. cbn [caps] in C1.
  rewrite C5, H5, H4, C3, H2, C1. auto 10.
Qed.

(** Ten characters of the form dddd-dd-dd match the ISO pattern. *)
Lemma iso_date_matches y mo d tail :
  Forall (fun c => Char.is_digit c = true) y -> length y = 4 ->
  Forall (fun c => Char.is_digit c = true) mo -> length mo = 2 ->
  Forall (fun c => Char.is_digit c = true) d -> length d = 2 ->
  exists m, re_match re_iso_date (y ++ txt "-" ++ mo ++ txt "-" ++ d ++ tail) = Some m.
Proof.
  intros Fy Ly Fm Lm Fd Ld.
  destruct y as [|y1 [|y2 [|y3 [|y4 [|]]]]]; try discriminate Ly.
  destruct mo as [|m1 [|m2 [|]]]; try discriminate Lm.
  destruct d as [|d1 [|d2 [|]]]; try discriminate Ld.
  repeat match goal with
         | H : Forall _ (_ :: _) |- _ => apply Forall_cons_iff in H as [? H]
         end.
  unfold re_match, match_here, re_iso_date, lit.
  cbn [txt list_ascii_of_string map seqs Rep app].
  repeat (rewrite ?matches_seq, ?matches_group, ?matches_chr;
          cbn [rest caps prev map flat_map app matches];
          rewrite ?app_nil_r;
          repeat match goal with
                 | H : Char.is_digit ?c = true |- context [Char.is_digit ?c] => rewrite H
                 end;
          change (Char.is_c "-" "-") with true; cbn iota).
  eexists. reflexivity.
Qed.


Lemma month_number_digits key :
  Forall (fun c => Char.is_digit c = true) (dict_get month_table key (txt "01"))
  /\ length (dict_get month_table key (txt "01")) = 2.
Proof.
  unfold month_table. cbn [dict_get].
  repeat match goal with
         | |- context [str_eqb ?a key] => destruct (str_eqb a key)
         end;
    (split; [repeat constructor | reflexivity]).
Qed.

Lemma zfill2_digits g :
  Forall (fun c => Char.is_digit c = true) g -> 1 <= length g <= 2 ->
  Forall (fun c => Char.is_digit c = true) (str_zfill2 g)
  /\ length (str_zfill2 g) = 2.
Proof.
  intros Hf Hl. destruct g as [|a [|b [|]]]; simpl in Hl; try lia.
  - split; [constructor; [reflexivity | exact Hf] | reflexivity].
  - split; [exact Hf | reflexivity].
Qed.

(** The date derived from a month-day-year text. *)
Lemma normalized_date_month date m :
  re_match re_iso_date date = None ->
  re_match re_month_date date = Some m ->
  exists d, normalized_date date = Some d /\ iso_shaped d.
Proof.
  intros Hiso Hm. unfold normalized_date. rewrite Hiso, Hm.
  destruct (month_date_caps _ _ Hm)
    as (g1 & g2 & g3 & Hc & _ & _ & F2 & L2 & F3 & L3).
  unfold group. rewrite Hc. cbn [cap_lookup List.find fst snd Nat.eqb mbind option_bind].
  eexists. split; [reflexivity|].
  destruct (month_number_digits (str_lower (firstn 3 g1))) as [Fm Lm].
  destruct (zfill2_digits g2 F2 L2) as [Fd Ld].
  exists g3, (dict_get month_table (str_lower (firstn 3 g1)) (txt "01")), (str_zfill2 g2).
  repeat split; assumption.
Qed.

Lemma normalized_date_iso_shaped d : iso_shaped d -> normalized_date d = Some d.
Proof.
  intros (y & mo & dd & -> & Fy & Ly & Fm & Lm & Fd & Ld).
  destruct (iso_date_matches y mo dd [] Fy Ly Fm Lm Fd Ld) as [m Hm].
  rewrite app_nil_r in Hm. unfold normalized_date. rewrite Hm. reflexivity.
Qed.

(** X6: a date text of the form "Month day, year" that is not
    ISO-prefixed becomes a ten-character date dddd-dd-dd. *)
Theorem normalized_date_month_is_iso date m :
  re_match re_iso_date date = None ->
  re_match re_month_date date = Some m ->
  exists d, normalized_date date = Some d /\ iso_shaped d /\ length d = 10.
Proof.
  intros Hiso Hm. destruct (normalized_date_month _ _ Hiso Hm) as (d & Hd & Hs).
  exists d. split; [exact Hd|]. split; [exact Hs|].
  destruct Hs as (y & mo & dd & -> & _ & Ly & _ & Lm & _ & Ld).
  rewrite !length_app, Ly, Lm, Ld. reflexivity.
Qed.

Lemma normalized_date_month_is_iso_witness :
  exists d, normalized_date (txt "Sept 7, 2023") = Some d
            /\ iso_shaped d /\ length d = 10.
Proof.
  destruct (re_match re_month_date (txt "Sept 7, 2023")) as [m|] eqn:Hm.
  - apply (normalized_date_month_is_iso (txt "Sept 7, 2023") m);
      [vm_compute; reflexivity | exact Hm].
  - vm_compute in Hm. discriminate Hm.
Defined.

(** X7: deriving the date is idempotent: the derived date derives to
    itself. *)
Theorem normalized_date_idempotent date d :
  normalized_date date = Some d -> normalized_date d = Some d.
Proof.
  intros H.
  destruct (re_match re_iso_date date) as [mi|] eqn:Hiso.
  - unfold normalized_date in H. rewrite Hiso in H. injection H as <-.
    unfold normalized_date. rewrite Hiso. reflexivity.
  - destruct (re_match re_month_date date) as [m|] eqn:Hm.
    + destruct (normalized_date_month _ _ Hiso Hm) as (d' & Hd' & Hs).
      rewrite Hd' in H. injection H as <-. apply normalized_date_iso_shaped. exact Hs.
    + unfold normalized_date in H. rewrite Hiso, Hm in H. injection H as <-.
      unfold normalized_date. rewrite Hiso, Hm. reflexivity.
Qed.

Lemma normalized_date_idempotent_witness :
  normalized_date (txt "2024-03-05") = Some (txt "2024-03-05").
Proof.
  apply (normalized_date_idempotent (txt "March 5, 2024")).
  vm_compute. reflexivity.
Defined.

(** ** Paths *)

Lemma existsb_slash_false n : ~ In slash n -> existsb (Char.is_c slash) n = false.
Proof.
  intros Hn. apply not_true_is_false. intros H.
  apply existsb_exists in H as (c & Hin & Hc). apply is_c_true in Hc. subst c.
  exact (Hn Hin).
Qed.

Lemma rsplit_slash_none n : ~ In slash n -> rsplit_slash n = ([], n).
Proof.
  destruct n as [|c t]; [reflexivity|]. intros Hn. cbn [rsplit_slash].
  destruct (rsplit_slash t) as [h b].
  rewrite existsb_slash_false by (intros H; apply Hn; right; exact H).
  destruct (Char.is_c slash c) eqn:Hc; [|reflexivity].
  apply is_c_true in Hc. subst c. exfalso. apply Hn. left. reflexivity.
Qed.

Lemma rsplit_slash_app x n :
  ~ In slash n -> fst (rsplit_slash (x ++ n)) = fst (rsplit_slash x).
Proof.
  intros Hn. induction x as [|c t IH].
  - cbn [app]. rewrite rsplit_slash_none by exact Hn. reflexivity.
  - cbn [app rsplit_slash].
    destruct (rsplit_slash (t ++ n)) as [h b]. destruct (rsplit_slash t) as [h' b'].
    cbn [fst] in IH. subst h'.
    rewrite existsb_app, (existsb_slash_false n Hn), orb_false_r.
    destruct (existsb (Char.is_c slash) t); [reflexivity|].
    destruct (Char.is_c slash c); reflexivity.
Qed.

Lemma rsplit_slash_end x : fst (rsplit_slash (x ++ [slash])) = x ++ [slash].
Proof.
  induction x as [|c t IH]; [reflexivity|].
  cbn [app rsplit_slash]. destruct (rsplit_slash (t ++ [slash])) as [h b].
  cbn [fst] in IH. subst h.
  rewrite existsb_app. cbn [existsb]. change (Char.is_c slash slash) with true.
  rewrite orb_true_r. reflexivity.
Qed.

Lemma ends_with_slash_snoc d : ends_with_slash d = true -> exists d', d = d' ++ [slash].
Proof.
  unfold ends_with_slash. intros H.
  destruct (rev d) as [|c r] eqn:Hr; [discriminate|].
  apply is_c_true in H. subst c. exists (rev r).
  rewrite <- (rev_involutive d), Hr. reflexivity.
Qed.

Lemma all_slashes_end d :
  forallb (Char.is_c slash) d = true -> d <> [] -> ends_with_slash d = true.
Proof.
  intros Hall Hne. unfold ends_with_slash.
  destruct (rev d) as [|c r] eqn:Hr.
  - exfalso. apply Hne. rewrite <- (rev_involutive d), Hr. reflexivity.
  - rewrite forallb_forall in Hall. apply Hall.
    apply (proj2 (List.in_rev _ _)). rewrite Hr. left. reflexivity.
Qed.

Lemma dirname_dir_like p : dir_like (os_path_dirname p).
Proof.
  unfold os_path_dirname, dir_like. cbv zeta.
  destruct (forallb (Char.is_c slash) (fst (rsplit_slash p))) eqn:Hall;
    [left; exact Hall|].
  right. unfold ends_with_slash, str_rstrip_char. rewrite rev_rstrip_by.
  pose proof (lstrip_by_head_not (Char.is_c slash) (rev (fst (rsplit_slash p)))) as Hh.
  destruct (lstrip_by _ _); [reflexivity | exact Hh].
Qed.

(** Joining a directory part and a name without slashes, and taking the
    directory part again, gives the directory part back. *)
Lemma dirname_join d n :
  dir_like d -> ~ In slash n -> n <> [] ->
  os_path_dirname (os_path_join d n) = d.
Proof.
  intros Hd Hn Hne.
  assert (Hstart : starts_with_slash n = false).
  { destruct n as [|c t]; [congruence|]. cbn [starts_with_slash].
    destruct (Char.is_c slash c) eqn:Hc; [|reflexivity].
    apply is_c_true in Hc. subst c. exfalso. apply Hn. left. reflexivity. }
  unfold os_path_join. rewrite Hstart.
  destruct (forallb (Char.is_c slash) d) eqn:Hall.
  - destruct d as [|c t].
    + cbn [is_empty orb app]. unfold os_path_dirname. cbv zeta.
      rewrite rsplit_slash_none by exact Hn. reflexivity.
    + rewrite (all_slashes_end _ Hall) by discriminate. rewrite orb_true_r.
      destruct (ends_with_slash_snoc (c :: t) (all_slashes_end _ Hall ltac:(discriminate)))
        as [d' Hd'].
      unfold os_path_dirname. cbv zeta. rewrite rsplit_slash_app by exact Hn.
      rewrite Hd', rsplit_slash_end, <- Hd', Hall. reflexivity.
  - destruct Hd as [Hd|Hd]; [rewrite Hd in Hall; discriminate|].
    assert (He : is_empty d = false) by (destruct d; [discriminate | reflexivity]).
    rewrite He, Hd. cbn [orb].
    change (d ++ slash :: n) with (d ++ [slash] ++ n). rewrite app_assoc.
    unfold os_path_dirname. cbv zeta. rewrite rsplit_slash_app by exact Hn.
    rewrite rsplit_slash_end.
    rewrite forallb_app, Hall. cbn [andb].
    unfold str_rstrip_char, rstrip_by. rewrite rev_app_distr. cbn [rev app lstrip_by].
    change (Char.is_c slash slash) with true. cbn iota.
    rewrite lstrip_by_fixed; [apply rev_involutive|].
    unfold ends_with_slash in Hd. destruct (rev d); [exact I | exact Hd].
Qed.

(** ** The effect of a rename *)

Lemma os_rename_effect fs src dst fs' :
  os_rename fs src dst = Some fs' -> src <> dst ->
  files fs' !! dst = files fs !! src
  /\ is_Some (files fs !! src)
  /\ files fs' !! src = None
  /\ dirs fs' = dirs fs
  /\ forall q, q <> dst -> q <> src -> files fs' !! q = files fs !! q.
Proof.
  unfold os_rename. intros H Hne.
  destruct (files fs !! src) as [content|] eqn:Hsrc; [|discriminate].
  destruct (_ && _); [|discriminate]. injection H as <-. cbn [files dirs].
  split; [apply lookup_insert_eq|]. split; [eauto|].
  split; [rewrite lookup_insert_ne by congruence; apply lookup_delete_eq|].
  split; [reflexivity|].
  intros q Hq1 Hq2. rewrite lookup_insert_ne by congruence.
  apply lookup_delete_ne. congruence.
Qed.



Lemma new_name_no_slash date title d n :
  normalized_date date = Some d -> ~ In slash d ->
  new_name date title = Some n -> ~ In slash n /\ n <> [].
Proof.
  intros Hd Hs Hn. unfold new_name in Hn. rewrite Hd in Hn.
  cbn [mbind option_bind] in Hn. injection Hn as <-. split.
  - intros H. rewrite !in_app_iff in H. destruct H as [H|[H|H]].
    + exact (Hs H).
    + discriminate H.
    + rewrite in_app_iff in H. destruct H as [H|H].
      * destruct (clean_title_chars title) as [_ Hl].
        rewrite List.Forall_forall in Hl. apply Hl in H as (_ & _ & H). discriminate H.
      * repeat (destruct H as [H|H]; [discriminate H|]). destruct H.
  - intros H. apply app_eq_nil in H as [_ H]. discriminate H.
Qed.

(** X9: when the derived date holds no slash, [rename_file] is idempotent:
    called again on the path it returned, in the file system it left, it
    returns that path and changes nothing. *)
Theorem rename_file_again fs file_path date title d fs' p :
  normalized_date date = Some d -> ~ In slash d ->
  rename_file fs file_path date title = Some (fs', p) ->
  rename_file fs' p date title = Some (fs', p).
Proof.
  intros Hd Hs H. unfold rename_file in *.
  destruct (negb (is_empty date) && negb (is_empty title)); [|congruence].
  destruct (new_name date title) as [n|] eqn:Hn; [|discriminate].
  cbn [mbind option_bind] in *.
  destruct (new_name_no_slash _ _ _ _ Hd Hs Hn) as [Hns Hne].
  assert (Hp : p = os_path_join (os_path_dirname file_path) n).
  { destruct (negb (str_eqb _ _) && negb (os_path_exists _ _)).
    - destruct (os_rename fs file_path _); [|discriminate].
      cbn [mbind option_bind] in H. congruence.
    - congruence. }
  assert (Hdir : os_path_dirname p = os_path_dirname file_path).
  { rewrite Hp. apply dirname_join; [apply dirname_dir_like | exact Hns | exact Hne]. }
  rewrite Hdir, <- Hp.
  replace (str_eqb p p) with true by (symmetry; apply str_eqb_true; reflexivity).
  reflexivity.
Qed.

Lemma rename_file_again_witness :
  rename_file (FS {[ txt "certs/2024-03-05-t.pdf" := txt "pdf-a" ]} {[ txt "certs" ]})
              (txt "certs/2024-03-05-t.pdf") (txt "March 5, 2024") (txt "T")
  = Some (FS {[ txt "certs/2024-03-05-t.pdf" := txt "pdf-a" ]} {[ txt "certs" ]},
          txt "certs/2024-03-05-t.pdf").
Proof.
  apply (rename_file_again sample_fs (txt "certs/a.pdf") (txt "March 5, 2024")
           (txt "T") (txt "2024-03-05")).
  - vm_compute. reflexivity.
  - vm_compute. intros H. repeat (destruct H as [H|H]; [discriminate H|]). destruct H.
  - vm_compute. reflexivity.
Defined.

(** ** The record builder and the file system *)

Lemma rename_file_others fs file_path date title fs' p :
  rename_file fs file_path date title = Some (fs', p) ->
  dirs fs' = dirs fs
  /\ forall q, q <> file_path -> is_Some (files fs !! q) ->
               files fs' !! q = files fs !! q.
Proof.
  unfold rename_file. intros H.
  destruct (negb (is_empty date) && negb (is_empty title));
    [|injection H as <- _; auto].
  destruct (new_name date title) as [n|]; [|discriminate]. cbn [mbind option_bind] in H.
  destruct (negb (str_eqb _ _) && negb (os_path_exists _ _)) eqn:Hc;
    [|injection H as <- _; auto].
  apply andb_true_iff in Hc as [Hne Hex].
  apply negb_true_iff in Hne, Hex. apply str_eqb_false in Hne.
  destruct (os_rename fs file_path _) as [fs1|] eqn:Hr; [|discriminate].
  cbn [mbind option_bind] in H. injection H as <- _.
  split; [apply (os_rename_effect _ _ _ _ Hr Hne)|].
  intros q Hq Hsome. eapply os_rename_other; eauto.
Qed.

Section BuilderFacts.

Variable pdf_text : str -> option str.
Variable sha256_hexdigest : str -> str.
Variable repo : option str.

(** The file system a branch leaves. *)
Lemma extract_udemy_fs fs pdf_path text fs' x :
  extract_udemy sha256_hexdigest fs pdf_path text = Bound fs' x ->
  dirs fs' = dirs fs
  /\ forall q, q <> pdf_path -> is_Some (files fs !! q) ->
               files fs' !! q = files fs !! q.
Proof.
  unfold extract_udemy. intros H.
  destruct (re_search re_udemy_title text) as [tm|]; [|discriminate].
  destruct (re_search re_udemy_date text) as [dm|]; [|discriminate].
  apply branch_of_bound in H.
  destruct (group 1 tm) as [gt|]; [|discriminate]. cbn [fmap option_fmap option_map mbind option_bind] in H.
  destruct (group 1 dm) as [gd|]; [|discriminate]. cbn [fmap option_fmap option_map mbind option_bind] in H.
  destruct (match re_search re_udemy_instructor text with
            | Some im => _ | None => _ end); [|discriminate].
  cbn [mbind option_bind] in H.
  destruct (match match re_search re_udemy_cert_no text with
                  | Some m => _ | None => _ end with
            | Some cm => _ | None => _ end); [|discriminate].
  cbn [mbind option_bind] in H.
  destruct (year_of _); [|discriminate]. cbn [mbind option_bind] in H.
  destruct (rename_file _ _ _ _) as [[fs1 p1]|] eqn:Hr; [|discriminate].
  cbn [mbind option_bind] in H. injection H as <- _.
  eapply rename_file_others. exact Hr.
Qed.

Lemma extract_cybrary_fs fs pdf_path text fs' x :
  extract_cybrary fs pdf_path text = Bound fs' x -> fs' = fs.
Proof.
  unfold extract_cybrary. intros H.
  destruct (re_search re_cybrary_title text) as [tm|]; [|discriminate].
  destruct (re_search re_cybrary_date text) as [dm|]; [|discriminate].
  destruct (re_search re_cybrary_cert text) as [cm|]; [|discriminate].
  apply branch_of_bound in H.
  destruct (group 1 tm) as [gt|]; [|discriminate]. cbn [fmap option_fmap option_map mbind option_bind] in H.
  destruct (group 1 dm) as [gd|]; [|discriminate]. cbn [fmap option_fmap option_map mbind option_bind] in H.
  destruct (group 1 cm) as [gc|]; [|discriminate]. cbn [mbind option_bind] in H.
  destruct (year_of _); [|discriminate]. cbn [mbind option_bind] in H.
  injection H as <- _. reflexivity.
Qed.

Lemma extract_deeplearningai_fs fs pdf_path text fs' x :
  extract_deeplearningai sha256_hexdigest fs pdf_path text = Bound fs' x -> fs' = fs.
Proof.
  unfold extract_deeplearningai. intros H.
  destruct (re_search re_dl_title text) as [tm|]; [|discriminate].
  destruct (re_search re_dl_filename_date _) as [fm|]; [|discriminate].
  apply branch_of_bound in H.
  destruct (group 1 tm) as [gt|]; [|discriminate]. cbn [fmap option_fmap option_map mbind option_bind] in H.
  destruct (group 1 fm) as [gd|]; [|discriminate]. cbn [mbind option_bind] in H.
  destruct (generate_cert_id _ _ _); [|discriminate].
  cbn [fmap option_fmap option_map mbind option_bind] in H.
  injection H as <- _. reflexivity.
Qed.

Lemma extract_linkedinlearning_fs fs pdf_path text fs' x :
  extract_linkedinlearning sha256_hexdigest fs pdf_path text = Bound fs' x -> fs' = fs.
Proof.
  unfold extract_linkedinlearning. intros H.
  destruct (re_search re_li_title _) as [tm|]; [|discriminate].
  destruct (re_search re_li_date text) as [dm|]; [|discriminate].
  apply branch_of_bound in H.
  destruct (group 1 tm) as [gt|]; [|discriminate]. cbn [fmap option_fmap option_map mbind option_bind] in H.
  destruct (group 1 dm) as [gd|]; [|discriminate]. cbn [fmap option_fmap option_map mbind option_bind] in H.
  destruct (match re_search re_li_cert text with
            | Some cm => _ | None => _ end); [|discriminate].
  cbn [mbind option_bind] in H.
  destruct (year_of _); [|discriminate]. cbn [mbind option_bind] in H.
  injection H as <- _. reflexivity.
Qed.


(** The file system [extract_metadata] leaves is the one it found or the
    one its branch left. *)
Lemma extract_metadata_fst
      fs pdf_path release_tag test_mode github_page_url f fetch_urls provider_id :
  let fs' := fst (extract_metadata pdf_text sha256_hexdigest repo fs pdf_path
                    release_tag test_mode github_page_url f fetch_urls provider_id) in
  fs' = fs
  \/ exists raw x,
       pdf_text pdf_path = Some raw
       /\ provider_branch sha256_hexdigest fs pdf_path (clean_text raw) provider_id
          = Bound fs' x.
Proof.
  cbv zeta. unfold extract_metadata.
  destruct (pdf_text pdf_path) as [raw|]; [|left; reflexivity].
  change (if str_eqb provider_id (txt "udemy") then _ else _)
    with (provider_branch sha256_hexdigest fs pdf_path (clean_text raw) provider_id).
  destruct (provider_branch _ _ _ _ _) as [fs1 x| |] eqn:Hb;
    [|left; reflexivity|left; reflexivity].
  right. exists raw, x. split; [reflexivity|].
  destruct (filtered_out f x); [exact Hb|].
  destruct (if test_mode then _ else _); exact Hb.
Qed.

(** X10: the dump of the text under [debug_dir] aside, [extract_metadata]
    leaves the directories and every file other than the document itself
    as they are, and for a provider other than udemy it leaves the whole
    file system as it is. *)
Theorem extract_metadata_file_system
        fs pdf_path release_tag test_mode github_page_url f fetch_urls provider_id :
  let fs' := fst (extract_metadata pdf_text sha256_hexdigest repo fs pdf_path
                    release_tag test_mode github_page_url f fetch_urls provider_id) in
  (provider_id <> txt "udemy" -> fs' = fs)
  /\ dirs fs' = dirs fs
  /\ forall q, q <> pdf_path -> is_Some (files fs !! q) ->
               files fs' !! q = files fs !! q.
Proof.
  cbv zeta.
  destruct (extract_metadata_fst fs pdf_path release_tag test_mode github_page_url
              f fetch_urls provider_id) as [Heq | (raw & x & _ & Hb)].
  { rewrite Heq. auto. }
  unfold provider_branch in Hb.
  destruct (str_eqb provider_id (txt "udemy")) eqn:E1.
  { apply str_eqb_true in E1. apply extract_udemy_fs in Hb. tauto. }
  assert (Hfs : fst (extract_metadata pdf_text sha256_hexdigest repo fs pdf_path
                       release_tag test_mode github_page_url f fetch_urls provider_id)
                = fs).
  { destruct (str_eqb provider_id (txt "cybrary"));
      [apply extract_cybrary_fs in Hb; exact Hb|].
    destruct (str_eqb provider_id (txt "deeplearningai"));
      [apply extract_deeplearningai_fs in Hb; exact Hb|].
    destruct (str_eqb provider_id (txt "linkedinlearning"));
      [apply extract_linkedinlearning_fs in Hb; exact Hb | discriminate]. }
  rewrite Hfs. auto.
Qed.

(** An entry is what its branch bound, past the filters. *)
Lemma extract_metadata_some
      fs pdf_path release_tag test_mode github_page_url f fetch_urls provider_id fs' r :
  extract_metadata pdf_text sha256_hexdigest repo fs pdf_path release_tag test_mode
                   github_page_url f fetch_urls provider_id = (fs', Some r) ->
  exists raw x,
    pdf_text pdf_path = Some raw
    /\ provider_branch sha256_hexdigest fs pdf_path (clean_text raw) provider_id
       = Bound fs' x
    /\ filtered_out f x = false
    /\ title r = x_title x /\ completion r = x_completion x
    /\ skills r = x_skills x /\ year r = x_year x
    /\ cert_id r = x_cert_id x /\ instructors r = x_instructors x.
Proof.
  unfold extract_metadata. intros H.
  destruct (pdf_text pdf_path) as [raw|]; [|discriminate].
  change (if str_eqb provider_id (txt "udemy") then _ else _)
    with (provider_branch sha256_hexdigest fs pdf_path (clean_text raw) provider_id) in H.
  destruct (provider_branch _ _ _ _ _) as [fs1 x| |] eqn:Hb; try discriminate.
  destruct (filtered_out f x) eqn:Hf; [discriminate|].
  destruct (if test_mode then _ else _); [|discriminate].
  injection H as <- <-. exists raw, x. cbn. auto 10.
Qed.

(** X11: an entry that is returned passes every filter that is set: its
    year is the filter's year, and the skill and title patterns are found
    in its skills and its title. *)
Theorem extract_metadata_passes_filters
        fs pdf_path release_tag test_mode github_page_url f fetch_urls provider_id fs' r :
  extract_metadata pdf_text sha256_hexdigest repo fs pdf_path release_tag test_mode
                   github_page_url f fetch_urls provider_id = (fs', Some r) ->
  (forall y, filter_year f = Some y -> year r = Some y)
  /\ (forall p, filter_skill f = Some p -> is_Some (re_search p (skills r)))
  /\ (forall p, filter_title f = Some p -> is_Some (re_search p (title r))).
Proof.
  intros H. apply extract_metadata_some in H
    as (raw & x & _ & _ & Hf & -> & _ & -> & -> & _).
  unfold filtered_out in Hf.
  apply orb_false_iff in Hf as [Hf Ht]. apply orb_false_iff in Hf as [Hs Hy].
  split; [|split].
  - intros y Hfy. rewrite Hfy in Hy. apply negb_false_iff, bool_decide_eq_true in Hy.
    exact Hy.
  - intros p Hp. rewrite Hp in Hs. apply negb_false_iff in Hs.
    destruct (re_search p (x_skills x)); [eauto | discriminate].
  - intros p Hp. rewrite Hp in Ht. apply negb_false_iff in Ht.
    destruct (re_search p (x_title x)); [eauto | discriminate].
Qed.

(** Four digits that the year pattern finds. *)
Lemma re_year_found c m y :
  re_search re_year c = Some m -> group 1 m = Some y ->
  Forall (fun d => Char.is_digit d = true) y /\ length y = 4
  /\ exists a b, c = a ++ y ++ b.
Proof.
  intros Hs Hg. apply search_from_suffix in Hs as (pre & s' & p' & -> & Hm).
  unfold match_here in Hm. apply head_In in Hm. unfold re_year, digit in Hm.
  apply matches_group_reads in Hm as (st1 & g & H1 & Hg1 & Hst).
  unfold group in Hg. rewrite Hst in Hg. cbn in Hg. injection Hg as <-.
  apply reads_rep in H1 as (g' & (Hg' & Hf & _) & Hl).
  assert (g' = g) by (eapply app_inv_tail; rewrite <- Hg1, <- Hg'; reflexivity).
  subst g'. split; [exact Hf|]. split; [exact Hl|].
  exists pre, (rest st1). cbn [rest] in Hg1. rewrite Hg1. reflexivity.
Qed.

Lemma year_of_spec c o :
  year_of c = Some o ->
  match o with
  | Some y => Forall (fun d => Char.is_digit d = true) y /\ length y = 4
              /\ exists a b, c = a ++ y ++ b
  | None => re_search re_year c = None
  end.
Proof.
  unfold year_of. destruct (re_search re_year c) as [m|] eqn:Hs.
  - destruct (group 1 m) as [y|] eqn:Hg; [|discriminate].
    cbn [mbind option_bind]. intros H. injection H as <-.
    eapply re_year_found; eauto.
  - intros H. injection H as <-. reflexivity.
Qed.

(** The date in a deeplearningai file name starts with four digits. *)
Lemma dl_filename_date_year name m g :
  re_search re_dl_filename_date name = Some m -> group 1 m = Some g ->
  Forall (fun d => Char.is_digit d = true) (firstn 4 g) /\ length (firstn 4 g) = 4.
Proof.
  intros Hs Hg. apply search_from_suffix in Hs as (pre & s' & p' & -> & Hm).
  unfold match_here in Hm. apply head_In in Hm. unfold re_dl_filename_date, digit in Hm.
  cbn [seqs] in Hm.
  apply matches_group_reads in Hm as (st1 & g0 & H1 & Hg1 & Hst).
  unfold group in Hg. rewrite Hst in Hg. cbn in Hg. injection Hg as <-.
  rewrite matches_seq in H1. apply in_flat_map in H1 as (sa & Ha & H1).
  apply reads_rep in Ha as (y & (Hy & Hf & _) & Hl).
  apply matches_suffix in H1 as [pre2 H2].
  assert (g0 = y ++ pre2).
  { eapply app_inv_tail. rewrite <- Hg1, Hy, H2, app_assoc. reflexivity. }
  subst g0. rewrite <- Hl, take_app_length. auto.
Qed.

(** How a branch derives the year. *)
Lemma provider_branch_year fs pdf_path text provider_id fs' x :
  provider_branch sha256_hexdigest fs pdf_path text provider_id = Bound fs' x ->
  year_of (x_completion x) = Some (x_year x)
  \/ (x_year x = Some (firstn 4 (x_completion x))
      /\ exists m, re_search re_dl_filename_date (os_path_basename pdf_path) = Some m
                   /\ group 1 m = Some (x_completion x)).
Proof.
  unfold provider_branch. intros H.
  destruct (str_eqb provider_id (txt "udemy")).
  { left. unfold extract_udemy in H.
    destruct (re_search re_udemy_title text) as [tm|]; [|discriminate].
    destruct (re_search re_udemy_date text) as [dm|]; [|discriminate].
    apply branch_of_bound in H.
    destruct (group 1 tm) as [gt|]; [|discriminate].
    cbn [fmap option_fmap option_map mbind option_bind] in H.
    destruct (group 1 dm) as [gd|]; [|discriminate].
    cbn [fmap option_fmap option_map mbind option_bind] in H.
    destruct (match re_search re_udemy_instructor text with
              | Some im => _ | None => _ end); [|discriminate].
    cbn [mbind option_bind] in H.
    destruct (match match re_search re_udemy_cert_no text with
                    | Some m => _ | None => _ end with
              | Some cm => _ | None => _ end); [|discriminate].
    cbn [mbind option_bind] in H.
    destruct (year_of _) eqn:Hy; [|discriminate]. cbn [mbind option_bind] in H.
    destruct (rename_file _ _ _ _) as [[fs1 p1]|]; [|discriminate].
    cbn [mbind option_bind] in H. injection H as _ <-. exact Hy. }
  destruct (str_eqb provider_id (txt "cybrary")).
  { left. unfold extract_cybrary in H.
    destruct (re_search re_cybrary_title text) as [tm|]; [|discriminate].
    destruct (re_search re_cybrary_date text) as [dm|]; [|discriminate].
    destruct (re_search re_cybrary_cert text) as [cm|]; [|discriminate].
    apply branch_of_bound in H.
    destruct (group 1 tm) as [gt|]; [|discriminate].
    cbn [fmap option_fmap option_map mbind option_bind] in H.
    destruct (group 1 dm) as [gd|]; [|discriminate].
    cbn [fmap option_fmap option_map mbind option_bind] in H.
    destruct (group 1 cm) as [gc|]; [|discriminate]. cbn [mbind option_bind] in H.
    destruct (year_of _) eqn:Hy; [|discriminate]. cbn [mbind option_bind] in H.
    injection H as _ <-. exact Hy. }
  destruct (str_eqb provider_id (txt "deeplearningai")).
  { right. unfold extract_deeplearningai in H.
    destruct (re_search re_dl_title text) as [tm|]; [|discriminate].
    destruct (re_search re_dl_filename_date _) as [fm|] eqn:Hfm; [|discriminate].
    apply branch_of_bound in H.
    destruct (group 1 tm) as [gt|]; [|discriminate].
    cbn [fmap option_fmap option_map mbind option_bind] in H.
    destruct (group 1 fm) as [gd|] eqn:Hgd; [|discriminate].
    cbn [mbind option_bind] in H.
    destruct (generate_cert_id _ _ _); [|discriminate].
    cbn [fmap option_fmap option_map mbind option_bind] in H.
    injection H as _ <-. cbn. split; [reflexivity | eauto]. }
  destruct (str_eqb provider_id (txt "linkedinlearning")); [|discriminate].
  left. unfold extract_linkedinlearning in H.
  destruct (re_search re_li_title _) as [tm|]; [|discriminate].
  destruct (re_search re_li_date text) as [dm|]; [|discriminate].
  apply branch_of_bound in H.
  destruct (group 1 tm) as [gt|]; [|discriminate].
  cbn [fmap option_fmap option_map mbind option_bind] in H.
  destruct (group 1 dm) as [gd|]; [|discriminate].
  cbn [fmap option_fmap option_map mbind option_bind] in H.
  destruct (match re_search re_li_cert text with
            | Some cm => _ | None => _ end); [|discriminate].
  cbn [mbind option_bind] in H.
  destruct (year_of _) eqn:Hy; [|discriminate]. cbn [mbind option_bind] in H.
  injection H as _ <-. exact Hy.
Qed.

(** X12: the year of an entry, when it has one, is four digits that stand
    together in its completion date; it has none only if the completion
    date has no four digits in a row. *)
Theorem extract_metadata_year
        fs pdf_path release_tag test_mode github_page_url f fetch_urls provider_id fs' r :
  extract_metadata pdf_text sha256_hexdigest repo fs pdf_path release_tag test_mode
                   github_page_url f fetch_urls provider_id = (fs', Some r) ->
  match year r with
  | Some y => Forall (fun d => Char.is_digit d = true) y /\ length y = 4
              /\ exists a b, completion r = a ++ y ++ b
  | None => re_search re_year (completion r) = None
  end.
Proof.
  intros H. apply extract_metadata_some in H
    as (raw & x & _ & Hb & _ & _ & -> & _ & -> & _).
  apply provider_branch_year in Hb as [Hy | (Hy & m & Hm & Hg)].
  - apply year_of_spec. exact Hy.
  - rewrite Hy. destruct (dl_filename_date_year _ _ _ Hm Hg) as [Hf Hl].
    split; [exact Hf|]. split; [exact Hl|].
    exists [], (skipn 4 (x_completion x)). cbn [app]. symmetry. apply firstn_skipn.
Qed.

End BuilderFacts.

Lemma extract_metadata_file_system_witness :
  fst (extract_metadata (fun _ => Some cybrary_may) (fun _ => []) None two_files_fs
         (txt "certs/a.pdf") (txt "certs") true (txt "https://lspironello.github.io")
         (Filters None None None) false (txt "cybrary"))
  = two_files_fs.
Proof.
  apply (extract_metadata_file_system (fun _ => Some cybrary_may) (fun _ => []) None
           two_files_fs (txt "certs/a.pdf") (txt "certs") true
           (txt "https://lspironello.github.io") (Filters None None None) false
           (txt "cybrary")).
  discriminate.
Defined.

Lemma extract_metadata_passes_filters_witness :
  (forall y, Some (txt "2024") = Some y -> year cybrary_may_entry = Some y)
  /\ (forall p, @None regex = Some p -> is_Some (re_search p (skills cybrary_may_entry)))
  /\ (forall p, Some (liti "intro") = Some p ->
                is_Some (re_search p (title cybrary_may_entry))).
Proof.
  apply (extract_metadata_passes_filters (fun _ => Some cybrary_may) (fun _ => []) None
           sample_fs (txt "certs/a.pdf") (txt "certs") true
           (txt "https://lspironello.github.io")
           (Filters None (Some (txt "2024")) (Some (liti "intro")))
           false (txt "cybrary") sample_fs cybrary_may_entry).
  vm_compute. reflexivity.
Defined.

Lemma extract_metadata_year_witness :
  Forall (fun d => Char.is_digit d = true) (txt "2024") /\ length (txt "2024") = 4
  /\ exists a b, completion cybrary_may_entry = a ++ txt "2024" ++ b.
Proof.
  apply (extract_metadata_year (fun _ => Some cybrary_may) (fun _ => []) None
           sample_fs (txt "certs/a.pdf") (txt "certs") true
           (txt "https://lspironello.github.io") (Filters None None None)
           false (txt "cybrary") sample_fs cybrary_may_entry).
  vm_compute. reflexivity.
Defined.

(** ** Titles and completion dates are not empty *)

(** What a chain of single characters reads. *)
Lemma matches_chain ps : forall st st',
  In st' (matches (seqs (map Chr ps)) st) ->
  exists pre,
    rest st = pre ++ rest st' /\ caps st' = caps st
    /\ Forall2 (fun p c => p c = true) ps pre.
Proof.
  induction ps as [|p ps IH]; intros st st' Hin.
  - destruct Hin as [<-|[]]. exists []. repeat split. constructor.
  - destruct ps as [|q ps].
    + cbn [map seqs] in Hin. apply reads_chr in Hin as (c & Hr & Hf & Hc).
      exists [c]. repeat split; try assumption.
      apply Forall_cons_iff in Hf as [Hf _]. repeat constructor. exact Hf.
    + cbn [map seqs] in Hin. rewrite matches_seq in Hin.
      apply in_flat_map in Hin as (st1 & H1 & H2).
      apply reads_chr in H1 as (c & Hr & Hf & Hc).
      apply IH in H2 as (pre & Hr2 & Hc2 & Hf2).
      exists (c :: pre). cbn [app] in Hr. rewrite Hr, Hr2, Hc2, Hc.
      repeat split. apply Forall_cons_iff in Hf as [Hf _]. constructor; assumption.
Qed.

Lemma nocase_space c : Char.is_nocase " " c = true -> c = " "%char.
Proof.
  destruct c as [[] [] [] [] [] [] [] []]; vm_compute; intros H;
    try discriminate H; reflexivity.
Qed.

Lemma word_not_space c : Char.is_word c = true -> Char.is_space c = false.
Proof.
  destruct c as [[] [] [] [] [] [] [] []]; vm_compute; intros H;
    try discriminate H; reflexivity.
Qed.

Lemma digit_not_space c : Char.is_digit c = true -> Char.is_space c = false.
Proof.
  destruct c as [[] [] [] [] [] [] [] []]; vm_compute; intros H;
    try discriminate H; reflexivity.
Qed.

(** In a tidy text, white space is followed by something else. *)
Lemma tidy_after_space a c d b :
  tidy (a ++ c :: d :: b) -> Char.is_space c = true -> Char.is_space d = false.
Proof.
  intros [Ha Hf] Hc. apply adj_app_r in Ha. cbn [adj] in Ha. destruct Ha as [Hne _].
  apply Forall_app in Hf as [_ Hf].
  apply Forall_cons_iff in Hf as [Hoc Hf]. apply Forall_cons_iff in Hf as [Hod _].
  destruct (Char.is_space d) eqn:Hd; [|reflexivity].
  exfalso. apply Hne. rewrite (Hoc Hc), (Hod Hd). reflexivity.
Qed.

(** [p+] and [p+?] read at least one character. *)
Lemma plus_reads_one g p st st' :
  In st' (matches (Plus g (Chr p)) st) ->
  exists c pre, rest st = c :: pre ++ rest st' /\ p c = true /\ caps st' = caps st.
Proof.
  intros Hin.
  assert (Hc : caps st' = caps st)
    by (eapply (matches_plain_caps (Plus g (Chr p))); [reflexivity | exact Hin]).
  unfold Plus in Hin. rewrite matches_seq in Hin.
  apply in_flat_map in Hin as (st1 & H1 & H2).
  apply reads_chr in H1 as (c & Hr & Hf & _).
  apply matches_suffix in H2 as [pre H2].
  exists c, pre. cbn [app] in Hr. rewrite Hr, H2.
  apply Forall_cons_iff in Hf as [Hf _]. auto.
Qed.

(** A text that starts outside white space is not empty once stripped. *)
Lemma strip_nonempty c g :
  Char.is_space c = false -> str_strip (c :: g) <> [].
Proof.
  intros Hc He.
  assert (H : In c (str_strip (c :: g)))
    by (apply strip_by_keeps; [left; reflexivity | exact Hc]).
  rewrite He in H. destruct H.
Qed.

Lemma chain_first p ps st st' :
  In st' (matches (seqs (map Chr (p :: ps))) st) ->
  exists c pre, rest st = c :: pre ++ rest st' /\ p c = true.
Proof.
  intros Hin. apply matches_chain in Hin as (pre & Hr & _ & Hf).
  inversion Hf as [|? c ? pre' Hc Hf']; subst.
  exists c, pre'. split; [exact Hr | exact Hc].
Qed.

Lemma chain_last ps q st st' :
  In st' (matches (seqs (map Chr (ps ++ [q]))) st) ->
  exists pre c, rest st = pre ++ c :: rest st' /\ q c = true
                /\ caps st' = caps st.
Proof.
  intros Hin. apply matches_chain in Hin as (pre & Hr & Hc & Hf).
  apply Forall2_app_inv_l in Hf as (l1 & l2 & Hf1 & Hf2 & ->).
  inversion Hf2 as [|? c ? l2' Hq Hf3]; subst. inversion Hf3; subst.
  exists l1, c. rewrite Hr, <- app_assoc. auto.
Qed.

Lemma seq_first_char A B (p : ascii -> bool) :
  (forall a b, In b (matches A a) ->
               exists c pre, rest a = c :: pre ++ rest b /\ p c = true) ->
  forall a b, In b (matches (Seq A B) a) ->
              exists c pre, rest a = c :: pre ++ rest b /\ p c = true.
Proof.
  intros HA a b Hin. rewrite matches_seq in Hin.
  apply in_flat_map in Hin as (a1 & H1 & H2).
  apply HA in H1 as (c & pre & Hr & Hc). apply matches_suffix in H2 as [pre2 H2].
  exists c, (pre ++ pre2). rewrite Hr, H2, <- app_assoc. auto.
Qed.

(** A group whose pattern starts in the class [p] captures a text that
    starts in [p]. *)
Lemma group_first_char i r (p : ascii -> bool) st st' :
  (forall a b, In b (matches r a) ->
               exists c pre, rest a = c :: pre ++ rest b /\ p c = true) ->
  In st' (matches (Group i r) st) ->
  exists c g tail,
    cap_lookup i (caps st') = Some (c :: g) /\ rest st = c :: tail /\ p c = true.
Proof.
  intros Hr Hin.
  apply matches_group_reads in Hin as (st1 & pre & H1 & Hpre & ->).
  apply Hr in H1 as (c & pre' & Hr1 & Hc).
  assert (pre = c :: pre').
  { eapply app_inv_tail. rewrite <- Hpre, Hr1. reflexivity. }
  subst pre. exists c, pre', (pre' ++ rest st1).
  unfold cap_lookup. cbn [caps List.find fst snd]. rewrite Nat.eqb_refl.
  split; [reflexivity|]. split; [exact Hr1 | exact Hc].
Qed.

Lemma flat_map_flat_map {A B C : Type} (f : A -> list B) (g : B -> list C) l :
  flat_map g (flat_map f l) = flat_map (fun x => flat_map g (f x)) l.
Proof.
  induction l as [|x l IH]; [reflexivity|].
  cbn [flat_map]. rewrite flat_map_app, IH. reflexivity.
Qed.

Lemma matches_seq_assoc r1 r2 r3 st :
  matches (Seq r1 (Seq r2 r3)) st = matches (Seq (Seq r1 r2) r3) st.
Proof.
  rewrite !matches_seq, flat_map_flat_map.
  apply flat_map_ext. intros x. rewrite matches_seq. reflexivity.
Qed.

Lemma search_from_seq_assoc r1 r2 r3 : forall s before p,
  search_from (Seq r1 (Seq r2 r3)) before p s
  = search_from (Seq (Seq r1 r2) r3) before p s.
Proof.
  induction s as [|c t IH]; intros before p; cbn [search_from]; unfold match_here;
    rewrite matches_seq_assoc; [reflexivity|].
  destruct (head _); [reflexivity | apply IH].
Qed.

Lemma ahead_plain_caps r st st' :
  plain r = true -> In st' (matches (Ahead r) st) -> caps st' = caps st.
Proof.
  intros Hp Hin. cbn [matches] in Hin.
  destruct (matches r st) as [|st1 l] eqn:Hm; [destruct Hin|].
  destruct Hin as [<-|[]]. cbn [caps].
  apply (matches_plain_caps r Hp). rewrite Hm. left. reflexivity.
Qed.

(** A group [(p+)] or [(p+?)] that follows white space in a tidy text
    captures a text that starts outside white space. *)
Lemma search_group_after_space L R g p text m :
  (forall st st', In st' (matches L st) ->
                  exists pre c, rest st = pre ++ c :: rest st'
                                /\ Char.is_space c = true) ->
  (forall x y, In y (matches R x) -> caps y = caps x) ->
  tidy text ->
  re_search (Seq L (Seq (Group 1 (Plus g (Chr p))) R)) text = Some m ->
  exists c grp, group 1 m = Some (c :: grp) /\ Char.is_space c = false.
Proof.
  intros HL HR Ht Hs. apply search_from_suffix in Hs as (pre0 & s' & p' & -> & Hm).
  unfold match_here in Hm. apply head_In in Hm.
  rewrite matches_seq in Hm. apply in_flat_map in Hm as (st1 & H1 & Hm).
  rewrite matches_seq in Hm. apply in_flat_map in Hm as (st2 & H2 & Hm).
  apply HL in H1 as (preL & cs & Hr & Hcs). cbn [rest] in Hr.
  apply (group_first_char 1 _ p) in H2 as (c & grp & tail & Hcap & Hrest & _).
  2:{ intros a b Hab. apply plus_reads_one in Hab as (c & pre & Hab & Hc & _). eauto. }
  exists c, grp. unfold group. rewrite (HR _ _ Hm). split; [exact Hcap|].
  rewrite Hr, Hrest, app_assoc in Ht. eapply tidy_after_space; eauto.
Qed.

Lemma liti_ends_space body st st' :
  In st' (matches (seqs (map Chr (map Char.is_nocase body ++ [Char.is_nocase " "]))) st) ->
  exists pre c, rest st = pre ++ c :: rest st' /\ Char.is_space c = true.
Proof.
  intros Hin. apply chain_last in Hin as (pre & c & Hr & Hc & _).
  exists pre, c. split; [exact Hr|]. apply nocase_space in Hc. subst c. reflexivity.
Qed.

Lemma udemy_title_group text m :
  tidy text -> re_search re_udemy_title text = Some m ->
  exists c grp, group 1 m = Some (c :: grp) /\ Char.is_space c = false.
Proof.
  intros Ht Hs. unfold re_udemy_title, any_plus_lazy in Hs. cbn [seqs] in Hs.
  eapply (search_group_after_space _ _ _ _ _ _ _ _ Ht Hs).
  Unshelve.
  - intros st st'. apply (liti_ends_space (txt "completed the")).
  - apply (matches_plain_caps (Seq (Opt (liti "online course")) (liti " on")) eq_refl).
Qed.

Lemma udemy_date_group text m :
  tidy text -> re_search re_udemy_date text = Some m ->
  exists c grp, group 1 m = Some (c :: grp) /\ Char.is_space c = false.
Proof.
  intros Ht Hs. unfold re_udemy_date, any_plus_lazy in Hs. cbn [seqs] in Hs.
  eapply (search_group_after_space _ _ _ _ _ _ _ _ Ht Hs).
  Unshelve.
  - intros st st'. apply (liti_ends_space (txt "on")).
  - apply (matches_plain_caps (alts [liti "Instructor"; liti "Certificate"; liti "UC-"])
                              eq_refl).
Qed.

Lemma dl_title_group text m :
  tidy text -> re_search re_dl_title text = Some m ->
  exists c grp, group 1 m = Some (c :: grp) /\ Char.is_space c = false.
Proof.
  intros Ht Hs. unfold re_dl_title, dot_plus_lazy in Hs. cbn [seqs] in Hs.
  eapply (search_group_after_space _ _ _ _ _ _ _ _ Ht Hs).
  Unshelve.
  - intros st st'. apply (liti_ends_space (txt "congratulations on completing")).
  - intros x y. apply (ahead_plain_caps (alts [lit "."; lit "!"; nl]) x y eq_refl).
Qed.

Lemma cybrary_title_group text m :
  tidy text -> re_search re_cybrary_title text = Some m ->
  exists c grp, group 1 m = Some (c :: grp) /\ Char.is_space c = false.
Proof.
  intros Ht Hs. unfold re_cybrary_title, any_plus_lazy, re_search in Hs.
  cbn [seqs] in Hs. rewrite search_from_seq_assoc in Hs.
  eapply (search_group_after_space _ _ _ _ _ _ _ _ Ht Hs).
  Unshelve.
  - intros st st' Hin. rewrite matches_seq in Hin.
    apply in_flat_map in Hin as (s1 & H1 & H2).
    apply matches_suffix in H1 as [p1 H1].
    apply reads_plus in H2 as (pre & (Hr & Hf & _) & Hne).
    destruct (exists_last Hne) as (body & c & ->).
    exists (p1 ++ body), c. rewrite H1, Hr, <- !app_assoc. split; [reflexivity|].
    apply Forall_app in Hf as [_ Hf]. apply Forall_cons_iff in Hf as [Hf _]. exact Hf.
  - apply (matches_plain_caps (Alt nl (liti "Date")) eq_refl).
Qed.

Lemma search_group_first r (p : ascii -> bool) s m :
  (forall a b, In b (matches r a) ->
               exists c pre, rest a = c :: pre ++ rest b /\ p c = true) ->
  re_search (Group 1 r) s = Some m ->
  exists c grp, group 1 m = Some (c :: grp) /\ p c = true.
Proof.
  intros Hr Hs. apply search_from_suffix in Hs as (pre0 & s' & p' & -> & Hm).
  unfold match_here in Hm. apply head_In in Hm.
  apply (group_first_char 1 _ p) in Hm as (c & grp & tail & Hcap & _ & Hc);
    [|exact Hr].
  exists c, grp. split; assumption.
Qed.

Lemma search_seq_group_first L r (p : ascii -> bool) s m :
  (forall a b, In b (matches r a) ->
               exists c pre, rest a = c :: pre ++ rest b /\ p c = true) ->
  re_search (Seq L (Group 1 r)) s = Some m ->
  exists c grp, group 1 m = Some (c :: grp) /\ p c = true.
Proof.
  intros Hr Hs. apply search_from_suffix in Hs as (pre0 & s' & p' & -> & Hm).
  unfold match_here in Hm. apply head_In in Hm.
  rewrite matches_seq in Hm. apply in_flat_map in Hm as (st1 & _ & Hm).
  apply (group_first_char 1 _ p) in Hm as (c & grp & tail & Hcap & _ & Hc);
    [|exact Hr].
  exists c, grp. split; assumption.
Qed.

Lemma chr_first_char p a b :
  In b (matches (Chr p) a) ->
  exists c pre, rest a = c :: pre ++ rest b /\ p c = true.
Proof.
  intros Hin. apply reads_chr in Hin as (c & Hr & Hf & _).
  apply Forall_cons_iff in Hf as [Hf _]. exists c, []. auto.
Qed.

Lemma first_char_weaken r (p q : ascii -> bool) :
  (forall c, p c = true -> q c = true) ->
  (forall a b, In b (matches r a) ->
               exists c pre, rest a = c :: pre ++ rest b /\ p c = true) ->
  forall a b, In b (matches r a) ->
              exists c pre, rest a = c :: pre ++ rest b /\ q c = true.
Proof.
  intros Hpq Hr a b Hin. apply Hr in Hin as (c & pre & H1 & H2). eauto.
Qed.

Lemma cybrary_date_group text m :
  re_search re_cybrary_date text = Some m ->
  exists c grp, group 1 m = Some (c :: grp) /\ Char.is_space c = false.
Proof.
  intros Hs. unfold re_cybrary_date, digit in Hs. cbn [seqs Rep] in Hs.
  apply (search_group_first _ (fun c => negb (Char.is_space c))) in Hs
    as (c & grp & Hg & Hc); [exists c, grp; split; [exact Hg | apply negb_true_iff, Hc]|].
  intros a b Hin. rewrite matches_alt in Hin. apply in_app_iff in Hin as [Hin|Hin].
  - revert a b Hin. apply seq_first_char. intros a b Hin.
    change (lit "May ")
      with (seqs (map Chr (Char.is_c "M" :: map Char.is_c (txt "ay ")))) in Hin.
    apply chain_first in Hin as (c & pre & Hr & Hc).
    apply is_c_true in Hc. subst c. exists "M"%char, pre. auto.
  - revert a b Hin. apply seq_first_char, seq_first_char.
    apply (first_char_weaken _ Char.is_digit); [|apply chr_first_char].
    intros c Hc. rewrite (digit_not_space c Hc). reflexivity.
Qed.

Lemma li_date_group text m :
  re_search re_li_date text = Some m ->
  exists c grp, group 1 m = Some (c :: grp) /\ Char.is_space c = false.
Proof.
  intros Hs. unfold re_li_date in Hs. cbn [seqs] in Hs.
  apply (search_seq_group_first _ _ (fun c => negb (Char.is_space c))) in Hs
    as (c & grp & Hg & Hc); [exists c, grp; split; [exact Hg | apply negb_true_iff, Hc]|].
  apply seq_first_char. intros a b Hin.
  apply plus_reads_one in Hin as (c & pre & Hr & Hc & _).
  exists c, pre. rewrite (word_not_space c Hc). auto.
Qed.

Lemma dl_filename_date_group name m :
  re_search re_dl_filename_date name = Some m ->
  exists c grp, group 1 m = Some (c :: grp) /\ Char.is_digit c = true.
Proof.
  intros Hs. unfold re_dl_filename_date, digit in Hs. cbn [seqs Rep] in Hs.
  apply (search_group_first _ Char.is_digit) in Hs; [exact Hs|].
  apply seq_first_char, seq_first_char, chr_first_char.
Qed.

(** X13: the completion date of an entry is never empty, and its title is
    never empty unless the provider is linkedinlearning. *)
Theorem extract_metadata_fields_not_empty
        pdf_text sha256_hexdigest repo fs pdf_path release_tag test_mode
        github_page_url f fetch_urls provider_id fs' r :
  extract_metadata pdf_text sha256_hexdigest repo fs pdf_path release_tag test_mode
                   github_page_url f fetch_urls provider_id = (fs', Some r) ->
  completion r <> []
  /\ (provider_id <> txt "linkedinlearning" -> title r <> []).
Proof.
  intros H. apply extract_metadata_some in H
    as (raw & x & _ & Hb & _ & -> & -> & _).
  destruct (clean_text_tidy raw) as [Ht _].
  unfold provider_branch in Hb.
  destruct (str_eqb provider_id (txt "udemy")).
  { apply extract_udemy_bound in Hb
      as [(tm & gt & Htm & Hgt & ->) (dm & gd & Hdm & Hgd & ->)].
    destruct (udemy_title_group _ _ Ht Htm) as (c1 & g1 & E1 & N1).
    destruct (udemy_date_group _ _ Ht Hdm) as (c2 & g2 & E2 & N2).
    rewrite Hgt in E1. rewrite Hgd in E2. injection E1 as ->. injection E2 as ->.
    split; [|intros _]; apply strip_nonempty; assumption. }
  destruct (str_eqb provider_id (txt "cybrary")).
  { apply extract_cybrary_bound in Hb
      as ((tm & gt & Htm & Hgt & ->) & (dm & gd & Hdm & Hgd & ->) & _).
    destruct (cybrary_title_group _ _ Ht Htm) as (c1 & g1 & E1 & N1).
    destruct (cybrary_date_group _ _ Hdm) as (c2 & g2 & E2 & N2).
    rewrite Hgt in E1. rewrite Hgd in E2. injection E1 as ->. injection E2 as ->.
    split; [|intros _]; apply strip_nonempty; assumption. }
  destruct (str_eqb provider_id (txt "deeplearningai")).
  { apply extract_deeplearningai_bound in Hb
      as [(tm & gt & Htm & Hgt & ->) (dm & gd & Hdm & Hgd & ->)].
    destruct (dl_title_group _ _ Ht Htm) as (c1 & g1 & E1 & N1).
    destruct (dl_filename_date_group _ _ Hdm) as (c2 & g2 & E2 & N2).
    rewrite Hgt in E1. rewrite Hgd in E2. injection E1 as ->. injection E2 as ->.
    split; [discriminate | intros _; apply strip_nonempty; assumption]. }
  destruct (str_eqb provider_id (txt "linkedinlearning")) eqn:E4; [|discriminate].
  apply str_eqb_true in E4.
  apply extract_linkedinlearning_bound in Hb as [_ (dm & gd & Hdm & Hgd & ->)].
  destruct (li_date_group _ _ Hdm) as (c2 & g2 & E2 & N2).
  rewrite Hgd in E2. injection E2 as ->.
  split; [apply strip_nonempty; assumption | congruence].
Qed.

Lemma extract_metadata_fields_not_empty_witness :
  completion cybrary_may_entry <> []
  /\ (txt "cybrary" <> txt "linkedinlearning" -> title cybrary_may_entry <> []).
Proof.
  apply (extract_metadata_fields_not_empty (fun _ => Some cybrary_may) (fun _ => []) None
           sample_fs (txt "certs/a.pdf") (txt "certs") true
           (txt "https://lspironello.github.io") (Filters None None None)
           false (txt "cybrary") sample_fs cybrary_may_entry).
  vm_compute. reflexivity.
Defined.

(** A linkedinlearning entry can have the empty title. *)
Example linkedinlearning_empty_title :
  title <$> snd (extract_metadata
                   (fun _ => Some (txt "Course completed by Jan 05, 2024"))
                   (fun _ => txt "0123456789abcdef") None
                   (FS {[ txt "certs/CertificateOfCompletion_.pdf" := txt "pdf" ]}
                       {[ txt "certs" ]})
                   (txt "certs/CertificateOfCompletion_.pdf") (txt "certs") true
                   (txt "https://lspironello.github.io") (Filters None None None)
                   false (txt "linkedinlearning"))
  = Some [].
Proof. vm_compute. reflexivity. Qed.

(** ** The counts of the aggregator *)

Section CountFacts.

Context {K : Type} `{EqDecision K}.

Lemma freq_plus_others (x : K) (items : list K) :
  freq x items + length (others x items) = length items.
Proof.
  induction items as [|y ys IH]; [reflexivity|].
  rewrite freq_cons. unfold others in *. cbn [List.filter].
  destruct (bool_decide (y = x)); cbn [negb length]; lia.
Qed.

Lemma Counter_sum (items : list K) :
  list_sum (map snd (Counter items)) = length items.
Proof.
  assert (H : forall n (xs : list K),
             length xs <= n -> list_sum (map snd (Counter xs)) = length xs).
  { induction n as [|n IH]; intros [|x xs] Hlen; try reflexivity;
      [simpl in Hlen; lia|].
    rewrite Counter_cons.
    change (list_sum (map snd ((x, S (freq x xs)) :: Counter (others x xs))))
      with (S (freq x xs) + list_sum (map snd (Counter (others x xs)))).
    rewrite IH by (simpl in Hlen; pose proof (length_others x xs); lia).
    pose proof (freq_plus_others x xs). simpl. lia. }
  apply (H (length items)). lia.
Qed.

Lemma Counter_keys_nodup (items : list K) : NoDup (map fst (Counter items)).
Proof.
  remember (length items) as len eqn:Hlen.
  revert items Hlen. induction len as [len IH] using lt_wf_ind.
  intros [|x xs] Hlen; [constructor|].
  rewrite Counter_cons. cbn [map fst]. apply NoDup_cons_2.
  - intros Hin. apply list_elem_of_In, in_map_iff in Hin as ([k n] & Hk & Hin).
    cbn in Hk. subst k. apply Counter_entry in Hin as [Hin _].
    apply In_others in Hin as [_ Hne]. congruence.
  - apply (IH (length (others x xs)));
      [subst len; simpl; pose proof (length_others x xs); lia | reflexivity].
Qed.

Lemma Counter_counts (items : list K) : counts_of (Counter items) items.
Proof.
  split; [apply Counter_keys_nodup|]. split; [|apply Counter_sum].
  intros k n. split.
  - apply Counter_entry.
  - intros [Hin ->]. apply Counter_has. exact Hin.
Qed.

(** Setting the counts key by key. *)
Lemma fold_dict_head (cnt : K -> nat) (items : list K) (x : K) (d : list (K * nat)) :
  fold_left (fun d k => dict_set k (cnt k) d) items ((x, cnt x) :: d)
  = (x, cnt x) :: fold_left (fun d k => dict_set k (cnt k) d) (others x items) d.
Proof.
  revert d. induction items as [|y ys IH]; intros d; [reflexivity|].
  cbn [fold_left dict_set]. unfold others. cbn [List.filter].
  destruct (bool_decide (y = x)) eqn:Hy.
  - apply bool_decide_eq_true in Hy. subst y.
    rewrite bool_decide_eq_true_2 by reflexivity. cbn [negb]. apply IH.
  - apply bool_decide_eq_false in Hy.
    rewrite bool_decide_eq_false_2 by congruence. cbn [negb fold_left]. apply IH.
Qed.

Lemma fold_dict_counter (cnt : K -> nat) (items : list K) :
  (forall k, In k items -> cnt k = freq k items) ->
  fold_left (fun d k => dict_set k (cnt k) d) items [] = Counter items.
Proof.
  remember (length items) as len eqn:Hlen.
  revert items Hlen. induction len as [len IH] using lt_wf_ind.
  intros [|x xs] Hlen Hcnt; [reflexivity|].
  rewrite Counter_cons. cbn [fold_left dict_set]. rewrite fold_dict_head.
  rewrite (Hcnt x) by (left; reflexivity).
  rewrite freq_cons, bool_decide_eq_true_2 by reflexivity. cbn [Nat.add].
  f_equal. apply (IH (length (others x xs)));
    [subst len; simpl; pose proof (length_others x xs); lia | reflexivity |].
  intros k Hin. apply In_others in Hin as [Hin Hne].
  rewrite (Hcnt k) by (right; exact Hin).
  rewrite freq_cons, bool_decide_eq_false_2 by congruence.
  symmetry. apply freq_others. exact Hne.
Qed.

End CountFacts.

Lemma fold_left_map_arg {A B C : Type} (f : C -> B -> C) (g : A -> B) l init :
  fold_left (fun acc x => f acc (g x)) l init = fold_left f (map g l) init.
Proof.
  revert init. induction l as [|x l IH]; intros init; [reflexivity|]. apply IH.
Qed.

Lemma freq_map {A K : Type} `{EqDecision K} (g : A -> K) (k : K) (l : list A) :
  freq k (map g l) = length (List.filter (fun x => bool_decide (g x = k)) l).
Proof.
  unfold freq. induction l as [|x l IH]; [reflexivity|].
  cbn [map List.filter]. destruct (bool_decide (g x = k)); cbn [length]; rewrite IH;
    reflexivity.
Qed.

(** The statistics of a list that is not empty. *)
Lemma generate_statistics_fields (l : list metadata) :
  l <> [] ->
  exists mcs,
    generate_statistics l
    = Some [("total_courses", VInt (length l));
            ("by_year", VByYear (Counter (map year l)));
            ("by_provider", VByProvider (Counter (map provider l)));
            ("avg_skills_per_course",
             VRatio (length (List.filter has_skills l)) (length l));
            ("unique_skills", VInt (length (Counter (all_skills l))));
            ("most_common_skill", VStr mcs);
            ("completion_trend", VByYear (Counter (map year l)))]%string.
Proof.
  intros Hne. destruct l as [|m0 l0]; [congruence|].
  unfold generate_statistics. set (l := m0 :: l0) in *.
  assert (Hmc : exists mcs,
             (if existsb has_skills l
              then fst <$> head (most_common_1 (Counter (all_skills l)))
              else Some (txt "N/A")) = Some mcs).
  { destruct (existsb has_skills l) eqn:Hany; [|eauto].
    destruct (most_common_1_spec (all_skills l) (all_skills_nonempty l Hany))
      as (s & _ & _ & Hmc & _). eauto. }
  destruct Hmc as [mcs Hmc]. exists mcs. rewrite Hmc. cbn [mbind option_bind].
  rewrite (fold_left_map_arg (fun d k => counter_add k d) year).
  change (fold_left (fun d k => counter_add k d) (map year l) [])
    with (Counter (map year l)).
  assert (Htrend :
            fold_left
              (fun d m => dict_set (year m)
                            (length (List.filter (fun x => bool_decide (year x = year m)) l)) d)
              l []
            = Counter (map year l)).
  { etransitivity;
      [exact (fold_left_map_arg
                (fun d k => dict_set k
                              (length (List.filter (fun x => bool_decide (year x = k)) l)) d)
                year l [])|].
    apply (fold_dict_counter
             (fun k => length (List.filter (fun x => bool_decide (year x = k)) l))).
    intros k _. symmetry. apply freq_map. }
  rewrite Htrend. reflexivity.
Qed.

(** X14: for a list of entries that is not empty, total_courses is the
    number of entries, and by_year and by_provider each have one entry per
    year (per provider) that occurs, holding the number of entries with it;
    so the counts of each add up to total_courses. *)
Theorem generate_statistics_counts (l : list metadata) :
  l <> [] ->
  exists stats by_year by_provider,
    generate_statistics l = Some stats
    /\ stat_get "total_courses" stats = Some (VInt (length l))
    /\ stat_get "by_year" stats = Some (VByYear by_year)
    /\ stat_get "by_provider" stats = Some (VByProvider by_provider)
    /\ counts_of by_year (map year l)
    /\ counts_of by_provider (map provider l)
    /\ list_sum (map snd by_year) = length l
    /\ list_sum (map snd by_provider) = length l.
Proof.
  intros Hne. destruct (generate_statistics_fields l Hne) as [mcs Hs].
  eexists _, (Counter (map year l)), (Counter (map provider l)).
  split; [exact Hs|]. repeat (split; [reflexivity|]).
  split; [apply Counter_counts|]. split; [apply Counter_counts|].
  rewrite !Counter_sum, !length_map. auto.
Qed.

Lemma generate_statistics_counts_witness :
  exists stats by_year by_provider,
    generate_statistics [entry_with_skills "A"; entry_with_skills "B"] = Some stats
    /\ stat_get "total_courses" stats = Some (VInt 2)
    /\ stat_get "by_year" stats = Some (VByYear by_year)
    /\ stat_get "by_provider" stats = Some (VByProvider by_provider)
    /\ counts_of by_year (map year [entry_with_skills "A"; entry_with_skills "B"])
    /\ counts_of by_provider (map provider [entry_with_skills "A"; entry_with_skills "B"])
    /\ list_sum (map snd by_year) = 2
    /\ list_sum (map snd by_provider) = 2.
Proof.
  apply (generate_statistics_counts [entry_with_skills "A"; entry_with_skills "B"]).
  discriminate.
Defined.

(** X15: completion_trend, which counts for every entry the entries of its
    year, is always the same dictionary as by_year, which counts entry by
    entry. *)
Theorem completion_trend_is_by_year (l : list metadata) stats :
  generate_statistics l = Some stats ->
  stat_get "completion_trend" stats = stat_get "by_year" stats.
Proof.
  intros H. destruct l as [|m0 l0].
  - injection H as <-. reflexivity.
  - destruct (generate_statistics_fields (m0 :: l0)) as [mcs Hs]; [discriminate|].
    rewrite Hs in H. injection H as <-. reflexivity.
Qed.

Lemma completion_trend_is_by_year_witness :
  exists stats,
    generate_statistics [entry_with_skills "A"; entry_with_skills "B"] = Some stats
    /\ stat_get "completion_trend" stats = stat_get "by_year" stats.
Proof.
  eexists. split; [vm_compute; reflexivity|].
  apply (completion_trend_is_by_year [entry_with_skills "A"; entry_with_skills "B"]).
  vm_compute. reflexivity.
Defined.

(** X16: unique_skills is the number of different skills among the skills
    of all entries. *)
Theorem unique_skills_counts_distinct (l : list metadata) :
  l <> [] ->
  exists stats ks,
    generate_statistics l = Some stats
    /\ stat_get "unique_skills" stats = Some (VInt (length ks))
    /\ NoDup ks
    /\ forall k, In k ks <-> In k (all_skills l).
Proof.
  intros Hne. destruct (generate_statistics_fields l Hne) as [mcs Hs].
  eexists _, (map fst (Counter (all_skills l))).
  split; [exact Hs|]. split; [rewrite length_map; reflexivity|].
  split; [apply Counter_keys_nodup|].
  intros k. split.
  - intros Hin. apply in_map_iff in Hin as ([k' n] & Hk & Hin). cbn in Hk. subst k'.
    apply Counter_entry in Hin. apply Hin.
  - intros Hin. apply Counter_has in Hin. apply in_map_iff.
    exists (k, freq k (all_skills l)). auto.
Qed.

Lemma unique_skills_counts_distinct_witness :
  exists stats ks,
    generate_statistics [entry_with_skills "A, B"; entry_with_skills "B"] = Some stats
    /\ stat_get "unique_skills" stats = Some (VInt (length ks))
    /\ NoDup ks
    /\ forall k, In k ks
                 <-> In k (all_skills [entry_with_skills "A, B"; entry_with_skills "B"]).
Proof.
  apply (unique_skills_counts_distinct
           [entry_with_skills "A, B"; entry_with_skills "B"]).
  discriminate.
Defined.

(** X17: avg_skills_per_course is the number of entries that have skills
    over the number of entries: the divisor is never zero and the quotient
    never above one. *)
Theorem avg_skills_is_a_share (l : list metadata) :
  l <> [] ->
  exists stats n,
    generate_statistics l = Some stats
    /\ stat_get "avg_skills_per_course" stats = Some (VRatio n (length l))
    /\ n = length (List.filter (fun m => negb (is_empty (skills m))) l)
    /\ n <= length l /\ 0 < length l.
Proof.
  intros Hne. destruct (generate_statistics_fields l Hne) as [mcs Hs].
  eexists _, _. split; [exact Hs|]. split; [reflexivity|].
  split; [reflexivity|]. split.
  - apply List.filter_length_le.
  - destruct l; [congruence | simpl; lia].
Qed.

Lemma avg_skills_is_a_share_witness :
  exists stats n,
    generate_statistics [entry_with_skills "A"; entry_with_skills ""] = Some stats
    /\ stat_get "avg_skills_per_course" stats = Some (VRatio n 2)
    /\ n = length (List.filter (fun m => negb (is_empty (skills m)))
                               [entry_with_skills "A"; entry_with_skills ""])
    /\ n <= 2 /\ 0 < 2.
Proof.
  apply (avg_skills_is_a_share [entry_with_skills "A"; entry_with_skills ""]).
  discriminate.
Defined.

(** ** Splitting the skills *)

Lemma str_join_cons sep p ps :
  ps <> [] -> str_join sep (p :: ps) = p ++ sep ++ str_join sep ps.
Proof. destruct ps; [congruence | reflexivity]. Qed.

Lemma join_split_aux : forall n s acc,
  length s <= n ->
  str_join (txt ", ") (split_comma_space_aux acc s) = rev acc ++ s.
Proof.
  induction n as [|n IH]; intros s acc Hlen.
  - destruct s; [|simpl in Hlen; lia]. cbn. rewrite app_nil_r. reflexivity.
  - destruct s as [|c t]; [cbn; rewrite app_nil_r; reflexivity|].
    simpl in Hlen. cbn [split_comma_space_aux].
    destruct t as [|d t'].
    + rewrite IH by (simpl in *; lia). cbn [rev]. rewrite <- app_assoc. reflexivity.
    + destruct (Char.is_c "," c && Char.is_c " " d) eqn:Hsep.
      * apply andb_true_iff in Hsep as [Hc Hd].
        apply is_c_true in Hc, Hd. subst c d.
        rewrite str_join_cons by apply split_comma_space_aux_nonempty.
        rewrite IH by (simpl in *; lia). reflexivity.
      * rewrite IH by (simpl in *; lia). cbn [rev]. rewrite <- app_assoc. reflexivity.
Qed.

(** X18: splitting a skills text on ", " loses nothing: there is at least
    one part, and the parts joined with ", " are the text again. *)
Theorem split_then_join (s : str) :
  str_split_comma_space s <> []
  /\ str_join (txt ", ") (str_split_comma_space s) = s.
Proof.
  split; [apply split_comma_space_aux_nonempty|].
  unfold str_split_comma_space. apply (join_split_aux (length s)). lia.
Qed.

(** ** Renaming udemy files before processing *)

Example rename_udemy_file_sample :
  rename_udemy_file (fun _ => Some udemy_page) two_files_fs (txt "certs/a.pdf") false
  = (FS {[ txt "certs/March-5-2024-python-basics.pdf" := txt "pdf-a";
           txt "certs/b.pdf" := txt "pdf-b" ]} {[ txt "certs" ]}, true).
Proof. vm_compute. reflexivity. Qed.

Lemma os_rename_keeps fs src dst fs' :
  os_rename fs src dst = Some fs' -> files fs !! dst = None ->
  dirs fs' = dirs fs
  /\ forall q, q <> src -> is_Some (files fs !! q) -> files fs' !! q = files fs !! q.
Proof.
  unfold os_rename. intros H Hdst.
  destruct (files fs !! src) as [content|] eqn:Hsrc; [|discriminate].
  destruct (_ && _); [|discriminate]. injection H as <-. cbn [files dirs].
  split; [reflexivity|]. intros q Hq [c Hc].
  assert (dst <> q) by congruence.
  rewrite lookup_insert_ne by assumption. apply lookup_delete_ne. congruence.
Qed.

(** X19: [rename_udemy_file] never replaces a file: whatever it does, the
    directories and every file other than the document are as before; in
    a dry run, and whenever it returns false, the file system is unchanged. *)
Theorem rename_udemy_file_safe first_page_text fs pdf_path test_mode :
  let '(fs', ok) := rename_udemy_file first_page_text fs pdf_path test_mode in
  (test_mode = true -> fs' = fs)
  /\ (ok = false -> fs' = fs)
  /\ dirs fs' = dirs fs
  /\ forall q, q <> pdf_path -> is_Some (files fs !! q) ->
               files fs' !! q = files fs !! q.
Proof.
  unfold rename_udemy_file.
  destruct (first_page_text pdf_path) as [text|]; [|auto].
  destruct (re_search re_rename_udemy_title text) as [tm|]; [|auto].
  destruct (re_search re_rename_udemy_date text) as [dm|]; [|auto].
  destruct (group 1 tm) as [t|]; [|auto].
  destruct (group 1 dm) as [d|]; [|auto]. cbv zeta.
  destruct test_mode; [auto|].
  destruct (negb (os_path_isfile fs _)) eqn:Hfile; [|auto].
  apply negb_true_iff, bool_decide_eq_false in Hfile.
  destruct (os_rename fs pdf_path _) as [fs1|] eqn:Hr; [|auto].
  apply os_rename_keeps in Hr as [Hd Hq].
  - split; [discriminate|]. split; [discriminate|]. auto.
  - destruct (files fs !! _) eqn:E; [exfalso; apply Hfile; eauto | reflexivity].
Qed.

Lemma rename_udemy_file_safe_witness :
  files (FS {[ txt "certs/March-5-2024-python-basics.pdf" := txt "pdf-a";
               txt "certs/b.pdf" := txt "pdf-b" ]} {[ txt "certs" ]})
    !! txt "certs/b.pdf"
  = files two_files_fs !! txt "certs/b.pdf".
Proof.
  pose proof (rename_udemy_file_safe (fun _ => Some udemy_page) two_files_fs
                (txt "certs/a.pdf") false) as H.
  rewrite rename_udemy_file_sample in H. destruct H as (_ & _ & _ & H).
  apply H; [discriminate|]. exists (txt "pdf-b"). vm_compute. reflexivity.
Defined.

(** X20: the name that [rename_udemy_file] derives holds no space, and its
    date part, which keeps the order the date is written in (as in
    "March-5-2024"), holds no comma. *)
Theorem udemy_new_name_shape title_group date_group :
  ~ In " "%char (udemy_new_name title_group date_group)
  /\ exists date title,
       udemy_new_name title_group date_group = date ++ txt "-" ++ title ++ txt ".pdf"
       /\ date = str_replace_char " " "-" (str_remove_char "," date_group)
       /\ ~ In ","%char date.
Proof.
  unfold udemy_new_name. cbv zeta.
  assert (Hrep : forall s, ~ In " "%char (str_replace_char " " "-" s)).
  { intros s Hin. unfold str_replace_char in Hin.
    apply in_map_iff in Hin as (c & Hc & _).
    destruct (Char.is_c " " c) eqn:E; [discriminate Hc|].
    apply is_c_false in E. congruence. }
  split.
  - intros Hin. rewrite !in_app_iff in Hin. destruct Hin as [Hin|[Hin|[Hin|Hin]]].
    + exact (Hrep _ Hin).
    + destruct Hin as [Hin|[]]. discriminate Hin.
    + unfold str_lower in Hin. apply in_map_iff in Hin as (c & Hc & Hin).
      assert (c = " "%char).
      { revert Hc. destruct c as [[] [] [] [] [] [] [] []]; vm_compute; intros Hc;
          try discriminate Hc; reflexivity. }
      subst c. exact (Hrep _ Hin).
    + repeat (destruct Hin as [Hin|Hin]; [discriminate Hin|]). destruct Hin.
  - eexists _, _. split; [reflexivity|]. split; [reflexivity|].
    intros Hin. unfold str_replace_char in Hin.
    apply in_map_iff in Hin as (c & Hc & Hin).
    unfold str_remove_char in Hin. apply filter_In in Hin as [_ Hne].
    apply negb_true_iff, is_c_false in Hne.
    destruct (Char.is_c " " c); [discriminate Hc | congruence].
Qed.

(** ** The linkedinlearning title stops at the first underscore *)

Lemma star_loop_lazy step p cs :
  (forall s prv, step (MState s prv cs) = matches (Chr p) (MState s prv cs)) ->
  forall n s prv,
    length s <= n ->
    star_loop step false n (MState s prv cs) = lazy_states p s prv cs.
Proof.
  intros Hstep. induction n as [|n IH]; intros s prv Hlen.
  - destruct s; [reflexivity | simpl in Hlen; lia].
  - cbn [star_loop]. rewrite Hstep, matches_chr. cbn [rest caps].
    destruct s as [|c t]; [reflexivity|]. cbn [lazy_states].
    destruct (p c); [|reflexivity].
    cbn [flat_map rest]. rewrite app_nil_r.
    replace (length t <? length (c :: t)) with true
      by (symmetry; apply Nat.ltb_lt; simpl; lia).
    rewrite IH by (simpl in Hlen; lia). reflexivity.
Qed.

(** The first result of a backtracking sequence comes from the first
    state that has any. *)
Lemma head_flat_map_split {A B : Type} (F : A -> list B) l y :
  head (flat_map F l) = Some y ->
  exists l1 x l2,
    l = l1 ++ x :: l2 /\ Forall (fun z => F z = []) l1 /\ head (F x) = Some y.
Proof.
  induction l as [|a l IH]; [discriminate|]. cbn [flat_map]. intros H.
  destruct (F a) as [|b bs] eqn:Ha.
  - apply IH in H as (l1 & x & l2 & -> & Hf & Hx).
    exists (a :: l1), x, l2. split; [reflexivity|]. split; [|exact Hx].
    constructor; assumption.
  - exists [], a, l. split; [reflexivity|]. split; [constructor|].
    rewrite Ha. exact H.
Qed.

Lemma lazy_states_split p cs : forall l1 s prv x l2,
  lazy_states p s prv cs = l1 ++ x :: l2 ->
  exists g,
    s = g ++ rest x /\ caps x = cs
    /\ forall c, In c g -> exists z tail, In z l1 /\ rest z = c :: tail.
Proof.
  induction l1 as [|z0 l1 IH]; intros s prv x l2 H.
  - destruct s; cbn [lazy_states app] in H; injection H as <- _;
      exists []; repeat split; intros c [].
  - destruct s as [|c t]; cbn [lazy_states app] in H; injection H as <- H.
    { destruct l1; discriminate H. }
    destruct (p c); [|destruct l1; discriminate H].
    apply IH in H as (g & -> & Hc & Hg).
    exists (c :: g). split; [reflexivity|]. split; [exact Hc|].
    intros d [<-|Hd].
    + eexists _, _. split; [left; reflexivity | reflexivity].
    + destruct (Hg d Hd) as (z & tail & Hz & Hr). exists z, tail.
      split; [right; exact Hz | exact Hr].
Qed.

(** The title pattern of linkedinlearning captures no underscore. *)
Lemma li_title_group name m :
  re_search re_li_title name = Some m ->
  exists g, group 1 m = Some g /\ ~ In "_"%char g.
Proof.
  intros Hs. apply search_from_suffix in Hs as (pre0 & s' & p' & _ & Hm).
  unfold match_here, re_li_title in Hm. cbn [seqs] in Hm.
  rewrite matches_seq in Hm.
  apply head_flat_map_split in Hm as (_ & x & _ & _ & _ & Hm).
  rewrite matches_seq, matches_group, matches_star in Hm.
  destruct x as [sx px cx]. cbn [rest] in Hm.
  rewrite (star_loop_lazy _ Char.dot cx) in Hm by (intros; reflexivity || lia).
  apply head_flat_map_split in Hm as (l1 & y & l2 & Hmap & Hfail & Hy).
  apply map_eq_app in Hmap as (k1 & k2' & Hlz & Hk1 & Hk2).
  apply map_eq_cons in Hk2 as (x' & k2 & -> & Hy' & _).
  apply lazy_states_split in Hlz as (g & Hg & Hcx & Hnone).
  apply head_In in Hy.
  apply (matches_plain_caps (Alt (lit "_") (liti ".pdf")) eq_refl) in Hy.
  exists g. split.
  - unfold group. rewrite Hy, <- Hy'. cbn [caps cap_lookup List.find fst snd Nat.eqb].
    f_equal. apply consumed_app. exact Hg.
  - intros Hin. destruct (Hnone _ Hin) as (z & tail & Hz & Hr).
    subst l1. rewrite List.Forall_forall in Hfail.
    specialize (Hfail _ (in_map _ _ _ Hz)).
    rewrite matches_alt in Hfail. apply app_eq_nil in Hfail as [Hfail _].
    change (lit "_") with (Chr (Char.is_c "_")) in Hfail.
    rewrite matches_chr in Hfail. cbn [rest] in Hfail. rewrite Hr in Hfail.
    change (Char.is_c "_" "_") with true in Hfail. discriminate Hfail.
Qed.

(** X21: the title of a linkedinlearning entry is the part of the file
    name between "CertificateOfCompletion_" and the first "_" or ".pdf"
    after it, stripped: it never holds an underscore, so no underscore is
    turned into a space. *)
Theorem linkedinlearning_title_no_underscore
        pdf_text sha256_hexdigest repo fs pdf_path release_tag test_mode
        github_page_url f fetch_urls fs' r :
  extract_metadata pdf_text sha256_hexdigest repo fs pdf_path release_tag test_mode
                   github_page_url f fetch_urls (txt "linkedinlearning")
  = (fs', Some r) ->
  exists m g,
    re_search re_li_title (os_path_basename pdf_path) = Some m
    /\ group 1 m = Some g
    /\ ~ In "_"%char g
    /\ title r = str_strip g
    /\ ~ In "_"%char (title r).
Proof.
  intros H. apply extract_metadata_some in H as (raw & x & _ & Hb & _ & -> & _).
  unfold provider_branch in Hb.
  replace (str_eqb (txt "linkedinlearning") (txt "udemy")) with false in Hb
    by (vm_compute; reflexivity).
  replace (str_eqb (txt "linkedinlearning") (txt "cybrary")) with false in Hb
    by (vm_compute; reflexivity).
  replace (str_eqb (txt "linkedinlearning") (txt "deeplearningai")) with false in Hb
    by (vm_compute; reflexivity).
  replace (str_eqb (txt "linkedinlearning") (txt "linkedinlearning")) with true in Hb
    by (vm_compute; reflexivity).
  apply extract_linkedinlearning_bound in Hb as [(m & g & Hm & Hg & Ht) _].
  destruct (li_title_group _ _ Hm) as (g' & Hg' & Hno).
  rewrite Hg in Hg'. injection Hg' as <-.
  assert (Hstrip : ~ In "_"%char (str_strip g)).
  { intros Hin. apply Hno. eapply In_strip_by. exact Hin. }
  assert (Htitle : x_title x = str_strip g).
  { rewrite Ht. apply replace_char_absent. apply List.Forall_forall.
    intros c Hin. destruct (Char.is_c "_" c) eqn:E; [|reflexivity].
    apply is_c_true in E. subst c. contradiction. }
  exists m, g. rewrite Htitle. auto.
Qed.

Lemma linkedinlearning_title_no_underscore_witness :
  exists m g,
    re_search re_li_title
              (os_path_basename (txt "certs/CertificateOfCompletion_Learning_Python.pdf"))
    = Some m
    /\ group 1 m = Some g
    /\ ~ In "_"%char g
    /\ title li_entry = str_strip g
    /\ ~ In "_"%char (title li_entry).
Proof.
  apply (linkedinlearning_title_no_underscore
           (fun _ => Some (txt "Course completed by Jan 05, 2024"))
           (fun _ => txt "0123456789abcdef") None li_fs
           (txt "certs/CertificateOfCompletion_Learning_Python.pdf") (txt "certs") true
           (txt "https://lspironello.github.io") (Filters None None None) false
           li_fs li_entry).
  vm_compute. reflexivity.
Defined.
